(** * Backlink adder: a shallow embedding of [src/src.py]

    The program scans a directory tree for markdown files
    ([MarkdownDirectory]), reads the hyperlinks of every file
    ([MarkdownFile.links]) and appends to each file a generated
    "Backlinks" section ([MarkdownFile.add_backlinks]).

    Modelling conventions.
    - A file holds bytes and the program works on text.  Both are
      [string]: a file's content is its byte sequence, and a Python
      [str] is held in its UTF-8 form, so its characters are the bytes
      that do not continue another ([PyStr.len], and the index that
      [str.find] returns, count characters).  Reading decodes the bytes
      with the encoding of the process and translates line ends;
      writing encodes.  The codec belongs to the environment ([Env]).
    - The file system lists regular files and directories by canonical
      component lists, in the order in which a recursive scan of the
      tree meets them; a directory is also present when something is
      listed below it.  It has no symbolic links, so [Path.resolve] is
      "make absolute, then fold the [..] components".  Permissions,
      special files and failures of the device are outside the
      model.
    - [pathlib.PosixPath] is a record of a root and a component list, as
      [pathlib] parses it (empty and [.] components are dropped at parse
      time, [..] is kept until [resolve]).
    - Python dictionaries are association lists with unique keys, in
      insertion order.  A Python set is a duplicate-free list of its
      elements; the order in which a set is iterated is not that list's
      order: it follows the slots of a hash table, which the environment
      chooses ([slot], [set_iter]).  Within a run the same set, built
      in the same way from the same files, is iterated in the same
      order: the slots are a function of the state of the files and of
      the document, and of nothing else.
    - The markdown renderer and HTML parser ([markdown.markdown],
      [lxml.html.fromstring], the two XPath queries) are external
      collaborators and belong to the environment: whether a text
      renders to a tree at all ([lxml] raises [ParserError] on an empty
      rendering; any failure of the collaborators is recorded as that
      exception), and what the two queries return.
    - Exceptions are values of [exn].  A computation that only reads
      returns a [result]; one that writes returns an [outcome], which
      keeps the file system as the exception left it. *)

From Stdlib Require Import String Ascii List Bool Arith Lia Permutation.
Import ListNotations.
Open Scope string_scope.
Open Scope list_scope.

(* ================================================================= *)
(** ** Python strings *)

Module PyStr.

(** [s.split(sep)] for a one-character separator: always at least one
    field. *)
Fixpoint split (sep : ascii) (s : string) : list string :=
  match s with
  | EmptyString => [EmptyString]
  | String c r =>
      if Ascii.eqb c sep then EmptyString :: split sep r
      else match split sep r with
           | [] => [String c EmptyString]
           | h :: t => String c h :: t
           end
  end.

(** [sep.join(l)]. *)
Fixpoint join (sep : string) (l : list string) : string :=
  match l with
  | [] => EmptyString
  | [x] => x
  | x :: r => x ++ sep ++ join sep r
  end.

(** [c in s]. *)
Fixpoint contains (c : ascii) (s : string) : bool :=
  match s with
  | EmptyString => false
  | String a r => Ascii.eqb a c || contains c r
  end.

(** ASCII case folding; on the comparison with [".md"] it agrees with
    [str.lower]. *)
Definition lower_ascii (c : ascii) : ascii :=
  let n := nat_of_ascii c in
  if Nat.leb 65 n && Nat.leb n 90 then ascii_of_nat (n + 32) else c.

Fixpoint lower (s : string) : string :=
  match s with
  | EmptyString => EmptyString
  | String c r => String (lower_ascii c) (lower r)
  end.

(** [s.rfind(c)], as an option. *)
Fixpoint rfind (c : ascii) (s : string) : option nat :=
  match s with
  | EmptyString => None
  | String a r =>
      match rfind c r with
      | Some i => Some (S i)
      | None => if Ascii.eqb a c then Some 0 else None
      end
  end.

(** [s[i:]]. *)
Fixpoint drop (i : nat) (s : string) : string :=
  match i, s with
  | 0, _ => s
  | S _, EmptyString => EmptyString
  | S j, String _ r => drop j r
  end.

(** [s[:i]]. *)
Definition take (i : nat) (s : string) : string := substring 0 i s.

(** Every character of [s] equals [c]. *)
Fixpoint all_eq (c : ascii) (s : string) : bool :=
  match s with
  | EmptyString => true
  | String a r => Ascii.eqb a c && all_eq c r
  end.

(** The position of the first occurrence of [m] in the UTF-8 form of
    [s]. *)
Definition offset (m s : string) : option nat := index 0 m s.

(** A byte that continues a character of several bytes. *)
Definition is_continuation (c : ascii) : bool :=
  let n := nat_of_ascii c in Nat.leb 128 n && Nat.ltb n 192.

(** [len(s)]: the number of characters. *)
Fixpoint len (s : string) : nat :=
  match s with
  | EmptyString => 0
  | String c r => (if is_continuation c then 0 else 1) + len r
  end.

(** [s.find(m)], as an option ([None] stands for [-1]): the number of
    characters before the first occurrence. *)
Definition find (m s : string) : option nat :=
  option_map (fun i => len (take i s)) (offset m s).

(** Plain text: characters of one byte, with line feeds as the only
    line ends (no carriage return). *)
Definition plain_char (c : ascii) : bool :=
  Nat.ltb (nat_of_ascii c) 128 && negb (Ascii.eqb c "013").

Fixpoint plain (s : string) : bool :=
  match s with
  | EmptyString => true
  | String c r => plain_char c && plain r
  end.

(** [n] zero bytes. *)
Fixpoint zeros (n : nat) : string :=
  match n with
  | 0 => EmptyString
  | S k => String "000" (zeros k)
  end.

(** [s.endswith(suffix)]. *)
Fixpoint endswith (s suffix : string) : bool :=
  String.eqb s suffix
  || match s with
     | EmptyString => false
     | String _ r => endswith r suffix
     end.

End PyStr.

(* ================================================================= *)
(** ** [os.path] *)

Module OsPath.

(** [os.path.splitext(p)[1]]: the text from the last dot of the last
    path component, unless that component has only dots before it. *)
Definition splitext_ext (p : string) : string :=
  let filenameIndex :=
    match PyStr.rfind "/" p with Some i => S i | None => 0 end in
  match PyStr.rfind "." p with
  | Some dotIndex =>
      if Nat.leb filenameIndex dotIndex then
        if PyStr.all_eq "."
             (PyStr.take (dotIndex - filenameIndex)
                         (PyStr.drop filenameIndex p))
        then EmptyString
        else PyStr.drop dotIndex p
      else EmptyString
  | None => EmptyString
  end.

(** The stack discipline of [normpath] / [realpath] on an absolute
    path: [..] pops a component and stays at the root. The stack is kept
    with its last component first. *)
Definition norm_step (stack : list string) (comp : string) : list string :=
  if String.eqb comp ".." then tl stack else comp :: stack.

Definition norm_stack (stack comps : list string) : list string :=
  fold_left norm_step comps stack.

Definition normalise (comps : list string) : list string :=
  rev (norm_stack [] comps).

(** The two component lists without their common prefix: what
    [commonprefix] and the slices of [relpath] leave of each. *)
Fixpoint strip_common (a b : list string) : list string * list string :=
  match a, b with
  | x :: a', y :: b' =>
      if String.eqb x y then strip_common a' b' else (a, b)
  | _, _ => (a, b)
  end.

End OsPath.

(* ================================================================= *)
(** ** [pathlib.PosixPath] *)

(** The root of a parsed POSIX path: none, [/], or exactly two leading
    slashes (which POSIX keeps distinct). *)
Inductive Root := Relative | Slash | DoubleSlash.

Record Path := mkPath { root : Root; parts : list string }.

Definition Root_eqb (a b : Root) : bool :=
  match a, b with
  | Relative, Relative | Slash, Slash | DoubleSlash, DoubleSlash => true
  | _, _ => false
  end.

Fixpoint parts_eqb (a b : list string) : bool :=
  match a, b with
  | [], [] => true
  | x :: a', y :: b' => String.eqb x y && parts_eqb a' b'
  | _, _ => false
  end.

(** [PosixPath.__eq__]: equality of the parsed parts. *)
Definition Path_eqb (p q : Path) : bool :=
  Root_eqb (root p) (root q) && parts_eqb (parts p) (parts q).

Module Pathlib.

(** [_PosixFlavour.splitroot]: the root announced by the leading
    slashes of [s]. *)
Definition splitroot (s : string) : Root :=
  match s with
  | String "/" (String "/" (String "/" _)) => Slash
  | String "/" (String "/" _) => DoubleSlash
  | String "/" _ => Slash
  | _ => Relative
  end.

(** A component survives parsing when it is neither empty nor [.]. *)
Definition keep_component (x : string) : bool :=
  negb (String.eqb x "") && negb (String.eqb x ".").

(** [Path(s)]. *)
Definition of_string (s : string) : Path :=
  {| root := splitroot s;
     parts := filter keep_component (PyStr.split "/" s) |}.

(** [str(p)]. *)
Definition str (p : Path) : string :=
  match root p with
  | Relative =>
      match parts p with
      | [] => "."
      | _ => PyStr.join "/" (parts p)
      end
  | Slash => "/" ++ PyStr.join "/" (parts p)
  | DoubleSlash => "//" ++ PyStr.join "/" (parts p)
  end.

(** [p.parent]: the path without its last component; the anchor and the
    empty relative path are their own parents. *)
Definition parent (p : Path) : Path :=
  {| root := root p; parts := removelast (parts p) |}.

(** [p.name]: the last component, or the empty string. *)
Definition name (p : Path) : string := last (parts p) "".

(** [p / s] for a string [s]: an absolute [s] replaces [p]. *)
Definition joinpath (p : Path) (s : string) : Path :=
  let q := of_string s in
  match root q with
  | Relative => {| root := root p; parts := (parts p ++ parts q)%list |}
  | _ => q
  end.

End Pathlib.

(** Python exceptions the program can raise. *)
Inductive exn :=
| FileNotFoundError (file : list string)
| IsADirectoryError (file : list string)
| NotADirectoryError (file : list string)
| UnicodeDecodeError (bytes : string)
| UnicodeEncodeError (text : string)
| ParserError
| KeyError (key : Path).

Inductive result (A : Type) :=
| Ok (a : A)
| Raise (e : exn).
Arguments Ok {A} a.
Arguments Raise {A} e.

Definition bind {A B} (m : result A) (k : A -> result B) : result B :=
  match m with
  | Ok a => k a
  | Raise e => Raise e
  end.

Notation "x <- m ;; k" := (bind m (fun x => k))
  (at level 61, m at next level, right associativity).

(** [[f(x) for x in l]] where [f] may raise: stops at the first
    exception. *)
Fixpoint mapM {A B} (f : A -> result B) (l : list A) : result (list B) :=
  match l with
  | [] => Ok []
  | x :: r => y <- f x ;; ys <- mapM f r ;; Ok (y :: ys)
  end.

(* ================================================================= *)
(** ** The file system *)

(** [l] without the prefix [pre], when it has it. *)
Fixpoint strip_prefix (pre l : list string) : option (list string) :=
  match pre, l with
  | [], _ => Some l
  | x :: pre', y :: l' =>
      if String.eqb x y then strip_prefix pre' l' else None
  | _ :: _, [] => None
  end.

(** What a name designates: a regular file with its bytes, or a
    directory. *)
Inductive node :=
| File (bytes : string)
| Directory.

(** The file system: regular files and directories by canonical
    component list, in directory-listing order. *)
Definition FileSystem := list (list string * node).

Fixpoint lookup (fs : FileSystem) (file : list string) : option node :=
  match fs with
  | [] => None
  | (f, n) :: r => if parts_eqb f file then Some n else lookup r file
  end.

(** [f] lies strictly below [d]. *)
Definition below (d f : list string) : bool :=
  match strip_prefix d f with
  | Some (_ :: _) => true
  | _ => false
  end.

(** Something is listed below [d]: [d] is a directory even when it is
    not listed itself. *)
Definition has_entries_below (fs : FileSystem) (d : list string) : bool :=
  existsb (fun entry : list string * node => below d (fst entry)) fs.

(** A regular file is listed on the way to [f]. *)
Definition through_file (fs : FileSystem) (f : list string) : bool :=
  existsb (fun entry : list string * node =>
             match snd entry with
             | File _ => below (fst entry) f
             | Directory => false
             end)
          fs.

(** [open(file)] for reading or updating, and [read] of all its
    bytes. *)
Definition open_read (fs : FileSystem) (file : list string) : result string :=
  if through_file fs file then Raise (NotADirectoryError file)
  else match lookup fs file with
       | Some (File bytes) => Ok bytes
       | Some Directory => Raise (IsADirectoryError file)
       | None =>
           if has_entries_below fs file then Raise (IsADirectoryError file)
           else Raise (FileNotFoundError file)
       end.

(** Change the bytes of the regular file [file]; the program writes
    only to a file that it has just opened. *)
Fixpoint update (fs : FileSystem) (file : list string)
         (change : string -> string) : FileSystem :=
  match fs with
  | [] => []
  | (f, n) :: r =>
      if parts_eqb f file
      then (f, match n with
               | File bytes => File (change bytes)
               | Directory => Directory
               end) :: r
      else (f, n) :: update r file change
  end.

(** A file cut or, when it is shorter, padded with zero bytes to the
    size [n]: what [truncate] does at the position [n]. *)
Definition resize (n : nat) (bytes : string) : string :=
  (PyStr.take n bytes ++ PyStr.zeros (n - String.length bytes))%string.

(** [file.seek(n); file.truncate()]. *)
Definition truncate_file (fs : FileSystem) (file : list string) (n : nat)
  : FileSystem :=
  update fs file (resize n).

(** Bytes written at the end of the file (mode [a+]). *)
Definition append_file (fs : FileSystem) (file : list string) (bytes : string)
  : FileSystem :=
  update fs file (fun old => (old ++ bytes)%string).

(** The result of a computation that writes: the file system when it
    returns, or the exception and the file system as it was left. *)
Inductive outcome :=
| Returns (fs : FileSystem)
| Raises (e : exn) (fs : FileSystem).

(** Python [dict] on [Path] keys. *)
Section Dict.
Context {V : Type}.

Fixpoint dict_get (d : list (Path * V)) (k : Path) : result V :=
  match d with
  | [] => Raise (KeyError k)
  | (k', v) :: r => if Path_eqb k' k then Ok v else dict_get r k
  end.

(** [d[k] = v]: overwrite in place, or insert last. *)
Fixpoint dict_set (d : list (Path * V)) (k : Path) (v : V)
  : list (Path * V) :=
  match d with
  | [] => [(k, v)]
  | (k', v') :: r =>
      if Path_eqb k' k then (k', v) :: r else (k', v') :: dict_set r k v
  end.

Definition dict_keys (d : list (Path * V)) : list Path := map fst d.
Definition dict_values (d : list (Path * V)) : list V := map snd d.
End Dict.

(** Membership in a set of optional paths ([None] is a possible value of
    [get_absolute_path]). *)
Definition opt_Path_eqb (a b : option Path) : bool :=
  match a, b with
  | Some p, Some q => Path_eqb p q
  | None, None => true
  | _, _ => false
  end.

Definition set_mem (x : option Path) (s : list (option Path)) : bool :=
  existsb (opt_Path_eqb x) s.

(** [set(l)]: first occurrences, in order. *)
Fixpoint set_of_list (l : list (option Path)) : list (option Path) :=
  match l with
  | [] => []
  | x :: r =>
      x :: filter (fun y => negb (opt_Path_eqb x y)) (set_of_list r)
  end.

(** The order in which a set is iterated: that of the slots of its
    elements in the hash table, and the order of insertion where two
    elements share a slot. *)
Fixpoint insert_by (slot : Path -> nat) (x : Path) (l : list Path)
  : list Path :=
  match l with
  | [] => [x]
  | y :: r =>
      if Nat.leb (slot x) (slot y) then x :: y :: r
      else y :: insert_by slot x r
  end.

Definition set_iter (slot : Path -> nat) (l : list Path) : list Path :=
  fold_right (insert_by slot) [] l.

(** The paths of a list, each once. *)
Fixpoint uniq (l : list Path) : list Path :=
  match l with
  | [] => []
  | x :: r => x :: filter (fun y => negb (Path_eqb x y)) (uniq r)
  end.

(** The line feed and the two fixed strings written by [add_backlinks]. *)
Definition nl : string := String "010"%char EmptyString.
Definition separator : string := nl ++ nl ++ "---" ++ nl ++ nl.
Definition heading_line : string := "## Backlinks:" ++ nl.

(** The literal searched by [content.find] in [add_backlinks]. *)
Definition marker : string := nl ++ nl ++ "---" ++ nl ++ nl ++ "## Backlinks:" ++ nl.

(** [name] matches the glob pattern [*.md]. *)
Definition matches_md (name : string) : bool :=
  let n := String.length name in
  Nat.leb 3 n && String.eqb (PyStr.drop (n - 3) name) ".md".

(** The locations on the way down [rel], from [done] on, whose name
    matches [*.md]: every one is a file or a directory that [rglob]
    visits. *)
Fixpoint md_prefixes (done rel : list string) : list (list string) :=
  match rel with
  | [] => []
  | x :: r =>
      ((if matches_md x then [(done ++ [x])%list] else [])
         ++ md_prefixes (done ++ [x]) r)%list
  end.

(** A document: [MarkdownFile.path] and [MarkdownFile.heading]. The
    back-reference [markdown_dir] is passed explicitly where it is
    used. *)
Record MarkdownFile := mkFile { path : Path; heading : string }.

(** A collection: [MarkdownDirectory.p_path] and
    [MarkdownDirectory.files]. *)
Record MarkdownDirectory :=
  mkDir { p_path : Path; files : list (Path * MarkdownFile) }.

(* ================================================================= *)
(** ** Paths and links *)

Section Paths.

(** The working directory of the process, as canonical components. *)
Variable cwd : list string.

(** [[a.get('href') for a in doctree.xpath('//a')]] of the rendering of
    a text; an anchor without [href] gives [None]. *)
Variable a_hrefs : string -> list (option string).

(** Components of the absolute form of [p] before normalisation. *)
Definition absolute_parts (p : Path) : list string :=
  match root p with
  | Relative => (cwd ++ parts p)%list
  | _ => parts p
  end.

(** [p.resolve()] on a file system without symbolic links. *)
Definition resolve (p : Path) : Path :=
  {| root := Slash; parts := OsPath.normalise (absolute_parts p) |}.

(** [os.path.relpath(target, start)]. *)
Definition relpath (target start : Path) : string :=
  let start_list := OsPath.normalise (absolute_parts start) in
  let path_list := OsPath.normalise (absolute_parts target) in
  let '(start_rest, path_rest) :=
    OsPath.strip_common start_list path_list in
  match (repeat ".." (List.length start_rest) ++ path_rest)%list with
  | [] => "."
  | rel_list => PyStr.join "/" rel_list
  end.

(** The file that [open(p)] designates. *)
Definition file_of (p : Path) : list string := parts (resolve p).

(** [Path.rglob('*.md')]: every file and every directory strictly
    below [p] whose name matches, each once, spelled as [p] joined with
    the relative location. *)
Definition rglob_md (p : Path) (fs : FileSystem) : list Path :=
  uniq
    (flat_map
       (fun entry : list string * node =>
          match strip_prefix (file_of p) (fst entry) with
          | Some rel =>
              map (fun loc => {| root := root p;
                                 parts := (parts p ++ loc)%list |})
                  (md_prefixes [] rel)
          | None => []
          end)
       fs).

(** [MarkdownFile.get_absolute_path]. *)
Definition get_absolute_path (self : MarkdownFile)
           (somepath : option string) : option Path :=
  match somepath with
  | None => None
  | Some EmptyString => None
  | Some (String c _ as s) =>
      if Ascii.eqb c "/" then Some (Pathlib.of_string s)
      else Some (resolve
                   (Pathlib.joinpath
                      (resolve (Pathlib.parent (path self)))
                      (hd "" (PyStr.split "#" s))))
  end.

(** [str(somelink)]; [str(None)] is ["None"]. *)
Definition py_str (somelink : option Path) : string :=
  match somelink with
  | Some p => Pathlib.str p
  | None => "None"
  end.

(** The [lambda] of [MarkdownFile.links]. *)
Definition is_md_link (somelink : option Path) : bool :=
  String.eqb
    (PyStr.lower
       (OsPath.splitext_ext (hd "" (PyStr.split "#" (py_str somelink)))))
    ".md".

(** The set that [MarkdownFile.links] builds from a rendered text. *)
Definition links_of_content (self : MarkdownFile) (content : string)
  : list (option Path) :=
  set_of_list
    (filter is_md_link (map (get_absolute_path self) (a_hrefs content))).

(** The key under which [__init__] stores a discovered path. *)
Definition resolved_key (p_path eachpath : Path) : Path :=
  resolve (Pathlib.joinpath (resolve (Pathlib.parent p_path))
                            (Pathlib.str eachpath)).

End Paths.

(* ================================================================= *)
(** ** The environment of a run *)

(** What the program takes from its process and its collaborators. *)
Record Env := mkEnv {
  (** [os.getcwd()], as canonical components. *)
  getcwd : list string;
  (** The text that [file.read()] returns for the bytes of a file:
      they are decoded with the preferred encoding of the process and
      line ends are translated; [None] when the bytes do not decode
      ([UnicodeDecodeError]). *)
  decode : string -> option string;
  (** The bytes that writing a text appends; [None] when the encoding
      has no bytes for it ([UnicodeEncodeError]). *)
  encode : string -> option string;
  (** Whether [lxml.html.fromstring(markdown.markdown(text))] returns a
      tree; it raises [ParserError] when the rendering is empty. *)
  renders : string -> bool;
  (** [doctree.xpath('//h1//text()')] of the rendering of a text. *)
  h1_texts : string -> list string;
  (** [[a.get('href') for a in doctree.xpath('//a')]] of it. *)
  hrefs : string -> list (option string);
  (** The slot of a path in the hash table of the set that
      [add_backlinks] builds for a document in a state of the files. *)
  slot : FileSystem -> MarkdownFile -> Path -> nat
}.

(* ================================================================= *)
(** ** The program *)

Section Program.

Variable env : Env.

(** [open(p)] and [file.read()] in text mode. *)
Definition read_text (fs : FileSystem) (file : list string) : result string :=
  bytes <- open_read fs file ;;
  match decode env bytes with
  | Some text => Ok text
  | None => Raise (UnicodeDecodeError bytes)
  end.

(** *** MarkdownFile *)

(** [MarkdownFile.doctree]: the tree stands for the text that rendered
    to it. *)
Definition doctree (p : Path) (fs : FileSystem) : result string :=
  content <- read_text fs (file_of (getcwd env) p) ;;
  if renders env content then Ok content else Raise ParserError.

(** [MarkdownFile.__init__]. *)
Definition MarkdownFile_init (path : Path) (fs : FileSystem)
  : result MarkdownFile :=
  tree <- doctree path fs ;;
  let headings := h1_texts env tree in
  Ok {| path := path;
        heading := match headings with
                   | h :: _ => h
                   | [] => Pathlib.name path
                   end |}.

(** [MarkdownFile.links]: reads and renders the file anew at every
    access. *)
Definition links (self : MarkdownFile) (fs : FileSystem)
  : result (list (option Path)) :=
  tree <- doctree (path self) fs ;;
  Ok (links_of_content (getcwd env) (hrefs env) self tree).

(** *** MarkdownDirectory *)

(** The dictionary comprehension of [MarkdownDirectory.__init__]. *)
Fixpoint build_files (p_path : Path) (found : list Path) (fs : FileSystem)
         (acc : list (Path * MarkdownFile))
  : result (list (Path * MarkdownFile)) :=
  match found with
  | [] => Ok acc
  | eachpath :: rest =>
      let resolved_path := resolved_key (getcwd env) p_path eachpath in
      file <- MarkdownFile_init eachpath fs ;;
      build_files p_path rest fs (dict_set acc resolved_path file)
  end.

(** [MarkdownDirectory.__init__]. *)
Definition MarkdownDirectory_init (path_string : string) (fs : FileSystem)
  : result MarkdownDirectory :=
  let p := Pathlib.of_string path_string in
  fl <- build_files p (rglob_md (getcwd env) p fs) fs [] ;;
  Ok {| p_path := p; files := fl |}.

(** [MarkdownDirectory.link_map]. *)
Definition link_map (self : MarkdownDirectory) (fs : FileSystem)
  : result (list (Path * list (option Path))) :=
  mapM (fun resolved_path =>
          file <- dict_get (files self) resolved_path ;;
          l <- links file fs ;;
          Ok (resolved_path, l))
       (dict_keys (files self)).

(** *** add_backlinks *)

(** The elements of the set expression of [add_backlinks]:
    [{key for key, value in link_map.items() if self.path in value}
     - self.links]. *)
Definition backlink_set (self : MarkdownFile)
           (lm : list (Path * list (option Path)))
           (own : list (option Path)) : list Path :=
  filter (fun key => negb (set_mem (Some key) own))
         (map fst
              (filter (fun kv : Path * list (option Path) =>
                         set_mem (Some (path self)) (snd kv))
                      lm)).

(** The set of backlinks of [self] in the state [fs]. *)
Definition backlink_candidates (self : MarkdownFile)
           (dir : MarkdownDirectory) (fs : FileSystem) : result (list Path) :=
  lm <- link_map dir fs ;;
  own <- links self fs ;;
  Ok (backlink_set self lm own).

(** The backlinks of [self] in the state [fs], as the [for] clause of
    [add_backlinks] meets them. *)
Definition compute_backlinks (self : MarkdownFile) (dir : MarkdownDirectory)
           (fs : FileSystem) : result (list Path) :=
  candidates <- backlink_candidates self dir fs ;;
  Ok (set_iter (slot env fs self) candidates).

(** One generated list entry. *)
Definition backlink_line (self : MarkdownFile) (dir : MarkdownDirectory)
           (each_backlink : Path) : result string :=
  target <- dict_get (files dir) each_backlink ;;
  Ok ("- [" ++ heading target ++ "]("
        ++ relpath (getcwd env) each_backlink (Pathlib.parent (path self))
        ++ ")" ++ nl)%string.

(** The list that [add_backlinks] passes to [writelines]. *)
Definition block_lines (self : MarkdownFile) (dir : MarkdownDirectory)
           (fs : FileSystem) : result (list string) :=
  backlinks <- compute_backlinks self dir fs ;;
  entries <- mapM (backlink_line self dir) backlinks ;;
  Ok (separator :: heading_line :: entries).

(** [file.writelines(lines)] in mode [a+]: a text that cannot be
    encoded stops the writing after the texts before it. *)
Fixpoint writelines (fs : FileSystem) (file : list string)
         (lines : list string) : outcome :=
  match lines with
  | [] => Returns fs
  | text :: rest =>
      match encode env text with
      | Some bytes => writelines (append_file fs file bytes) file rest
      | None => Raises (UnicodeEncodeError text) fs
      end
  end.

(** The first [with] block of [add_backlinks] on a file that holds the
    text [content]: the index of [content.find], a number of
    characters, is the position at which the file is cut. *)
Definition truncate_at_marker (content : string) (fs : FileSystem)
           (file : list string) : FileSystem :=
  match PyStr.find marker content with
  | Some index => truncate_file fs file index
  | None => fs
  end.

(** [MarkdownFile.add_backlinks], with [self.markdown_dir] as [dir]. *)
Definition add_backlinks (self : MarkdownFile) (dir : MarkdownDirectory)
           (fs : FileSystem) : outcome :=
  match read_text fs (file_of (getcwd env) (path self)) with
  | Raise e => Raises e fs
  | Ok content =>
      let fs1 := truncate_at_marker content fs
                                    (file_of (getcwd env) (path self)) in
      match block_lines self dir fs1 with
      | Raise e => Raises e fs1
      | Ok lines => writelines fs1 (file_of (getcwd env) (path self)) lines
      end
  end.

(** [MarkdownDirectory.add_all_backlinks]. *)
Fixpoint add_each (todo : list MarkdownFile) (dir : MarkdownDirectory)
         (fs : FileSystem) : outcome :=
  match todo with
  | [] => Returns fs
  | file :: rest =>
      match add_backlinks file dir fs with
      | Returns fs' => add_each rest dir fs'
      | Raises e fs' => Raises e fs'
      end
  end.

Definition add_all_backlinks (self : MarkdownDirectory) (fs : FileSystem)
  : outcome :=
  add_each (dict_values (files self)) self fs.

End Program.

(* ================================================================= *)
(** ** An environment for the worked examples

    The working directory [/w]; the ASCII codec with the translation of
    line ends that text mode applies; a hash table whose slots follow
    the order of insertion; and a stand-in for the markdown
    collaborator on the texts used in the examples: first-level ATX
    headings ([# title] lines), inline links ([[text](destination)]),
    and an empty rendering for a text of white space alone.  On those
    texts it returns what the real renderer returns. *)

Module Sample.

Fixpoint text_before (c : ascii) (s : string) : option string :=
  match s with
  | EmptyString => None
  | String a r =>
      if Ascii.eqb a c then Some EmptyString
      else match text_before c r with
           | Some t => Some (String a t)
           | None => None
           end
  end.

Fixpoint a_hrefs (s : string) : list (option string) :=
  match s with
  | EmptyString => []
  | String "]" (String "(" r as r0) =>
      match text_before ")" r with
      | Some dest => Some dest :: a_hrefs r0
      | None => a_hrefs r0
      end
  | String _ r => a_hrefs r
  end.

Definition h1_of_line (line : string) : list string :=
  match line with
  | String "#" (String " " t) => [t]
  | _ => []
  end.

Definition h1_texts (s : string) : list string :=
  flat_map h1_of_line (PyStr.split "010" s).

Definition cwd : list string := ["w"].

(** The codec [ascii], followed by the translation of [\r\n] and [\r]
    to [\n]. *)
Fixpoint decode (bytes : string) : option string :=
  match bytes with
  | EmptyString => Some EmptyString
  | String c r =>
      if Nat.ltb (nat_of_ascii c) 128 then
        if Ascii.eqb c "013" then
          match r with
          | String c' r' =>
              if Ascii.eqb c' "010"
              then option_map (String "010"%char) (decode r')
              else option_map (String "010"%char) (decode r)
          | EmptyString => Some (String "010"%char EmptyString)
          end
        else option_map (String c) (decode r)
      else None
  end.

Fixpoint all_ascii (s : string) : bool :=
  match s with
  | EmptyString => true
  | String c r => Nat.ltb (nat_of_ascii c) 128 && all_ascii r
  end.

Definition encode (text : string) : option string :=
  if all_ascii text then Some text else None.

Definition is_space (c : ascii) : bool :=
  let n := nat_of_ascii c in
  (Nat.leb 9 n && Nat.leb n 13) || Nat.eqb n 32.

Fixpoint renders (text : string) : bool :=
  match text with
  | EmptyString => false
  | String c r => negb (is_space c) || renders r
  end.

Definition slot : FileSystem -> MarkdownFile -> Path -> nat :=
  fun _ _ _ => 0.

Definition env : Env :=
  mkEnv cwd decode encode renders h1_texts a_hrefs slot.

End Sample.

(* ================================================================= *)
(** ** Vocabulary of the properties *)

(** [target] is the text of the link [s] before its fragment: [s]
    without the first [#] and what follows it. *)
Definition is_target_of (target s : string) : Prop :=
  exists rest,
    s = (target ++ rest)%string /\
    PyStr.contains "#" target = false /\
    (rest = "" \/ exists r, rest = String "#" r).

(** Some component of the path contains a [#]. *)
Definition has_hash (p : Path) : bool :=
  existsb (PyStr.contains "#") (parts p).

(** A path component as the file system has them: not empty, not [.],
    without slash. *)
Definition wf_component (x : string) : Prop :=
  x <> "" /\ x <> "." /\ PyStr.contains "/" x = false.

(** A canonical path: absolute, without [..], made of file-system
    components. *)
Definition canonical (p : Path) : Prop :=
  root p = Slash /\ ~ In ".." (parts p) /\ Forall wf_component (parts p).

(** Where a relative path leads from the directory [dir]: [..] steps to
    the parent directory (and stays at the root), any other component
    steps into it. *)
Fixpoint walk (dir rel : list string) : list string :=
  match rel with
  | [] => dir
  | x :: r =>
      if String.eqb x ".." then walk (removelast dir) r
      else walk (dir ++ [x]) r
  end.

(** The four spellings of the extension that the filter of [links]
    accepts. *)
Definition md_extensions : list string := [".md"; ".mD"; ".Md"; ".MD"].

(** Every document of the collection has a file that can be opened,
    decoded and rendered. *)
Definition readable (env : Env) (dir : MarkdownDirectory)
           (fs : FileSystem) : Prop :=
  forall k d, In (k, d) (files dir) ->
              exists tree, doctree env (path d) fs = Ok tree.

(** One entry of [link_map]: the key and the current links of the
    document stored under it. *)
Definition link_map_entry (env : Env)
           (dir : MarkdownDirectory) (fs : FileSystem)
           (k : Path) (kv : Path * list (option Path)) : Prop :=
  fst kv = k /\
  exists file, dict_get (files dir) k = Ok file /\
               links env file fs = Ok (snd kv).

(** The backlink set as the specification words it: the keys [S] of
    the link map whose links contain the canonical path [key] of the
    document, less the document's own links. *)
Definition backlinks_by_key (key : Path)
           (lm : list (Path * list (option Path)))
           (own : list (option Path)) : list Path :=
  filter (fun S => negb (set_mem (Some S) own))
         (map fst
              (filter (fun kv : Path * list (option Path) =>
                         set_mem (Some key) (snd kv))
                      lm)).

(** The marker without its final line feed. *)
Definition marker_head : string :=
  nl ++ nl ++ "---" ++ nl ++ nl ++ "## Backlinks:".

(** The documents of the collection are stored in pairwise distinct
    files. *)
Definition distinct_files (cwd : list string) (dir : MarkdownDirectory)
  : Prop :=
  NoDup (map (fun kd : Path * MarkdownFile => file_of cwd (path (snd kd)))
             (files dir)).

(** What the constructor guarantees for any spelling of the root: no
    key twice, one document per file, and either every document is
    stored under its own path or no document's path is a key at
    all. *)
Definition well_keyed (cwd : list string) (dir : MarkdownDirectory) : Prop :=
  NoDup (dict_keys (files dir)) /\
  distinct_files cwd dir /\
  ((forall k d, In (k, d) (files dir) -> path d = k) \/
   (forall k d, In (k, d) (files dir) ->
                ~ In (path d) (dict_keys (files dir)))).

(** The names of a file system with what each designates, a regular
    file or a directory. *)
Definition kind (n : node) : bool :=
  match n with
  | File _ => true
  | Directory => false
  end.

Definition shape (fs : FileSystem) : list (list string * bool) :=
  map (fun entry : list string * node => (fst entry, kind (snd entry))) fs.

(** A name exists: it is listed, or something is listed below it. *)
Definition present (fs : FileSystem) (f : list string) : Prop :=
  exists more n, In ((f ++ more)%list, n) fs.

(** The bytes that the first [with] block of [add_backlinks] leaves of
    a file whose bytes decode to [content]. *)
Definition kept_bytes (content bytes : string) : string :=
  match PyStr.find marker content with
  | Some index => resize index bytes
  | None => bytes
  end.

(** The bytes that [writelines] appends for a list of texts, when
    every text can be encoded. *)
Fixpoint encode_lines (env : Env) (lines : list string) : option string :=
  match lines with
  | [] => Some EmptyString
  | text :: rest =>
      match encode env text, encode_lines env rest with
      | Some bytes, Some more => Some (bytes ++ more)%string
      | _, _ => None
      end
  end.

(** The encoding of the process writes plain text as it is and reads it
    back as it is: UTF-8, Latin-1 and ASCII do. *)
Definition ascii_compatible (env : Env) : Prop :=
  forall text, PyStr.plain text = true ->
               decode env text = Some text /\ encode env text = Some text.

(** The bytes of a file after a block with the entries of [listed] was
    appended to the bytes [bytes]. *)
Definition rewritten_bytes (env : Env) (self : MarkdownFile)
           (dir : MarkdownDirectory) (bytes : string) (listed : list Path)
  : option string :=
  match mapM (backlink_line env self dir) listed with
  | Ok entries =>
      option_map (append bytes)
                 (encode_lines env (separator :: heading_line :: entries))
  | Raise _ => None
  end.

(** Every document is fresh: its file decodes and renders, and its
    text holds no marker and does not end with the marker cut short. *)
Definition fresh (env : Env) (dir : MarkdownDirectory)
           (fs : FileSystem) : Prop :=
  forall k d, In (k, d) (files dir) ->
    exists bytes content,
      open_read fs (file_of (getcwd env) (path d)) = Ok bytes /\
      decode env bytes = Some content /\
      renders env content = true /\
      PyStr.find marker content = None /\
      PyStr.endswith content marker_head = false.

(** The collaborators read a generated block back faithfully: when a
    block that lists the backlinks of a document, in any order, is
    appended to its file, the block can be encoded, the file still
    decodes and renders, and its outbound links are those of the text
    before, with none but listed backlinks added. *)
Definition block_read_back (env : Env)
           (dir : MarkdownDirectory) (fs : FileSystem) : Prop :=
  forall k d bytes content candidates listed,
    In (k, d) (files dir) ->
    open_read fs (file_of (getcwd env) (path d)) = Ok bytes ->
    decode env bytes = Some content ->
    backlink_candidates env d dir fs = Ok candidates ->
    Permutation listed candidates ->
    exists bytes' content',
      rewritten_bytes env d dir bytes listed = Some bytes' /\
      decode env bytes' = Some content' /\
      renders env content' = true /\
      forall T,
        (In (Some T) (links_of_content (getcwd env) (hrefs env) d content) ->
         In (Some T) (links_of_content (getcwd env) (hrefs env) d content')) /\
        (In (Some T) (links_of_content (getcwd env) (hrefs env) d content') ->
         In (Some T) (links_of_content (getcwd env) (hrefs env) d content) \/
         In T candidates).

(** The bytes of a document's file, and the set of its backlinks, in
    the state [fs]. *)
Definition doc_bytes (env : Env) (fs : FileSystem) (d : MarkdownFile)
  : string :=
  match open_read fs (file_of (getcwd env) (path d)) with
  | Ok bytes => bytes
  | Raise _ => ""
  end.

Definition candidates_at (env : Env) (dir : MarkdownDirectory)
           (fs : FileSystem) (d : MarkdownFile) : list Path :=
  match backlink_candidates env d dir fs with
  | Ok candidates => candidates
  | Raise _ => []
  end.

(** The file of [d] holds, in the state [s], the bytes it had in [fs0]
    followed by a block that lists the backlinks it had in [fs0], in
    the order in which the set was iterated in some state. *)
Definition rewritten_in (env : Env) (dir : MarkdownDirectory)
           (fs0 s : FileSystem) (d : MarkdownFile) : Prop :=
  exists visited bytes',
    rewritten_bytes env d dir (doc_bytes env fs0 d)
      (set_iter (slot env visited d) (candidates_at env dir fs0 d))
    = Some bytes' /\
    open_read s (file_of (getcwd env) (path d)) = Ok bytes'.

(** Cutting a rewritten file of [d] at the marker gives back the bytes
    that [d] had in [fs0]. *)
Definition cut_back (env : Env) (dir : MarkdownDirectory)
           (fs0 : FileSystem) (d : MarkdownFile) : Prop :=
  forall listed bytes' content',
    Permutation listed (candidates_at env dir fs0 d) ->
    rewritten_bytes env d dir (doc_bytes env fs0 d) listed = Some bytes' ->
    decode env bytes' = Some content' ->
    kept_bytes content' bytes' = doc_bytes env fs0 d.

(** The files of the documents and the lines of their entries are
    plain text. *)
Definition plain_documents (env : Env) (dir : MarkdownDirectory)
           (fs0 : FileSystem) : Prop :=
  forall k d, In (k, d) (files dir) ->
    PyStr.plain (doc_bytes env fs0 d) = true /\
    forall b line, backlink_line env d dir b = Ok line ->
                   PyStr.plain line = true.

(** The slots of the hash table do not depend on the state of the
    files: a set with the same elements is iterated in the same order
    at every visit. *)
Definition stable_slots (env : Env) : Prop :=
  forall s s' d p, slot env s d p = slot env s' d p.

(** States met during the passes: every document's file holds its
    fresh bytes or is rewritten; and the states in which all are
    rewritten. *)
Definition fresh_or_rewritten (env : Env)
           (dir : MarkdownDirectory) (fs0 s : FileSystem) : Prop :=
  forall k d, In (k, d) (files dir) ->
    open_read s (file_of (getcwd env) (path d)) = Ok (doc_bytes env fs0 d) \/
    rewritten_in env dir fs0 s d.

Definition all_rewritten (env : Env)
           (dir : MarkdownDirectory) (fs0 s : FileSystem) : Prop :=
  forall k d, In (k, d) (files dir) -> rewritten_in env dir fs0 s d.

(** The environment [env] with another choice of slots. *)
Definition with_slot (env : Env)
           (slot' : FileSystem -> MarkdownFile -> Path -> nat) : Env :=
  mkEnv (getcwd env) (decode env) (encode env) (renders env)
        (h1_texts env) (hrefs env) slot'.

(* ================================================================= *)
(** ** Worked examples

    Small collections in the directory [/w/docs], with the working
    directory [/w] and the environment of [Sample]. *)

(** The documents of the worked examples, in the directory [/w/docs]. *)
Module Docs.
Definition a_md : Path := mkPath Slash ["w"; "docs"; "a.md"].
Definition b_md : Path := mkPath Slash ["w"; "docs"; "b.md"].
Definition c_md : Path := mkPath Slash ["w"; "docs"; "c.md"].
Definition alpha : MarkdownFile := mkFile a_md "Alpha".
Definition beta : MarkdownFile := mkFile b_md "Beta".
Definition gamma : MarkdownFile := mkFile c_md "Gamma".
End Docs.

(** The two-document collection of the worked examples: [a.md] links to
    [b.md]; constructed from the root [/w/docs]. *)
Module Two.
Definition a_text : string := "# Alpha" ++ nl ++ nl ++ "[b](b.md)" ++ nl.
Definition b_text : string := "# Beta" ++ nl.
Definition fs : FileSystem :=
  [ (["w"; "docs"; "a.md"], File a_text);
    (["w"; "docs"; "b.md"], File b_text) ].
Definition dir : MarkdownDirectory :=
  mkDir (mkPath Slash ["w"; "docs"])
        [ (Docs.a_md, Docs.alpha); (Docs.b_md, Docs.beta) ].

(** The files after the pass: an empty block in [a.md], one entry in
    [b.md]. *)
Definition a_after : string := a_text ++ marker.
Definition b_after : string := b_text ++ marker ++ "- [Alpha](a.md)" ++ nl.
Definition fs_after_b : FileSystem :=
  [ (["w"; "docs"; "a.md"], File a_text);
    (["w"; "docs"; "b.md"], File b_after) ].
Definition fs_after : FileSystem :=
  [ (["w"; "docs"; "a.md"], File a_after);
    (["w"; "docs"; "b.md"], File b_after) ].
End Two.

(** The same two documents, discovered from the relative root [docs]
    with the working directory [/w]. *)
Module TwoRelative.
Definition a_rel : Path := mkPath Relative ["docs"; "a.md"].
Definition b_rel : Path := mkPath Relative ["docs"; "b.md"].
Definition alpha : MarkdownFile := mkFile a_rel "Alpha".
Definition beta : MarkdownFile := mkFile b_rel "Beta".
Definition dir : MarkdownDirectory :=
  mkDir (mkPath Relative ["docs"])
        [ (Docs.a_md, alpha); (Docs.b_md, beta) ].
End TwoRelative.

(** One document below the two-component relative root [x/docs], with
    the working directory [/w]. *)
Module Nested.
Definition fs : FileSystem :=
  [ (["w"; "x"; "docs"; "a.md"], File ("# Alpha" ++ nl)%string) ].
Definition a_rel : Path := mkPath Relative ["x"; "docs"; "a.md"].
Definition a_key : Path := mkPath Slash ["w"; "x"; "x"; "docs"; "a.md"].
Definition dir : MarkdownDirectory :=
  mkDir (mkPath Relative ["x"; "docs"]) [ (a_key, mkFile a_rel "Alpha") ].
End Nested.

(** Two documents that link to each other. *)
Module Mutual.
Definition a_text : string := "# Alpha" ++ nl ++ nl ++ "[b](b.md)" ++ nl.
Definition b_text : string := "# Beta" ++ nl ++ nl ++ "[a](a.md)" ++ nl.
Definition fs : FileSystem :=
  [ (["w"; "docs"; "a.md"], File a_text);
    (["w"; "docs"; "b.md"], File b_text) ].
End Mutual.

(** Three documents: [a.md] and [b.md] link to each other, and [c.md]
    links to [a.md]. *)
Module Three.
Definition c_text : string := "# Gamma" ++ nl ++ nl ++ "[a](a.md)" ++ nl.
Definition fs : FileSystem :=
  [ (["w"; "docs"; "a.md"], File Mutual.a_text);
    (["w"; "docs"; "b.md"], File Mutual.b_text);
    (["w"; "docs"; "c.md"], File c_text) ].
Definition dir : MarkdownDirectory :=
  mkDir (mkPath Slash ["w"; "docs"])
        [ (Docs.a_md, Docs.alpha); (Docs.b_md, Docs.beta);
          (Docs.c_md, Docs.gamma) ].
(** The same documents as the relative root [docs] stores them. *)
Definition alpha_rel : MarkdownFile :=
  mkFile (mkPath Relative ["docs"; "a.md"]) "Alpha".
Definition beta_rel : MarkdownFile :=
  mkFile (mkPath Relative ["docs"; "b.md"]) "Beta".
Definition gamma_rel : MarkdownFile :=
  mkFile (mkPath Relative ["docs"; "c.md"]) "Gamma".
Definition dir_rel : MarkdownDirectory :=
  mkDir (mkPath Relative ["docs"])
        [ (Docs.a_md, alpha_rel); (Docs.b_md, beta_rel);
          (Docs.c_md, gamma_rel) ].
End Three.

(** Three documents: [a.md] and [b.md] both link to [c.md]; and an
    environment whose hash table puts [a.md] after [b.md]. *)
Module Fan.
Definition a_text : string := "# Alpha" ++ nl ++ nl ++ "[c](c.md)" ++ nl.
Definition b_text : string := "# Beta" ++ nl ++ nl ++ "[c](c.md)" ++ nl.
Definition c_text : string := "# Gamma" ++ nl.
Definition fs : FileSystem :=
  [ (["w"; "docs"; "a.md"], File a_text);
    (["w"; "docs"; "b.md"], File b_text);
    (["w"; "docs"; "c.md"], File c_text) ].
Definition slot : FileSystem -> MarkdownFile -> Path -> nat :=
  fun _ _ p => if Path_eqb p Docs.a_md then 1 else 0.
Definition env : Env := with_slot Sample.env slot.
Definition c_after : string :=
  c_text ++ marker ++ "- [Beta](b.md)" ++ nl ++ "- [Alpha](a.md)" ++ nl.
Definition fs_after_c : FileSystem :=
  [ (["w"; "docs"; "a.md"], File a_text);
    (["w"; "docs"; "b.md"], File b_text);
    (["w"; "docs"; "c.md"], File c_after) ].
End Fan.

(** The two documents, where [a.md] also links to a file that does
    not exist. *)
Module Dangling.
Definition a_text : string :=
  "# Alpha" ++ nl ++ nl ++ "[b](b.md) [gone](missing.md)" ++ nl.
Definition fs : FileSystem :=
  [ (["w"; "docs"; "a.md"], File a_text);
    (["w"; "docs"; "b.md"], File Two.b_text) ].
Definition fs_after_b : FileSystem :=
  [ (["w"; "docs"; "a.md"], File a_text);
    (["w"; "docs"; "b.md"], File Two.b_after) ].
End Dangling.

(** A single document whose text ends with the marker cut short. *)
Module Boundary.
Definition a_text : string := "Hello" ++ marker_head.
Definition fs : FileSystem := [ (["w"; "docs"; "a.md"], File a_text) ].
Definition alpha : MarkdownFile := mkFile Docs.a_md "a.md".
Definition dir : MarkdownDirectory :=
  mkDir (mkPath Slash ["w"; "docs"]) [ (Docs.a_md, alpha) ].
Definition fs_once : FileSystem :=
  [ (["w"; "docs"; "a.md"],
     File ("Hello" ++ marker_head ++ marker)%string) ].
Definition fs_twice : FileSystem :=
  [ (["w"; "docs"; "a.md"], File ("Hello" ++ marker)%string) ].
End Boundary.

(** A single document whose text starts with the marker. *)
Module MarkerFirst.
Definition a_text : string := marker ++ "kept?".
Definition fs : FileSystem := [ (["w"; "docs"; "a.md"], File a_text) ].
Definition fs_left : FileSystem := [ (["w"; "docs"; "a.md"], File "") ].
End MarkerFirst.

(** The two documents among other files: a text file beside them, a
    markdown file with an upper-case extension, and a markdown file
    outside the directory. *)
Module Mixed.
Definition fs : FileSystem :=
  [ (["w"; "docs"; "a.md"], File Two.a_text);
    (["w"; "docs"; "notes.txt"], File "plain text");
    (["w"; "docs"; "b.md"], File Two.b_text);
    (["w"; "docs"; "README.MD"], File ("# Read me" ++ nl)%string);
    (["w"; "other"; "c.md"], File ("# Gamma" ++ nl)%string) ].
Definition fs_after : FileSystem :=
  [ (["w"; "docs"; "a.md"], File Two.a_after);
    (["w"; "docs"; "notes.txt"], File "plain text");
    (["w"; "docs"; "b.md"], File Two.b_after);
    (["w"; "docs"; "README.MD"], File ("# Read me" ++ nl)%string);
    (["w"; "other"; "c.md"], File ("# Gamma" ++ nl)%string) ].
(** The same with a directory named [old.md] that holds a text
    file. *)
Definition fs_with_directory : FileSystem :=
  (fs ++ [ (["w"; "docs"; "old.md"; "notes.txt"], File "old") ])%list.
End Mixed.

(** The two-document collection after [b.md] was deleted, and after it
    was emptied. *)
Module Deleted.
Definition fs : FileSystem := [ (["w"; "docs"; "a.md"], File Two.a_text) ].
Definition fs_emptied : FileSystem :=
  [ (["w"; "docs"; "a.md"], File Two.a_text);
    (["w"; "docs"; "b.md"], File "") ].
End Deleted.

(* ================================================================= *)
(** * Properties *)

(** ** Equality tests *)

Lemma parts_eqb_eq (a b : list string) : parts_eqb a b = true <-> a = b.
Proof.
  revert b; induction a as [|x a IH]; intros [|y b]; simpl;
    try (split; [discriminate | discriminate]); try tauto.
  rewrite andb_true_iff, String.eqb_eq, IH.
  split; [intros [-> ->]; reflexivity | intros E; inversion E; auto].
Qed.

Lemma Path_eqb_eq (p q : Path) : Path_eqb p q = true <-> p = q.
Proof.
  destruct p as [r1 l1], q as [r2 l2]; unfold Path_eqb; simpl.
  rewrite andb_true_iff, parts_eqb_eq.
  split.
  - intros [Hr ->]; destruct r1, r2; simpl in Hr; congruence.
  - intros E; inversion E; subst; split; [destruct r2|]; reflexivity.
Qed.

Lemma Path_eqb_refl (p : Path) : Path_eqb p p = true.
Proof. apply Path_eqb_eq; reflexivity. Qed.

Lemma opt_Path_eqb_eq (a b : option Path) : opt_Path_eqb a b = true <-> a = b.
Proof.
  destruct a as [p|], b as [q|]; simpl; try (split; congruence).
  rewrite Path_eqb_eq; split; congruence.
Qed.

Lemma set_mem_In (x : option Path) (s : list (option Path)) :
  set_mem x s = true <-> In x s.
Proof.
  unfold set_mem; rewrite existsb_exists; split.
  - intros (y & Hy & E); apply opt_Path_eqb_eq in E; subst; assumption.
  - intros H; exists x; split; [assumption | apply opt_Path_eqb_eq; reflexivity].
Qed.

Lemma set_of_list_In (x : option Path) (l : list (option Path)) :
  In x (set_of_list l) <-> In x l.
Proof.
  induction l as [|y l IH]; simpl; [tauto|].
  rewrite filter_In, IH, negb_true_iff.
  destruct (opt_Path_eqb y x) eqn:E.
  - apply opt_Path_eqb_eq in E; subst; intuition congruence.
  - assert (y <> x) by (intros ->; rewrite (proj2 (opt_Path_eqb_eq x x) eq_refl) in E; discriminate).
    intuition congruence.
Qed.

Lemma set_of_list_NoDup (l : list (option Path)) : NoDup (set_of_list l).
Proof.
  induction l as [|y l IH]; simpl; [constructor|].
  constructor.
  - rewrite filter_In, negb_true_iff.
    intros [_ E]; rewrite (proj2 (opt_Path_eqb_eq y y) eq_refl) in E; discriminate.
  - apply NoDup_filter; assumption.
Qed.

(** ** Strings *)

Lemma append_nil_r (s : string) : (s ++ "")%string = s.
Proof. induction s; simpl; congruence. Qed.

Lemma append_assoc (a b c : string) :
  ((a ++ b) ++ c)%string = (a ++ (b ++ c))%string.
Proof. induction a; simpl; congruence. Qed.

Lemma contains_append (c : ascii) (a b : string) :
  PyStr.contains c (a ++ b) = PyStr.contains c a || PyStr.contains c b.
Proof.
  induction a as [|x a IH]; simpl; [reflexivity|].
  rewrite IH, orb_assoc; reflexivity.
Qed.

Lemma split_not_nil (c : ascii) (s : string) : PyStr.split c s <> [].
Proof.
  induction s as [|a s IH]; simpl; [discriminate|].
  destruct (Ascii.eqb a c); [discriminate|].
  destruct (PyStr.split c s); discriminate.
Qed.

(** The first field of [s.split(c)] is the text of [s] before its first
    [c]. *)
Lemma split_hd_spec (c : ascii) (s : string) :
  exists rest,
    s = (hd "" (PyStr.split c s) ++ rest)%string /\
    PyStr.contains c (hd "" (PyStr.split c s)) = false /\
    (rest = "" \/ exists r, rest = String c r).
Proof.
  induction s as [|a s (rest & E & Hn & Hr)]; simpl.
  - exists ""; auto.
  - destruct (Ascii.eqb a c) eqn:Ea.
    + apply Ascii.eqb_eq in Ea; subst a.
      exists (String c s); simpl; eauto.
    + pose proof (split_not_nil c s) as Hne.
      destruct (PyStr.split c s) as [|h t]; [congruence|]; simpl in *.
      exists rest; rewrite Ea, Hn; simpl; split; [congruence | auto].
Qed.

Lemma split_hd_no_sep (c : ascii) (s : string) :
  PyStr.contains c s = false -> hd "" (PyStr.split c s) = s.
Proof.
  induction s as [|a s IH]; simpl; [reflexivity|].
  rewrite orb_false_iff; intros [Ea Hs]; rewrite Ea.
  specialize (IH Hs).
  pose proof (split_not_nil c s) as Hne.
  destruct (PyStr.split c s) as [|h t]; [congruence|]; simpl in *; congruence.
Qed.

(** Splitting on [c] yields fields without [c], and introduces no
    other character. *)
Lemma split_fields (c d : ascii) (s x : string) :
  In x (PyStr.split c s) ->
  PyStr.contains c x = false /\
  (PyStr.contains d s = false -> PyStr.contains d x = false).
Proof.
  revert x; induction s as [|a s IH]; simpl; intros x Hx.
  - destruct Hx as [<-|[]]; auto.
  - destruct (Ascii.eqb a c) eqn:Ea.
    + destruct Hx as [<-|Hx]; [simpl; auto|].
      destruct (IH x Hx) as [H1 H2]; split; [assumption|].
      rewrite orb_false_iff; intros [_ H]; auto.
    + pose proof (split_not_nil c s) as Hne.
      destruct (PyStr.split c s) as [|h t]; [congruence|].
      destruct Hx as [<-|Hx].
      * destruct (IH h (or_introl eq_refl)) as [H1 H2]; simpl.
        rewrite Ea, H1; split; [reflexivity|].
        rewrite !orb_false_iff; intros [Hd H]; auto.
      * destruct (IH x (or_intror Hx)) as [H1 H2]; split; [assumption|].
        rewrite orb_false_iff; intros [_ H]; auto.
Qed.

(** ** Paths *)

Lemma norm_stack_app (st a b : list string) :
  OsPath.norm_stack st (a ++ b) = OsPath.norm_stack (OsPath.norm_stack st a) b.
Proof. unfold OsPath.norm_stack; apply fold_left_app. Qed.

Lemma norm_stack_cons (st : list string) (c : string) (l : list string) :
  OsPath.norm_stack st (c :: l) = OsPath.norm_stack (OsPath.norm_step st c) l.
Proof. reflexivity. Qed.

Lemma In_tl {A} (x : A) (l : list A) : In x (tl l) -> In x l.
Proof. destruct l; simpl; auto. Qed.

(** What is left on the stack was on it before or is a pushed
    component, and [..] is never pushed. *)
Lemma norm_stack_In (comps st : list string) (x : string) :
  In x (OsPath.norm_stack st comps) ->
  In x st \/ (In x comps /\ x <> "..").
Proof.
  revert st; induction comps as [|c comps IH]; intros st H; [left; exact H|].
  rewrite norm_stack_cons in H.
  apply IH in H as [H|H]; [|simpl; tauto].
  unfold OsPath.norm_step in H.
  destruct (String.eqb_spec c "..") as [->|Hc].
  - left; apply In_tl; assumption.
  - destruct H as [<-|H]; simpl; auto.
Qed.

Lemma normalise_In (comps : list string) (x : string) :
  In x (OsPath.normalise comps) -> In x comps /\ x <> "..".
Proof.
  unfold OsPath.normalise; rewrite <- in_rev; intros H.
  apply norm_stack_In in H as [[]|H]; assumption.
Qed.

(** Without [..] the stack only grows. *)
Lemma norm_stack_push (comps st : list string) :
  ~ In ".." comps -> OsPath.norm_stack st comps = (rev comps ++ st)%list.
Proof.
  revert st; induction comps as [|c comps IH]; intros st H; [reflexivity|].
  rewrite norm_stack_cons. simpl in H.
  unfold OsPath.norm_step.
  destruct (String.eqb_spec c "..") as [->|Hc]; [tauto|].
  rewrite IH by tauto. simpl. rewrite <- app_assoc; reflexivity.
Qed.

Lemma normalise_fixed (comps : list string) :
  ~ In ".." comps -> OsPath.normalise comps = comps.
Proof.
  intros H; unfold OsPath.normalise; rewrite norm_stack_push by assumption.
  rewrite app_nil_r; apply rev_involutive.
Qed.

Lemma normalise_no_dotdot (comps : list string) :
  ~ In ".." (OsPath.normalise comps).
Proof. intros H; apply normalise_In in H; tauto. Qed.

Lemma normalise_idem (comps : list string) :
  OsPath.normalise (OsPath.normalise comps) = OsPath.normalise comps.
Proof. apply normalise_fixed, normalise_no_dotdot. Qed.

(** Normalisation distributes over a normalised prefix. *)
Lemma normalise_app (a b : list string) :
  OsPath.normalise (OsPath.normalise a ++ b) = OsPath.normalise (a ++ b).
Proof.
  unfold OsPath.normalise at 1 3; f_equal.
  rewrite !norm_stack_app; f_equal.
  unfold OsPath.normalise.
  rewrite norm_stack_push.
  - rewrite rev_involutive, app_nil_r; reflexivity.
  - rewrite <- in_rev. intros H; apply norm_stack_In in H as [[]|H]; tauto.
Qed.

(** Components produced by parsing a string. *)
Lemma of_string_parts (s x : string) :
  In x (parts (Pathlib.of_string s)) ->
  x <> "" /\ x <> "." /\ PyStr.contains "/" x = false /\
  forall d, PyStr.contains d s = false -> PyStr.contains d x = false.
Proof.
  unfold Pathlib.of_string; simpl; rewrite filter_In.
  unfold Pathlib.keep_component; rewrite andb_true_iff, !negb_true_iff.
  intros (Hin & H1 & H2).
  apply String.eqb_neq in H1, H2.
  repeat split; try assumption.
  - exact (proj1 (split_fields "/" "/" s x Hin)).
  - intros d; exact (proj2 (split_fields "/" d s x Hin)).
Qed.

Section PathFacts.
Variable cwd : list string.

(** A resolved path is a fixed point of [resolve]. *)
Lemma resolve_idem (p : Path) : resolve cwd (resolve cwd p) = resolve cwd p.
Proof.
  unfold resolve at 1; unfold absolute_parts; simpl.
  rewrite normalise_idem; reflexivity.
Qed.

(** Joining a relative string to a resolved path and resolving. *)
Lemma resolve_join_relative (p : Path) (s : string) :
  root (Pathlib.of_string s) = Relative ->
  resolve cwd (Pathlib.joinpath (resolve cwd p) s)
  = {| root := Slash;
       parts := OsPath.normalise
                  (absolute_parts cwd p ++ parts (Pathlib.of_string s)) |}.
Proof.
  intros Hr; unfold Pathlib.joinpath; rewrite Hr.
  unfold resolve at 1; unfold absolute_parts at 1; simpl.
  rewrite normalise_app; reflexivity.
Qed.
End PathFacts.

Lemma splitroot_relative (c : ascii) (s : string) :
  Ascii.eqb c "/" = false -> Pathlib.splitroot (String c s) = Relative.
Proof.
  intros H; unfold Pathlib.splitroot.
  destruct c as [[] [] [] [] [] [] [] []]; try reflexivity; discriminate.
Qed.

(** ** Link resolution *)

Section LinkResolution.
Variable cwd : list string.

Lemma is_target_of_hd (s : string) :
  is_target_of (hd "" (PyStr.split "#" s)) s.
Proof. apply split_hd_spec. Qed.

Lemma is_target_of_unique (t1 t2 s : string) :
  is_target_of t1 s -> is_target_of t2 s -> t1 = t2.
Proof.
  intros (r1 & E1 & N1 & R1) (r2 & E2 & N2 & R2); subst s.
  revert t2 E2 N2; induction t1 as [|a t1 IH]; intros [|b t2] E2 N2;
    simpl in *.
  - reflexivity.
  - rewrite orb_false_iff in N2; destruct N2 as [Nb _].
    destruct R1 as [->|(r & ->)]; [discriminate|].
    inversion E2; subst b; rewrite Ascii.eqb_refl in Nb; discriminate.
  - rewrite orb_false_iff in N1; destruct N1 as [Na _].
    destruct R2 as [->|(r & ->)]; [discriminate|].
    inversion E2; subst a; rewrite Ascii.eqb_refl in Na; discriminate.
  - rewrite orb_false_iff in N1, N2.
    inversion E2; subst b; f_equal; apply IH; tauto.
Qed.

Lemma target_relative (c : ascii) (s t : string) :
  c <> "/"%char -> is_target_of t (String c s) ->
  root (Pathlib.of_string t) = Relative.
Proof.
  intros Hc (rest & E & _ & _).
  destruct t as [|a t]; [reflexivity|].
  simpl in E; inversion E; subst a.
  apply splitroot_relative, Ascii.eqb_neq; assumption.
Qed.

(** A relative link resolves below the document's directory. *)
Lemma get_absolute_path_relative (self : MarkdownFile) (c : ascii) (s : string) :
  c <> "/"%char ->
  get_absolute_path cwd self (Some (String c s))
  = Some {| root := Slash;
            parts := OsPath.normalise
                       (absolute_parts cwd (Pathlib.parent (path self))
                          ++ parts (Pathlib.of_string
                                      (hd "" (PyStr.split "#" (String c s))))) |}.
Proof.
  intros Hc; unfold get_absolute_path.
  rewrite (proj2 (Ascii.eqb_neq c "/") Hc).
  rewrite resolve_join_relative; [reflexivity|].
  eapply target_relative; [exact Hc | apply is_target_of_hd].
Qed.

End LinkResolution.

Lemma In_removelast {A} (x : A) (l : list A) : In x (removelast l) -> In x l.
Proof.
  induction l as [|a l IH]; [intros []|].
  destruct l as [|b l]; [intros []|].
  change (removelast (a :: b :: l)) with (a :: removelast (b :: l)).
  intros [->|H]; [left; reflexivity | right; apply IH; exact H].
Qed.

Lemma absolute_parts_parent_In (cwd : list string) (p : Path) (x : string) :
  In x (absolute_parts cwd (Pathlib.parent p)) -> In x (cwd ++ parts p).
Proof.
  unfold absolute_parts, Pathlib.parent; simpl.
  destruct (root p); [rewrite !in_app_iff; intros [H|H] | intros H | intros H];
    try (apply in_or_app); auto using In_removelast.
Qed.

(** Every outbound link is the resolution of some anchor of the text,
    and passes the extension test. *)
Lemma links_of_content_In (cwd : list string)
      (a_hrefs : string -> list (option string))
      (self : MarkdownFile) (content : string) (e : option Path) :
  In e (links_of_content cwd a_hrefs self content) <->
  (exists h, In h (a_hrefs content) /\ e = get_absolute_path cwd self h) /\
  is_md_link e = true.
Proof.
  unfold links_of_content.
  rewrite set_of_list_In, filter_In, in_map_iff.
  split; intros [(h & H1 & H2) H3]; (split; [exists h; split|]); auto.
Qed.

(** The text [None] has no extension: an anchor without usable target
    contributes nothing. *)
Lemma links_of_content_not_None (cwd : list string)
      (a_hrefs : string -> list (option string))
      (self : MarkdownFile) (content : string) :
  ~ In None (links_of_content cwd a_hrefs self content).
Proof.
  rewrite links_of_content_In; intros [_ H]; discriminate.
Qed.

(** C4, as the program has it.  Every outbound link comes from an
    anchor of the text.  When the anchor's target starts with [/] the
    link is that target unchanged (its fragment included).  Otherwise
    the fragment is removed before resolution: the link is the target
    without its fragment, resolved against the document's directory,
    and any [#] in it belongs to a component of the document's own
    location. *)
Theorem outbound_link_fragment (cwd : list string)
        (a_hrefs : string -> list (option string))
        (self : MarkdownFile) (content : string) (p : Path) :
  In (Some p) (links_of_content cwd a_hrefs self content) ->
  (exists s, In (Some (String "/" s)) (a_hrefs content) /\
             p = Pathlib.of_string (String "/" s)) \/
  (exists c s target,
      c <> "/"%char /\
      In (Some (String c s)) (a_hrefs content) /\
      is_target_of target (String c s) /\
      p = resolve cwd
            (Pathlib.joinpath (resolve cwd (Pathlib.parent (path self)))
                              target) /\
      forall x, In x (parts p) -> PyStr.contains "#" x = true ->
                In x (cwd ++ parts (path self))).
Proof.
  rewrite links_of_content_In; intros [(h & Hh & E) _].
  destruct h as [[|c s]|]; try discriminate.
  destruct (Ascii.eqb_spec c "/") as [->|Hc].
  - left; exists s; split; [assumption|].
    simpl in E; congruence.
  - right; exists c, s, (hd "" (PyStr.split "#" (String c s))).
    pose proof (is_target_of_hd (String c s)) as Ht.
    pose proof (get_absolute_path_relative cwd self c s Hc) as E'.
    rewrite <- E in E'; injection E' as E'.
    repeat split; try assumption.
    + rewrite resolve_join_relative by (eapply target_relative; eassumption).
      assumption.
    + intros x Hx Hhash; subst p; simpl in Hx.
      apply normalise_In in Hx as [Hx _].
      apply in_app_or in Hx as [Hx|Hx].
      * apply absolute_parts_parent_In; assumption.
      * apply of_string_parts in Hx as (_ & _ & _ & Hd).
        destruct Ht as (rest & _ & Hn & _).
        rewrite (Hd "#"%char Hn) in Hhash; discriminate.
Qed.

(** The theorem at the text [[b](b.md#intro)] of [/w/docs/a.md]: the
    link is [/w/docs/b.md], without fragment. *)
Lemma outbound_link_fragment_witness :
  links_of_content Sample.cwd Sample.a_hrefs Docs.alpha "[b](b.md#intro)"
  = [Some Docs.b_md] /\
  has_hash Docs.b_md = false.
Proof.
  split; [|reflexivity].
  assert (H : In (Some Docs.b_md)
                 (links_of_content Sample.cwd Sample.a_hrefs Docs.alpha
                                   "[b](b.md#intro)"))
    by (vm_compute; left; reflexivity).
  destruct (outbound_link_fragment _ _ _ _ _ H) as [_|_]; reflexivity.
Defined.

(** C4 as stated fails on a target that starts with [/]: the text
    [[b](/w/docs/b.md#intro)] gives the outbound link
    [/w/docs/b.md#intro], fragment included. *)
Lemma absolute_target_keeps_fragment :
  get_absolute_path Sample.cwd Docs.alpha (Some "/w/docs/b.md#intro")
  = Some (mkPath Slash ["w"; "docs"; "b.md#intro"]) /\
  links_of_content Sample.cwd Sample.a_hrefs Docs.alpha
                   "[b](/w/docs/b.md#intro)"
  = [Some (mkPath Slash ["w"; "docs"; "b.md#intro"])] /\
  has_hash (mkPath Slash ["w"; "docs"; "b.md#intro"]) = true.
Proof. repeat split. Qed.

(** ** The extension filter *)

Lemma rfind_None (c : ascii) (s : string) :
  PyStr.rfind c s = None <-> PyStr.contains c s = false.
Proof.
  induction s as [|a s IH]; simpl; [tauto|].
  destruct (PyStr.rfind c s) as [i|].
  - destruct (PyStr.contains c s).
    + rewrite orb_true_r; split; discriminate.
    + destruct IH as [_ IH]; specialize (IH eq_refl); discriminate.
  - rewrite (proj1 IH eq_refl), orb_false_r.
    destruct (Ascii.eqb a c); split; congruence.
Qed.

Lemma rfind_lt (c : ascii) (s : string) (i : nat) :
  PyStr.rfind c s = Some i -> i < String.length s.
Proof.
  revert i; induction s as [|a s IH]; simpl; intros i; [discriminate|].
  destruct (PyStr.rfind c s) as [j|].
  - intros [= <-]; specialize (IH j eq_refl); lia.
  - destruct (Ascii.eqb a c); [intros [= <-]; lia | discriminate].
Qed.

Lemma rfind_append (c : ascii) (a b : string) :
  PyStr.rfind c (a ++ b)
  = match PyStr.rfind c b with
    | Some i => Some (String.length a + i)
    | None => PyStr.rfind c a
    end.
Proof.
  induction a as [|x a IH]; simpl.
  - destruct (PyStr.rfind c b); reflexivity.
  - rewrite IH; destruct (PyStr.rfind c b); reflexivity.
Qed.

Lemma drop_append (a b : string) (i : nat) :
  PyStr.drop (String.length a + i) (a ++ b) = PyStr.drop i b.
Proof. induction a; simpl; auto. Qed.

Lemma drop_0 (s : string) : PyStr.drop 0 s = s.
Proof. destruct s; reflexivity. Qed.

(** The extension of a path text is that of its last component. *)
Lemma splitext_ext_basename (z y : string) :
  PyStr.contains "/" y = false ->
  OsPath.splitext_ext (z ++ String "/" y) = OsPath.splitext_ext y.
Proof.
  intros Hy. pose proof (proj2 (rfind_None "/" y) Hy) as Hr.
  assert (Hsl : PyStr.rfind "/" (z ++ String "/" y) = Some (String.length z + 0)).
  { rewrite rfind_append.
    change (PyStr.rfind "/" (String "/" y))
      with (match PyStr.rfind "/" y with
            | Some i => Some (S i)
            | None => Some 0
            end).
    rewrite Hr; reflexivity. }
  assert (Hdot : PyStr.rfind "." (z ++ String "/" y)
                 = match PyStr.rfind "." y with
                   | Some j => Some (String.length z + S j)
                   | None => PyStr.rfind "." z
                   end).
  { rewrite rfind_append.
    change (PyStr.rfind "." (String "/" y))
      with (match PyStr.rfind "." y with
            | Some i => Some (S i)
            | None => None
            end).
    destruct (PyStr.rfind "." y); reflexivity. }
  unfold OsPath.splitext_ext.
  rewrite Hsl, Hdot, Hr.
  destruct (PyStr.rfind "." y) as [j|] eqn:Hj.
  - replace (Nat.leb (S (String.length z + 0)) (String.length z + S j))
      with true by (symmetry; apply Nat.leb_le; lia).
    replace (String.length z + S j - S (String.length z + 0)) with j by lia.
    replace (S (String.length z + 0)) with (String.length z + 1) by lia.
    rewrite Nat.sub_0_r, !drop_append, drop_0.
    reflexivity.
  - destruct (PyStr.rfind "." z) as [i|] eqn:Hi; [|reflexivity].
    apply rfind_lt in Hi.
    replace (Nat.leb (S (String.length z + 0)) i) with false; [reflexivity|].
    symmetry; apply Nat.leb_gt; lia.
Qed.

Lemma join_snoc (sep : string) (l : list string) (y : string) :
  l <> [] ->
  PyStr.join sep (l ++ [y]) = (PyStr.join sep l ++ sep ++ y)%string.
Proof.
  induction l as [|x l IH]; [congruence|intros _].
  destruct l as [|x' l]; [reflexivity|].
  change ((x :: x' :: l) ++ [y])%list with (x :: (x' :: l) ++ [y])%list.
  change (PyStr.join sep (x :: (x' :: l) ++ [y]))
    with (x ++ sep ++ PyStr.join sep ((x' :: l) ++ [y]))%string.
  rewrite IH by discriminate.
  change (PyStr.join sep (x :: x' :: l))
    with (x ++ sep ++ PyStr.join sep (x' :: l))%string.
  rewrite !append_assoc; reflexivity.
Qed.

(** The text of an absolute path ends with a slash and its last
    component. *)
Lemma str_snoc (l : list string) (y : string) :
  exists z, Pathlib.str (mkPath Slash (l ++ [y])) = (z ++ String "/" y)%string.
Proof.
  unfold Pathlib.str; simpl root; simpl parts.
  destruct l as [|x l].
  - exists ""; reflexivity.
  - exists ("/" ++ PyStr.join "/" (x :: l))%string.
    rewrite join_snoc by discriminate.
    rewrite append_assoc; reflexivity.
Qed.

Lemma contains_join (c : ascii) (sep : string) (l : list string) :
  PyStr.contains c sep = false ->
  (forall x, In x l -> PyStr.contains c x = false) ->
  PyStr.contains c (PyStr.join sep l) = false.
Proof.
  intros Hsep; induction l as [|x l IH]; intros H; [reflexivity|].
  destruct l as [|x' l]; [apply H; left; reflexivity|].
  change (PyStr.join sep (x :: x' :: l))
    with (x ++ sep ++ PyStr.join sep (x' :: l))%string.
  rewrite !contains_append, Hsep, (H x (or_introl eq_refl)), IH; [reflexivity|].
  intros y Hy; apply H; right; exact Hy.
Qed.

Lemma str_no_hash (l : list string) :
  (forall x, In x l -> PyStr.contains "#" x = false) ->
  PyStr.contains "#" (Pathlib.str (mkPath Slash l)) = false.
Proof.
  intros H; unfold Pathlib.str; simpl root; simpl parts.
  change ("/" ++ PyStr.join "/" l)%string with (String "/" (PyStr.join "/" l)).
  simpl; apply contains_join; [reflexivity | assumption].
Qed.

Lemma normalise_snoc (a b : list string) :
  ~ In ".." b ->
  OsPath.normalise (a ++ b) = (OsPath.normalise a ++ b)%list.
Proof.
  intros H; unfold OsPath.normalise.
  rewrite norm_stack_app, norm_stack_push by assumption.
  rewrite rev_app_distr, rev_involutive; reflexivity.
Qed.

(** The characters that fold to a given lower-case letter or to the
    dot. *)
Lemma lower_ascii_dot (c : ascii) :
  PyStr.lower_ascii c = "."%char -> c = "."%char.
Proof.
  destruct c as [[] [] [] [] [] [] [] []]; vm_compute; congruence.
Qed.

Lemma lower_ascii_m (c : ascii) :
  PyStr.lower_ascii c = "m"%char -> c = "m"%char \/ c = "M"%char.
Proof.
  destruct c as [[] [] [] [] [] [] [] []]; vm_compute; intros H;
    first [discriminate H | left; reflexivity | right; reflexivity].
Qed.

Lemma lower_ascii_d (c : ascii) :
  PyStr.lower_ascii c = "d"%char -> c = "d"%char \/ c = "D"%char.
Proof.
  destruct c as [[] [] [] [] [] [] [] []]; vm_compute; intros H;
    first [discriminate H | left; reflexivity | right; reflexivity].
Qed.

(** Case-insensitive comparison with [.md] accepts exactly its four
    spellings. *)
Lemma lower_md (ext : string) :
  PyStr.lower ext = ".md" <-> In ext [".md"; ".mD"; ".Md"; ".MD"].
Proof.
  split.
  - destruct ext as [|c1 [|c2 [|c3 [|c4 r]]]]; simpl; try discriminate.
    intros [= H1 H2 H3].
    apply lower_ascii_dot in H1; apply lower_ascii_m in H2;
      apply lower_ascii_d in H3; subst c1.
    destruct H2 as [-> | ->], H3 as [-> | ->]; tauto.
  - simpl; intros [<-|[<-|[<-|[<-|[]]]]]; reflexivity.
Qed.

Lemma is_md_link_Some (p : Path) :
  is_md_link (Some p) = true <->
  PyStr.lower (OsPath.splitext_ext (hd "" (PyStr.split "#" (Pathlib.str p))))
  = ".md".
Proof. unfold is_md_link, py_str; apply String.eqb_eq. Qed.

(** A relative target whose parsed form has no [..] is appended to the
    resolved directory. *)
Lemma get_absolute_path_append (cwd : list string) (self : MarkdownFile)
      (c : ascii) (s : string) :
  c <> "/"%char ->
  PyStr.contains "#" (String c s) = false ->
  ~ In ".." (parts (Pathlib.of_string (String c s))) ->
  get_absolute_path cwd self (Some (String c s))
  = Some (mkPath Slash
            (parts (resolve cwd (Pathlib.parent (path self)))
               ++ parts (Pathlib.of_string (String c s)))).
Proof.
  intros Hc Hh Hdd.
  rewrite get_absolute_path_relative by assumption.
  rewrite split_hd_no_sep by assumption.
  rewrite normalise_snoc by assumption.
  reflexivity.
Qed.

(** A link whose location has no [#] and whose last component [y] has
    another extension than [.md] fails the test of [links]. *)
Lemma is_md_link_last (l : list string) (y : string) :
  (forall x, In x (l ++ [y]) -> PyStr.contains "#" x = false) ->
  PyStr.contains "/" y = false ->
  PyStr.lower (OsPath.splitext_ext y) <> ".md" ->
  is_md_link (Some (mkPath Slash (l ++ [y]))) = false.
Proof.
  intros Hh Hs Hext.
  destruct (is_md_link (Some (mkPath Slash (l ++ [y])))) eqn:E; [|reflexivity].
  apply is_md_link_Some in E.
  rewrite split_hd_no_sep in E by (apply str_no_hash; assumption).
  destruct (str_snoc l y) as (z & Hz); rewrite Hz in E.
  rewrite splitext_ext_basename in E by assumption.
  contradiction.
Qed.

(** The text of a parsed path has no [#] when the string parsed has
    none. *)
Lemma str_of_string_no_hash (s : string) :
  PyStr.contains "#" s = false ->
  PyStr.contains "#" (Pathlib.str (Pathlib.of_string s)) = false.
Proof.
  intros Hs.
  assert (Hp : forall x, In x (parts (Pathlib.of_string s)) ->
                         PyStr.contains "#" x = false).
  { intros x Hx; apply of_string_parts in Hx as (_ & _ & _ & Hd).
    apply Hd; exact Hs. }
  assert (Hj : PyStr.contains "#" (PyStr.join "/" (parts (Pathlib.of_string s)))
               = false)
    by (apply contains_join; [reflexivity | exact Hp]).
  unfold Pathlib.str.
  destruct (root (Pathlib.of_string s)).
  - destruct (parts (Pathlib.of_string s)); [reflexivity | exact Hj].
  - rewrite contains_append, Hj; reflexivity.
  - rewrite contains_append, Hj; reflexivity.
Qed.

(** An outbound link holds a [#] only when it is a target that starts
    with [/] and holds one, or when the document's own location holds
    one. *)
Lemma links_hash_origin (cwd : list string)
      (a_hrefs : string -> list (option string))
      (self : MarkdownFile) (content : string) (p : Path) :
  (forall x, In x (cwd ++ parts (path self)) -> PyStr.contains "#" x = false) ->
  In (Some p) (links_of_content cwd a_hrefs self content) ->
  PyStr.contains "#" (Pathlib.str p) = false \/
  exists s, In (Some (String "/" s)) (a_hrefs content) /\
            p = Pathlib.of_string (String "/" s) /\
            PyStr.contains "#" s = true.
Proof.
  intros Hloc Hp; apply links_of_content_In in Hp as [(h & Hh & E) _].
  destruct h as [[|c s]|]; try discriminate.
  destruct (Ascii.eqb_spec c "/") as [->|Hc].
  - cbn [get_absolute_path] in E; rewrite Ascii.eqb_refl in E.
    injection E as ->.
    destruct (PyStr.contains "#" s) eqn:Hs; [right; eauto | left].
    apply str_of_string_no_hash; exact Hs.
  - left.
    rewrite (get_absolute_path_relative cwd self c s Hc) in E.
    injection E as ->; apply str_no_hash.
    intros x Hx; apply normalise_In in Hx as [Hx _].
    apply in_app_or in Hx as [Hx|Hx].
    + apply Hloc, absolute_parts_parent_In, Hx.
    + apply of_string_parts in Hx as (_ & _ & _ & Hd).
      destruct (is_target_of_hd (String c s)) as (rest & _ & Hn & _).
      apply Hd; exact Hn.
Qed.

(** C5, as the program has it, for a document whose location holds no
    [#].  Every outbound link is a path, and its extension is [.md] in
    one of its four spellings, unless the link is a target that starts
    with [/] and holds a [#].  A target of the text whose resolved path
    holds no [#] is an outbound link exactly when the extension of
    that path is [.md] in one of its four spellings: it is kept with
    the extension in any case, and left out with another extension or
    none.  The targets [image.png] and [http://example.com] are never
    outbound links. *)
Theorem outbound_links_extension (cwd : list string)
        (a_hrefs : string -> list (option string))
        (self : MarkdownFile) (content : string) :
  (forall x, In x (cwd ++ parts (path self)) -> PyStr.contains "#" x = false) ->
  (forall e, In e (links_of_content cwd a_hrefs self content) ->
     exists p,
       e = Some p /\
       ((PyStr.contains "#" (Pathlib.str p) = false /\
         In (OsPath.splitext_ext (Pathlib.str p)) md_extensions) \/
        (exists s, In (Some (String "/" s)) (a_hrefs content) /\
                   p = Pathlib.of_string (String "/" s) /\
                   PyStr.contains "#" s = true))) /\
  (forall h r,
     In h (a_hrefs content) ->
     get_absolute_path cwd self h = Some r ->
     PyStr.contains "#" (Pathlib.str r) = false ->
     (In (Some r) (links_of_content cwd a_hrefs self content) <->
      In (OsPath.splitext_ext (Pathlib.str r)) md_extensions)) /\
  (forall s, In s ["image.png"; "http://example.com"] ->
     ~ In (get_absolute_path cwd self (Some s))
          (links_of_content cwd a_hrefs self content)).
Proof.
  intros Hloc.
  assert (Hcut : forall p,
             PyStr.contains "#" (Pathlib.str p) = false ->
             (is_md_link (Some p) = true <->
              In (OsPath.splitext_ext (Pathlib.str p)) md_extensions)).
  { intros p Hh; rewrite is_md_link_Some, (split_hd_no_sep "#" _ Hh).
    apply lower_md. }
  split; [|split].
  - intros [p|] He; [|exfalso; revert He; apply links_of_content_not_None].
    exists p; split; [reflexivity|].
    destruct (links_hash_origin _ _ _ _ _ Hloc He) as [Hh|Hs];
      [left | right; exact Hs].
    split; [exact Hh|]. apply (Hcut p Hh).
    apply links_of_content_In in He as [_ He]; exact He.
  - intros h r Hh Hr Hno; rewrite <- (Hcut r Hno), links_of_content_In.
    split; [intros [_ H]; exact H|].
    intros H; split; [exists h; auto | exact H].
  - intros s Hs Hin.
    apply links_of_content_In in Hin as [_ Hmd].
    assert (Hdir : forall x,
               In x (parts (resolve cwd (Pathlib.parent (path self)))) ->
               PyStr.contains "#" x = false).
    { intros x Hx. apply normalise_In in Hx as [Hx _].
      apply Hloc, absolute_parts_parent_In, Hx. }
    destruct Hs as [<-|[<-|[]]].
    + rewrite get_absolute_path_append in Hmd;
        [| discriminate | reflexivity | vm_compute; intuition discriminate].
      change (parts (Pathlib.of_string "image.png")) with ["image.png"] in Hmd.
      rewrite is_md_link_last in Hmd; [discriminate | | reflexivity | discriminate].
      intros x Hx; apply in_app_or in Hx as [Hx|[<-|[]]]; [auto | reflexivity].
    + rewrite get_absolute_path_append in Hmd;
        [| discriminate | reflexivity | vm_compute; intuition discriminate].
      change (parts (Pathlib.of_string "http://example.com"))
        with (["http:"] ++ ["example.com"])%list in Hmd.
      rewrite app_assoc in Hmd.
      rewrite is_md_link_last in Hmd; [discriminate | | reflexivity | discriminate].
      intros x Hx; apply in_app_or in Hx as [Hx|[<-|[]]]; [|reflexivity].
      apply in_app_or in Hx as [Hx|[<-|[]]]; [auto | reflexivity].
Qed.

(** The theorem at [/w/docs/a.md] with the text
    [[pic](image.png) [b](B.MD) [c](c.Md#top)]: the targets [B.MD] and
    [c.Md#top] are kept, as [/w/docs/B.MD] and [/w/docs/c.Md], and
    [image.png] is left out. *)
Lemma outbound_links_extension_witness :
  In (Some (mkPath Slash ["w"; "docs"; "B.MD"]))
     (links_of_content Sample.cwd Sample.a_hrefs Docs.alpha
                       "[pic](image.png) [b](B.MD) [c](c.Md#top)") /\
  In (Some (mkPath Slash ["w"; "docs"; "c.Md"]))
     (links_of_content Sample.cwd Sample.a_hrefs Docs.alpha
                       "[pic](image.png) [b](B.MD) [c](c.Md#top)") /\
  ~ In (Some (mkPath Slash ["w"; "docs"; "image.png"]))
       (links_of_content Sample.cwd Sample.a_hrefs Docs.alpha
                         "[pic](image.png) [b](B.MD) [c](c.Md#top)") /\
  ~ In (get_absolute_path Sample.cwd Docs.alpha (Some "http://example.com"))
       (links_of_content Sample.cwd Sample.a_hrefs Docs.alpha
                         "[pic](image.png) [b](B.MD) [c](c.Md#top)") /\
  links_of_content Sample.cwd Sample.a_hrefs Docs.alpha
                   "[pic](image.png) [b](B.MD) [c](c.Md#top)"
  = [Some (mkPath Slash ["w"; "docs"; "B.MD"]);
     Some (mkPath Slash ["w"; "docs"; "c.Md"])].
Proof.
  assert (Hloc : forall x, In x (Sample.cwd ++ parts (path Docs.alpha)) ->
                           PyStr.contains "#" x = false).
  { intros x Hx; vm_compute in Hx.
    destruct Hx as [<-|[<-|[<-|[<-|[]]]]]; reflexivity. }
  pose proof (outbound_links_extension Sample.cwd Sample.a_hrefs Docs.alpha
                "[pic](image.png) [b](B.MD) [c](c.Md#top)" Hloc)
    as (_ & H2 & H3).
  split; [|split; [|split; [|split]]].
  - apply (H2 (Some "B.MD"));
      [vm_compute; tauto | reflexivity | reflexivity | vm_compute; tauto].
  - apply (H2 (Some "c.Md#top"));
      [vm_compute; tauto | reflexivity | reflexivity | vm_compute; tauto].
  - intros Hin.
    apply (H2 (Some "image.png")) in Hin;
      [| vm_compute; tauto | reflexivity | reflexivity].
    vm_compute in Hin; intuition discriminate.
  - apply H3; right; left; reflexivity.
  - reflexivity.
Defined.

(** C5 as stated fails on a target that starts with [/]: it is kept
    with its fragment, so the text [[b](/w/docs/b.md#intro)] of a
    document whose location holds no [#] gives the outbound link
    [/w/docs/b.md#intro], whose extension [.md#intro] is not [.md] in
    any case. *)
Lemma absolute_target_extension :
  existsb (PyStr.contains "#") (Sample.cwd ++ parts (path Docs.alpha)) = false /\
  links_of_content Sample.cwd Sample.a_hrefs Docs.alpha
                   "[b](/w/docs/b.md#intro)"
  = [Some (mkPath Slash ["w"; "docs"; "b.md#intro"])] /\
  OsPath.splitext_ext
    (Pathlib.str (mkPath Slash ["w"; "docs"; "b.md#intro"])) = ".md#intro" /\
  PyStr.lower ".md#intro" <> ".md".
Proof. repeat split; discriminate. Qed.

(** ** Files, dictionaries and fallible maps *)

Lemma parts_eqb_refl (f : list string) : parts_eqb f f = true.
Proof. apply parts_eqb_eq; reflexivity. Qed.

Lemma parts_eqb_neq (f g : list string) : f <> g -> parts_eqb f g = false.
Proof.
  intros H; destruct (parts_eqb f g) eqn:E; [|reflexivity].
  apply parts_eqb_eq in E; contradiction.
Qed.

Lemma lookup_update_same (fs : FileSystem) (f : list string)
      (g : string -> string) :
  lookup (update fs f g) f
  = match lookup fs f with
    | Some (File bytes) => Some (File (g bytes))
    | other => other
    end.
Proof.
  induction fs as [|[h n] fs IH]; simpl; [reflexivity|].
  destruct (parts_eqb h f) eqn:E; simpl; rewrite E; [|exact IH].
  destruct n; reflexivity.
Qed.

Lemma lookup_update_other (fs : FileSystem) (f f' : list string)
      (g : string -> string) :
  f <> f' -> lookup (update fs f g) f' = lookup fs f'.
Proof.
  intros Hff; induction fs as [|[h n] fs IH]; simpl; [reflexivity|].
  destruct (parts_eqb h f) eqn:E; simpl.
  - apply parts_eqb_eq in E; subst h.
    rewrite (parts_eqb_neq _ _ Hff); reflexivity.
  - destruct (parts_eqb h f'); [reflexivity | exact IH].
Qed.

(** Writing changes no name and turns no file into a directory. *)
Lemma shape_update (fs : FileSystem) (f : list string) (g : string -> string) :
  shape (update fs f g) = shape fs.
Proof.
  unfold shape; induction fs as [|[h n] fs IH]; simpl; [reflexivity|].
  destruct (parts_eqb h f); simpl; [destruct n; reflexivity|].
  rewrite IH; reflexivity.
Qed.

Lemma shape_names (fs fs' : FileSystem) :
  shape fs = shape fs' -> map fst fs = map fst fs'.
Proof.
  unfold shape; intros H.
  apply (f_equal (map fst)) in H; rewrite !map_map in H; exact H.
Qed.

Lemma through_file_shape (fs fs' : FileSystem) (f : list string) :
  shape fs = shape fs' -> through_file fs f = through_file fs' f.
Proof.
  unfold shape, through_file; revert fs'.
  induction fs as [|[h n] fs IH]; intros [|[h' n'] fs']; simpl;
    try discriminate; [reflexivity|].
  intros [= -> Hk H]; rewrite (IH fs' H).
  destruct n, n'; try discriminate Hk; reflexivity.
Qed.

Lemma has_entries_below_shape (fs fs' : FileSystem) (d : list string) :
  shape fs = shape fs' -> has_entries_below fs d = has_entries_below fs' d.
Proof.
  unfold shape, has_entries_below; revert fs'.
  induction fs as [|[h n] fs IH]; intros [|[h' n'] fs']; simpl;
    try discriminate; [reflexivity|].
  intros [= -> Hk H]; rewrite (IH fs' H); reflexivity.
Qed.

Lemma lookup_shape (fs fs' : FileSystem) (f : list string) :
  shape fs = shape fs' ->
  option_map kind (lookup fs f) = option_map kind (lookup fs' f).
Proof.
  unfold shape; revert fs'.
  induction fs as [|[h n] fs IH]; intros [|[h' n'] fs']; simpl;
    try discriminate; [reflexivity|].
  intros [= -> Hk H].
  destruct (parts_eqb h' f); [simpl; rewrite Hk; reflexivity | apply IH, H].
Qed.

(** What [open] answers for a name depends on the shape alone, up to
    the bytes of a regular file. *)
Lemma open_read_Ok (fs : FileSystem) (f : list string) (bytes : string) :
  open_read fs f = Ok bytes <->
  through_file fs f = false /\ lookup fs f = Some (File bytes).
Proof.
  unfold open_read; destruct (through_file fs f).
  - split; [discriminate | intros [H _]; discriminate H].
  - destruct (lookup fs f) as [[b|]|].
    + split; [intros [= ->]; auto | intros [_ [= ->]]; reflexivity].
    + split; [discriminate | intros [_ H]; discriminate H].
    + destruct (has_entries_below fs f);
        (split; [discriminate | intros [_ H]; discriminate H]).
Qed.

Lemma open_read_is_file (fs fs' : FileSystem) (f : list string) :
  shape fs = shape fs' ->
  (exists bytes, open_read fs f = Ok bytes) ->
  exists bytes, open_read fs' f = Ok bytes.
Proof.
  intros Hs [b Hb]; apply open_read_Ok in Hb as [Ht Hl].
  pose proof (lookup_shape fs fs' f Hs) as Hk; rewrite Hl in Hk; simpl in Hk.
  destruct (lookup fs' f) as [[b'|]|] eqn:El; try discriminate Hk.
  exists b'; apply open_read_Ok; split; [|exact El].
  rewrite <- (through_file_shape fs fs' f Hs); exact Ht.
Qed.

Lemma open_read_raise_shape (fs fs' : FileSystem) (f : list string) (e : exn) :
  shape fs = shape fs' ->
  open_read fs f = Raise e -> open_read fs' f = Raise e.
Proof.
  intros Hs; unfold open_read.
  rewrite <- (through_file_shape fs fs' f Hs),
          <- (has_entries_below_shape fs fs' f Hs).
  pose proof (lookup_shape fs fs' f Hs) as Hk.
  destruct (through_file fs f); [auto|].
  destruct (lookup fs f) as [[b|]|], (lookup fs' f) as [[b'|]|];
    try discriminate Hk; auto; discriminate.
Qed.

Lemma open_read_update_same (fs : FileSystem) (f : list string)
      (g : string -> string) (bytes : string) :
  open_read fs f = Ok bytes -> open_read (update fs f g) f = Ok (g bytes).
Proof.
  intros H; apply open_read_Ok in H as [Ht Hl]; apply open_read_Ok; split.
  - rewrite (through_file_shape _ fs f (shape_update fs f g)); exact Ht.
  - rewrite lookup_update_same, Hl; reflexivity.
Qed.

Lemma open_read_update_other (fs : FileSystem) (f f' : list string)
      (g : string -> string) :
  f <> f' -> open_read (update fs f g) f' = open_read fs f'.
Proof.
  intros Hff; unfold open_read.
  rewrite (through_file_shape _ fs f' (shape_update fs f g)),
          (has_entries_below_shape _ fs f' (shape_update fs f g)),
          (lookup_update_other fs f f' g Hff).
  reflexivity.
Qed.

Lemma update_update (fs : FileSystem) (f : list string)
      (g h : string -> string) :
  update (update fs f g) f h = update fs f (fun bytes => h (g bytes)).
Proof.
  induction fs as [|[x n] fs IH]; simpl; [reflexivity|].
  destruct (parts_eqb x f) eqn:E; simpl; rewrite E;
    [destruct n; reflexivity | rewrite IH; reflexivity].
Qed.

Lemma update_ext (fs : FileSystem) (f : list string) (g h : string -> string) :
  (forall bytes, lookup fs f = Some (File bytes) -> g bytes = h bytes) ->
  update fs f g = update fs f h.
Proof.
  induction fs as [|[x n] fs IH]; simpl; [reflexivity|]; intros H.
  destruct (parts_eqb x f) eqn:E.
  - destruct n as [b|]; [rewrite (H b eq_refl)|]; reflexivity.
  - rewrite IH; [reflexivity | exact H].
Qed.

Lemma update_unchanged (fs : FileSystem) (f : list string)
      (g : string -> string) :
  (forall bytes, lookup fs f = Some (File bytes) -> g bytes = bytes) ->
  update fs f g = fs.
Proof.
  induction fs as [|[x n] fs IH]; simpl; [reflexivity|]; intros H.
  destruct (parts_eqb x f) eqn:E.
  - destruct n as [b|]; [rewrite (H b eq_refl)|]; reflexivity.
  - rewrite IH; [reflexivity | exact H].
Qed.

(** ** The iteration of a set *)

Lemma insert_by_perm (slot : Path -> nat) (x : Path) (l : list Path) :
  Permutation (insert_by slot x l) (x :: l).
Proof.
  induction l as [|y l IH]; simpl; [apply Permutation_refl|].
  destruct (Nat.leb (slot x) (slot y)); [apply Permutation_refl|].
  apply (Permutation_trans (perm_skip y IH)), perm_swap.
Qed.

(** A set is iterated over its elements, each once. *)
Lemma set_iter_perm (slot : Path -> nat) (l : list Path) :
  Permutation (set_iter slot l) l.
Proof.
  induction l as [|x l IH]; simpl; [constructor|].
  apply (Permutation_trans (insert_by_perm slot x _)), perm_skip, IH.
Qed.

Lemma set_iter_In (slot : Path -> nat) (l : list Path) (x : Path) :
  In x (set_iter slot l) <-> In x l.
Proof.
  split; apply Permutation_in;
    [apply set_iter_perm | apply Permutation_sym, set_iter_perm].
Qed.

Lemma set_iter_NoDup (slot : Path -> nat) (l : list Path) :
  NoDup l -> NoDup (set_iter slot l).
Proof.
  apply Permutation_NoDup, Permutation_sym, set_iter_perm.
Qed.

Lemma dict_get_In {V} (d : list (Path * V)) (k : Path) (v : V) :
  dict_get d k = Ok v -> In (k, v) d.
Proof.
  induction d as [|[k' v'] d IH]; simpl; [discriminate|].
  destruct (Path_eqb k' k) eqn:E.
  - apply Path_eqb_eq in E; subst; intros [= ->]; left; reflexivity.
  - intros H; right; apply IH; exact H.
Qed.

Lemma dict_get_key {V} (d : list (Path * V)) (k : Path) :
  In k (dict_keys d) -> exists v, dict_get d k = Ok v.
Proof.
  unfold dict_keys; induction d as [|[k' v'] d IH]; simpl; [tauto|].
  intros [->|H].
  - rewrite Path_eqb_refl; eauto.
  - destruct (Path_eqb k' k); eauto.
Qed.

Lemma mapM_Ok {A B} (f : A -> result B) (l : list A) (ys : list B) :
  mapM f l = Ok ys <-> Forall2 (fun x y => f x = Ok y) l ys.
Proof.
  revert ys; induction l as [|x l IH]; simpl; intros ys.
  - split; [intros [= <-]; constructor | intros H; inversion H; reflexivity].
  - destruct (f x) as [y|e] eqn:Ex; simpl.
    + destruct (mapM f l) as [ys'|e] eqn:El; simpl.
      * split.
        -- intros [= <-]; constructor; [assumption | apply IH; reflexivity].
        -- intros H; inversion H; subst.
           assert (y0 = y) by congruence; subst.
           f_equal; f_equal.
           match goal with
           | H : Forall2 _ l _ |- _ => apply IH in H; congruence
           end.
      * split; [discriminate|].
        intros H; inversion H; subst.
        match goal with
        | H : Forall2 _ l _ |- _ => apply IH in H; discriminate
        end.
    + split; [discriminate | intros H; inversion H; congruence].
Qed.

Lemma mapM_raise {A B} (f : A -> result B) (l : list A) (e : exn) :
  mapM f l = Raise e -> exists x, In x l /\ f x = Raise e.
Proof.
  induction l as [|x l IH]; simpl; [discriminate|].
  destruct (f x) as [y|e'] eqn:Ex; simpl.
  - destruct (mapM f l) as [ys|e'] eqn:El; simpl; [discriminate|].
    intros [= ->]; destruct (IH eq_refl) as (x' & H1 & H2); eauto.
  - intros [= ->]; eauto.
Qed.

Lemma mapM_total {A B} (f : A -> result B) (l : list A) :
  (forall x, In x l -> exists y, f x = Ok y) -> exists ys, mapM f l = Ok ys.
Proof.
  intros H; destruct (mapM f l) as [ys|e] eqn:E; [eauto|].
  apply mapM_raise in E as (x & Hx & Ex).
  destruct (H x Hx) as [y Hy]; congruence.
Qed.

Lemma Forall2_pick_l {A B} (R : A -> B -> Prop) (l : list A) (l' : list B)
      (x : A) :
  Forall2 R l l' -> In x l -> exists y, In y l' /\ R x y.
Proof.
  induction 1 as [|a b l l' Hab _ IH]; simpl; [tauto|].
  intros [->|H]; [eauto|].
  destruct (IH H) as (y & Hy & Hxy); eauto.
Qed.

Lemma Forall2_pick_r {A B} (R : A -> B -> Prop) (l : list A) (l' : list B)
      (y : B) :
  Forall2 R l l' -> In y l' -> exists x, In x l /\ R x y.
Proof.
  induction 1 as [|a b l l' Hab _ IH]; simpl; [tauto|].
  intros [->|H]; [eauto|].
  destruct (IH H) as (x & Hx & Hxy); eauto.
Qed.

Lemma NoDup_fst_inj {A B} (l : list (A * B)) (k : A) (v v' : B) :
  NoDup (map fst l) -> In (k, v) l -> In (k, v') l -> v = v'.
Proof.
  induction l as [|[k0 v0] l IH]; simpl; [tauto|].
  intros Hnd; inversion Hnd as [|? ? Hnotin Hnd']; subst.
  intros [E|H] [E'|H'].
  - congruence.
  - inversion E; subst; exfalso; apply Hnotin.
    apply in_map_iff; exists (k, v'); auto.
  - inversion E'; subst; exfalso; apply Hnotin.
    apply in_map_iff; exists (k, v); auto.
  - eauto.
Qed.

Lemma dict_get_member {V} (d : list (Path * V)) (k : Path) (v : V) :
  NoDup (dict_keys d) -> In (k, v) d -> dict_get d k = Ok v.
Proof.
  intros Hnd Hin.
  assert (Hk : In k (dict_keys d))
    by (apply in_map_iff; exists (k, v); auto).
  destruct (dict_get_key d k Hk) as [v' Hv'].
  rewrite Hv'; f_equal.
  eapply NoDup_fst_inj; [exact Hnd | apply dict_get_In; exact Hv' | exact Hin].
Qed.

(** ** Reading, rendering and the backlink computation *)

Section Backlinks.
Variable env : Env.

Lemma read_text_Ok (fs : FileSystem) (f : list string) (text : string) :
  read_text env fs f = Ok text <->
  exists bytes, open_read fs f = Ok bytes /\ decode env bytes = Some text.
Proof.
  unfold read_text; destruct (open_read fs f) as [bytes|e]; cbn [bind].
  - destruct (decode env bytes) as [t|] eqn:Ed.
    + split; [intros [= <-]; eauto | intros (b & [= <-] & Hd); congruence].
    + split; [discriminate | intros (b & [= <-] & Hd); congruence].
  - split; [discriminate | intros (b & H & _); discriminate H].
Qed.

(** Reading fails when the file cannot be opened or its bytes do not
    decode. *)
Lemma read_text_raise (fs : FileSystem) (f : list string) (e : exn) :
  read_text env fs f = Raise e <->
  open_read fs f = Raise e \/
  exists bytes, open_read fs f = Ok bytes /\ decode env bytes = None /\
                e = UnicodeDecodeError bytes.
Proof.
  unfold read_text; destruct (open_read fs f) as [bytes|e']; cbn [bind].
  - destruct (decode env bytes) as [t|] eqn:Ed.
    + split; [discriminate | intros [H|(b & [= <-] & Hd & _)]];
        [discriminate H | congruence].
    + split; [intros [= <-]; right; eauto|].
      intros [H|(b & [= <-] & _ & ->)]; [discriminate H | reflexivity].
  - split; [intros [= <-]; left; reflexivity|].
    intros [[= <-]|(b & H & _)]; [reflexivity | discriminate H].
Qed.

Lemma doctree_Ok (p : Path) (fs : FileSystem) (tree : string) :
  doctree env p fs = Ok tree <->
  exists bytes,
    open_read fs (file_of (getcwd env) p) = Ok bytes /\
    decode env bytes = Some tree /\ renders env tree = true.
Proof.
  unfold doctree.
  destruct (read_text env fs (file_of (getcwd env) p)) as [t|e] eqn:Er;
    cbn [bind].
  - apply read_text_Ok in Er as (b & Hb & Hd).
    destruct (renders env t) eqn:Hr.
    + split; [intros [= <-]; eauto|].
      intros (b' & Hb' & Hd' & _); congruence.
    + split; [discriminate|].
      intros (b' & Hb' & Hd' & Hr'); congruence.
  - split; [discriminate|].
    intros (b & Hb & Hd & _).
    assert (H : read_text env fs (file_of (getcwd env) p) = Ok tree)
      by (apply read_text_Ok; eauto).
    congruence.
Qed.

(** Rendering fails when reading fails, or with [ParserError] on a
    text without rendering. *)
Lemma doctree_raise (p : Path) (fs : FileSystem) (e : exn) :
  doctree env p fs = Raise e <->
  read_text env fs (file_of (getcwd env) p) = Raise e \/
  exists text, read_text env fs (file_of (getcwd env) p) = Ok text /\
               renders env text = false /\ e = ParserError.
Proof.
  unfold doctree.
  destruct (read_text env fs (file_of (getcwd env) p)) as [t|e']; cbn [bind].
  - destruct (renders env t) eqn:Hr.
    + split; [discriminate | intros [H|(t' & [= <-] & Hr' & _)]];
        [discriminate H | congruence].
    + split; [intros [= <-]; right; eauto|].
      intros [H|(t' & _ & _ & ->)]; [discriminate H | reflexivity].
  - split; [intros [= <-]; left; reflexivity|].
    intros [[= <-]|(t' & H & _)]; [reflexivity | discriminate H].
Qed.

(** A document is read from its own file alone. *)
Lemma doctree_update_other (p : Path) (fs : FileSystem) (f : list string)
      (g : string -> string) :
  f <> file_of (getcwd env) p ->
  doctree env p (update fs f g) = doctree env p fs.
Proof.
  intros Hf; unfold doctree, read_text.
  rewrite (open_read_update_other fs f _ g Hf); reflexivity.
Qed.

Lemma doctree_same_bytes (p : Path) (fs fs' : FileSystem) :
  open_read fs' (file_of (getcwd env) p) = open_read fs (file_of (getcwd env) p) ->
  doctree env p fs' = doctree env p fs.
Proof. intros H; unfold doctree, read_text; rewrite H; reflexivity. Qed.

Lemma links_Ok (self : MarkdownFile) (fs : FileSystem) (tree : string) :
  doctree env (path self) fs = Ok tree ->
  links env self fs
  = Ok (links_of_content (getcwd env) (hrefs env) self tree).
Proof. intros H; unfold links; rewrite H; reflexivity. Qed.

Lemma links_inv (self : MarkdownFile) (fs : FileSystem)
      (l : list (option Path)) :
  links env self fs = Ok l ->
  exists tree, doctree env (path self) fs = Ok tree /\
               l = links_of_content (getcwd env) (hrefs env) self tree.
Proof.
  unfold links; destruct (doctree env (path self) fs) as [tree|];
    cbn [bind]; [intros [= <-]; eauto | discriminate].
Qed.

Lemma links_raise (self : MarkdownFile) (fs : FileSystem) (e : exn) :
  links env self fs = Raise e <-> doctree env (path self) fs = Raise e.
Proof.
  unfold links; destruct (doctree env (path self) fs); cbn [bind];
    split; congruence.
Qed.

Lemma links_same_bytes (self : MarkdownFile) (fs fs' : FileSystem) :
  open_read fs' (file_of (getcwd env) (path self))
  = open_read fs (file_of (getcwd env) (path self)) ->
  links env self fs' = links env self fs.
Proof.
  intros H; unfold links; rewrite (doctree_same_bytes _ _ _ H); reflexivity.
Qed.

Lemma link_map_Ok (dir : MarkdownDirectory) (fs : FileSystem)
      (lm : list (Path * list (option Path))) :
  link_map env dir fs = Ok lm <->
  Forall2 (link_map_entry env dir fs) (dict_keys (files dir)) lm.
Proof.
  unfold link_map; rewrite mapM_Ok.
  split; intros H; eapply Forall2_impl; try exact H; clear H;
    intros k [k' l]; unfold link_map_entry; simpl.
  - destruct (dict_get (files dir) k) as [file|] eqn:E; simpl; [|discriminate].
    destruct (links env file fs) eqn:El; simpl; [|discriminate].
    intros [= <- <-]; eauto.
  - intros (-> & file & E & El); rewrite E; simpl; rewrite El; reflexivity.
Qed.

Lemma link_map_keys (dir : MarkdownDirectory) (fs : FileSystem)
      (lm : list (Path * list (option Path))) :
  link_map env dir fs = Ok lm -> map fst lm = dict_keys (files dir).
Proof.
  rewrite link_map_Ok; induction 1 as [|k kv ks lm [Hk _] _ IH]; simpl;
    congruence.
Qed.

(** [link_map] fails on a document of the collection that cannot be
    rendered. *)
Lemma link_map_raise (dir : MarkdownDirectory) (fs : FileSystem) (e : exn) :
  link_map env dir fs = Raise e ->
  exists k d, In (k, d) (files dir) /\ doctree env (path d) fs = Raise e.
Proof.
  unfold link_map; intros H; apply mapM_raise in H as (k & Hk & H).
  destruct (dict_get_key _ _ Hk) as [file Hf]; rewrite Hf in H; cbn [bind] in H.
  destruct (links env file fs) eqn:El; cbn [bind] in H; [discriminate|].
  injection H as <-; apply links_raise in El.
  exists k, file; split; [apply dict_get_In; exact Hf | exact El].
Qed.

Lemma link_map_total (dir : MarkdownDirectory) (fs : FileSystem) :
  readable env dir fs -> exists lm, link_map env dir fs = Ok lm.
Proof.
  intros Hr; apply mapM_total; intros k Hk.
  destruct (dict_get_key _ _ Hk) as [file Hf]; rewrite Hf; cbn [bind].
  destruct (Hr k file (dict_get_In _ _ _ Hf)) as [c Hc].
  rewrite (links_Ok _ _ _ Hc); cbn [bind]; eauto.
Qed.

(** The link map reads the files of the documents alone. *)
Lemma link_map_same_bytes (dir : MarkdownDirectory) (fs fs' : FileSystem) :
  (forall k d, In (k, d) (files dir) ->
     open_read fs' (file_of (getcwd env) (path d))
     = open_read fs (file_of (getcwd env) (path d))) ->
  link_map env dir fs' = link_map env dir fs.
Proof.
  intros H; unfold link_map.
  assert (E : forall l,
             incl l (dict_keys (files dir)) ->
             mapM (fun resolved_path =>
                     file <- dict_get (files dir) resolved_path ;;
                     l <- links env file fs' ;; Ok (resolved_path, l)) l
             = mapM (fun resolved_path =>
                       file <- dict_get (files dir) resolved_path ;;
                       l <- links env file fs ;; Ok (resolved_path, l)) l).
  { induction l as [|k l IH]; intros Hl; [reflexivity|]; cbn [mapM].
    rewrite IH by (intros x Hx; apply Hl; right; exact Hx).
    destruct (dict_get (files dir) k) as [file|] eqn:Ef; cbn [bind];
      [|reflexivity].
    rewrite (links_same_bytes file fs fs'
               (H k file (dict_get_In _ _ _ Ef))).
    reflexivity. }
  apply E, incl_refl.
Qed.

End Backlinks.

Lemma backlink_set_In (self : MarkdownFile)
      (lm : list (Path * list (option Path))) (own : list (option Path))
      (b : Path) :
  In b (backlink_set self lm own) <->
  (exists value, In (b, value) lm /\ In (Some (path self)) value) /\
  ~ In (Some b) own.
Proof.
  unfold backlink_set.
  rewrite filter_In, in_map_iff, negb_true_iff.
  split.
  - intros [((k & v) & <- & H) Hn]; apply filter_In in H as [H1 H2].
    simpl in *; apply set_mem_In in H2; split; [eauto|].
    intros Hin; apply set_mem_In in Hin; congruence.
  - intros [(v & H1 & H2) Hn]; split.
    + exists (b, v); split; [reflexivity|].
      apply filter_In; split; [assumption | apply set_mem_In; assumption].
    + destruct (set_mem (Some b) own) eqn:E; [|reflexivity].
      apply set_mem_In in E; contradiction.
Qed.

(** The set expression keeps the keys of the link map apart. *)
Lemma backlink_set_NoDup (self : MarkdownFile)
      (lm : list (Path * list (option Path))) (own : list (option Path)) :
  NoDup (map fst lm) -> NoDup (backlink_set self lm own).
Proof.
  intros Hnd; unfold backlink_set; apply NoDup_filter.
  induction lm as [|[k v] lm IH]; simpl; [constructor|].
  inversion Hnd as [|? ? Hnotin Hnd']; subst.
  destruct (set_mem (Some (path self)) v); simpl; [|apply IH; exact Hnd'].
  constructor; [|apply IH; exact Hnd'].
  intros Hin; apply Hnotin.
  apply in_map_iff in Hin as (kv & <- & Hkv).
  apply filter_In in Hkv as [Hkv _]; apply in_map; exact Hkv.
Qed.

Section Candidates.
Variable env : Env.

Lemma backlink_candidates_Ok (self : MarkdownFile) (dir : MarkdownDirectory)
      (fs : FileSystem) (candidates : list Path) :
  backlink_candidates env self dir fs = Ok candidates <->
  exists lm own,
    link_map env dir fs = Ok lm /\ links env self fs = Ok own /\
    candidates = backlink_set self lm own.
Proof.
  unfold backlink_candidates.
  destruct (link_map env dir fs) as [lm|]; cbn [bind].
  - destruct (links env self fs) as [own|]; cbn [bind].
    + split; [intros [= <-]; eauto|].
      intros (lm' & own' & [= <-] & [= <-] & ->); reflexivity.
    + split; [discriminate | intros (? & ? & _ & H & _); discriminate H].
  - split; [discriminate | intros (? & ? & H & _); discriminate H].
Qed.

Lemma compute_backlinks_Ok (self : MarkdownFile) (dir : MarkdownDirectory)
      (fs : FileSystem) (backlinks : list Path) :
  compute_backlinks env self dir fs = Ok backlinks <->
  exists candidates,
    backlink_candidates env self dir fs = Ok candidates /\
    backlinks = set_iter (slot env fs self) candidates.
Proof.
  unfold compute_backlinks.
  destruct (backlink_candidates env self dir fs) as [c|]; cbn [bind].
  - split; [intros [= <-]; eauto | intros (c' & [= <-] & ->); reflexivity].
  - split; [discriminate | intros (? & H & _); discriminate H].
Qed.

(** The backlinks met by the [for] clause are the elements of the set,
    each once. *)
Lemma compute_backlinks_perm (self : MarkdownFile) (dir : MarkdownDirectory)
      (fs : FileSystem) (backlinks : list Path) :
  compute_backlinks env self dir fs = Ok backlinks ->
  exists candidates,
    backlink_candidates env self dir fs = Ok candidates /\
    Permutation backlinks candidates.
Proof.
  intros H; apply compute_backlinks_Ok in H as (c & Hc & ->).
  exists c; split; [exact Hc | apply set_iter_perm].
Qed.

Lemma backlink_candidates_keys (self : MarkdownFile)
      (dir : MarkdownDirectory) (fs : FileSystem) (candidates : list Path)
      (b : Path) :
  backlink_candidates env self dir fs = Ok candidates ->
  In b candidates -> In b (dict_keys (files dir)).
Proof.
  intros H Hb; apply backlink_candidates_Ok in H as (lm & own & Hlm & _ & ->).
  apply backlink_set_In in Hb as [(v & Hv & _) _].
  rewrite <- (link_map_keys _ _ _ _ Hlm).
  apply in_map_iff; exists (b, v); auto.
Qed.

Lemma compute_backlinks_keys (self : MarkdownFile) (dir : MarkdownDirectory)
      (fs : FileSystem) (backlinks : list Path) (b : Path) :
  compute_backlinks env self dir fs = Ok backlinks ->
  In b backlinks -> In b (dict_keys (files dir)).
Proof.
  intros H Hb; apply compute_backlinks_perm in H as (c & Hc & Hp).
  apply (backlink_candidates_keys _ _ _ _ _ Hc), (Permutation_in _ Hp Hb).
Qed.

Lemma backlink_candidates_NoDup (self : MarkdownFile)
      (dir : MarkdownDirectory) (fs : FileSystem) (candidates : list Path) :
  NoDup (dict_keys (files dir)) ->
  backlink_candidates env self dir fs = Ok candidates -> NoDup candidates.
Proof.
  intros Hnd H; apply backlink_candidates_Ok in H as (lm & own & Hlm & _ & ->).
  apply backlink_set_NoDup.
  rewrite (link_map_keys _ _ _ _ Hlm); exact Hnd.
Qed.

(** The backlink computation fails on a document that cannot be
    rendered: one of the collection, or the document itself. *)
Lemma backlink_candidates_raise (self : MarkdownFile)
      (dir : MarkdownDirectory) (fs : FileSystem) (e : exn) :
  backlink_candidates env self dir fs = Raise e ->
  exists d, (d = self \/ exists k, In (k, d) (files dir)) /\
            doctree env (path d) fs = Raise e.
Proof.
  unfold backlink_candidates.
  destruct (link_map env dir fs) as [lm|e'] eqn:Elm; cbn [bind].
  - destruct (links env self fs) as [own|e'] eqn:El; cbn [bind];
      [discriminate|].
    intros [= <-]; apply links_raise in El; eauto.
  - intros [= <-].
    destruct (link_map_raise _ _ _ _ Elm) as (k & d & Hin & Hd); eauto.
Qed.

Lemma backlink_line_Ok (self : MarkdownFile) (dir : MarkdownDirectory) (b : Path) :
  In b (dict_keys (files dir)) ->
  exists target,
    dict_get (files dir) b = Ok target /\
    backlink_line env self dir b
    = Ok ("- [" ++ heading target ++ "]("
            ++ relpath (getcwd env) b (Pathlib.parent (path self))
            ++ ")" ++ nl)%string.
Proof.
  intros Hb; destruct (dict_get_key _ _ Hb) as [target Ht].
  exists target; split; [assumption|].
  unfold backlink_line; rewrite Ht; reflexivity.
Qed.

(** The title lookups of backlinks never fail. *)
Lemma backlink_lines_total (self : MarkdownFile) (dir : MarkdownDirectory)
      (listed : list Path) :
  (forall b, In b listed -> In b (dict_keys (files dir))) ->
  exists entries, mapM (backlink_line env self dir) listed = Ok entries.
Proof.
  intros H; apply mapM_total; intros b Hb.
  destruct (backlink_line_Ok self dir b (H b Hb)) as (t & _ & Ht); eauto.
Qed.

Lemma block_lines_Ok (self : MarkdownFile) (dir : MarkdownDirectory)
      (fs : FileSystem) (lines : list string) :
  block_lines env self dir fs = Ok lines <->
  exists backlinks entries,
    compute_backlinks env self dir fs = Ok backlinks /\
    mapM (backlink_line env self dir) backlinks = Ok entries /\
    lines = separator :: heading_line :: entries.
Proof.
  unfold block_lines.
  destruct (compute_backlinks env self dir fs) as [bl|]; cbn [bind].
  - destruct (mapM (backlink_line env self dir) bl) as [en|] eqn:Em;
      cbn [bind].
    + split; [intros [= <-]; eauto|].
      intros (bl' & en' & [= <-] & Hen & ->); congruence.
    + split; [discriminate | intros (? & ? & [= <-] & H & _); congruence].
  - split; [discriminate | intros (? & ? & H & _); discriminate H].
Qed.

(** Building the block fails only where the backlink computation
    does. *)
Lemma block_lines_raise (self : MarkdownFile) (dir : MarkdownDirectory)
      (fs : FileSystem) (e : exn) :
  block_lines env self dir fs = Raise e ->
  backlink_candidates env self dir fs = Raise e.
Proof.
  unfold block_lines, compute_backlinks.
  destruct (backlink_candidates env self dir fs) as [c|e'] eqn:Ec;
    cbn [bind]; [|congruence].
  destruct (mapM (backlink_line env self dir) (set_iter (slot env fs self) c))
    as [en|e'] eqn:Em; cbn [bind]; [discriminate|].
  intros _; exfalso.
  destruct (backlink_lines_total self dir (set_iter (slot env fs self) c))
    as [en Hen]; [|congruence].
  intros b Hb; apply set_iter_In in Hb.
  exact (backlink_candidates_keys _ _ _ _ _ Ec Hb).
Qed.

Lemma separator_heading : (separator ++ heading_line)%string = marker.
Proof. reflexivity. Qed.

(** *** Writing *)

Lemma append_file_append (fs : FileSystem) (f : list string) (a b : string) :
  append_file (append_file fs f a) f b = append_file fs f (a ++ b).
Proof.
  unfold append_file; rewrite update_update.
  apply update_ext; intros; apply append_assoc.
Qed.

Lemma append_file_nil (fs : FileSystem) (f : list string) :
  append_file fs f "" = fs.
Proof. apply update_unchanged; intros; apply append_nil_r. Qed.

(** [writelines] returns when every text can be encoded, and has then
    appended the encodings. *)
Lemma writelines_Returns (fs fs' : FileSystem) (f : list string)
      (lines : list string) :
  writelines env fs f lines = Returns fs' <->
  exists block, encode_lines env lines = Some block /\
                fs' = append_file fs f block.
Proof.
  revert fs; induction lines as [|t lines IH]; intros fs; cbn [writelines encode_lines].
  - split; [intros [= <-]; exists ""; rewrite append_file_nil; auto|].
    intros (b & [= <-] & ->); rewrite append_file_nil; reflexivity.
  - destruct (encode env t) as [bt|].
    + rewrite IH; split.
      * intros (b & Hb & ->); rewrite Hb.
        exists (bt ++ b)%string; rewrite append_file_append; auto.
      * intros (b & Hb & ->).
        destruct (encode_lines env lines) as [b'|]; [|discriminate Hb].
        injection Hb as <-; exists b'; rewrite append_file_append; auto.
    + split; [discriminate | intros (b & Hb & _); discriminate Hb].
Qed.

(** It fails on a text that cannot be encoded, after it has appended
    the texts before it. *)
Lemma writelines_Raises (fs fs' : FileSystem) (f : list string)
      (lines : list string) (e : exn) :
  writelines env fs f lines = Raises e fs' ->
  exists text written,
    In text lines /\ encode env text = None /\
    e = UnicodeEncodeError text /\ fs' = append_file fs f written.
Proof.
  revert fs; induction lines as [|t lines IH]; intros fs; cbn [writelines];
    [discriminate|].
  destruct (encode env t) as [bt|] eqn:Et.
  - intros H; destruct (IH _ H) as (text & w & Hin & He & -> & ->).
    exists text, (bt ++ w)%string; rewrite append_file_append.
    repeat split; [right; exact Hin | exact He].
  - intros [= <- <-]; exists t, ""; rewrite append_file_nil.
    repeat split; [left; reflexivity | exact Et].
Qed.

(** *** The truncation *)

Lemma shape_truncate (content : string) (fs : FileSystem) (f : list string) :
  shape (truncate_at_marker content fs f) = shape fs.
Proof.
  unfold truncate_at_marker; destruct (PyStr.find marker content);
    [apply shape_update | reflexivity].
Qed.

Lemma truncate_read_same (content bytes : string) (fs : FileSystem)
      (f : list string) :
  open_read fs f = Ok bytes ->
  open_read (truncate_at_marker content fs f) f
  = Ok (kept_bytes content bytes).
Proof.
  intros H; unfold truncate_at_marker, kept_bytes.
  destruct (PyStr.find marker content); [|exact H].
  apply open_read_update_same; exact H.
Qed.

Lemma truncate_read_other (content : string) (fs : FileSystem)
      (f f' : list string) :
  f <> f' ->
  open_read (truncate_at_marker content fs f) f' = open_read fs f'.
Proof.
  intros H; unfold truncate_at_marker.
  destruct (PyStr.find marker content); [|reflexivity].
  apply open_read_update_other; exact H.
Qed.

(** The truncated file, written in one step. *)
Lemma truncate_as_update (content bytes : string) (fs : FileSystem)
      (f : list string) :
  open_read fs f = Ok bytes ->
  truncate_at_marker content fs f
  = update fs f (fun _ => kept_bytes content bytes).
Proof.
  intros H; apply open_read_Ok in H as [_ Hl].
  unfold truncate_at_marker, kept_bytes.
  destruct (PyStr.find marker content) as [n|].
  - apply update_ext; intros b Hb; congruence.
  - symmetry; apply update_unchanged; intros b Hb; congruence.
Qed.

(** *** The shape of a call *)

Lemma add_backlinks_Returns (self : MarkdownFile) (dir : MarkdownDirectory)
      (fs fs' : FileSystem) :
  add_backlinks env self dir fs = Returns fs' <->
  exists content lines block,
    read_text env fs (file_of (getcwd env) (path self)) = Ok content /\
    block_lines env self dir
      (truncate_at_marker content fs (file_of (getcwd env) (path self)))
    = Ok lines /\
    encode_lines env lines = Some block /\
    fs' = append_file
            (truncate_at_marker content fs (file_of (getcwd env) (path self)))
            (file_of (getcwd env) (path self)) block.
Proof.
  unfold add_backlinks.
  destruct (read_text env fs (file_of (getcwd env) (path self)))
    as [content|e]; [|split; [discriminate | intros (? & ? & ? & H & _);
                                discriminate H]].
  cbv zeta.
  destruct (block_lines env self dir _) as [lines|e] eqn:El.
  - rewrite writelines_Returns; split.
    + intros (b & Hb & ->); exists content, lines, b; auto.
    + intros (c & l & b & [= <-] & Hl & Hb & ->).
      rewrite El in Hl; injection Hl as <-; eauto.
  - split; [discriminate|].
    intros (c & l & b & [= <-] & Hl & _); congruence.
Qed.

(** The bytes of the file that a call has rewritten. *)
Lemma add_backlinks_read (self : MarkdownFile) (dir : MarkdownDirectory)
      (fs fs' : FileSystem) :
  add_backlinks env self dir fs = Returns fs' ->
  exists bytes content backlinks entries block,
    open_read fs (file_of (getcwd env) (path self)) = Ok bytes /\
    decode env bytes = Some content /\
    compute_backlinks env self dir
      (truncate_at_marker content fs (file_of (getcwd env) (path self)))
    = Ok backlinks /\
    mapM (backlink_line env self dir) backlinks = Ok entries /\
    encode_lines env (separator :: heading_line :: entries) = Some block /\
    open_read fs' (file_of (getcwd env) (path self))
    = Ok (kept_bytes content bytes ++ block)%string.
Proof.
  intros H; apply add_backlinks_Returns in H
    as (content & lines & block & Hc & Hl & Hb & ->).
  apply read_text_Ok in Hc as (bytes & Hbytes & Hd).
  apply block_lines_Ok in Hl as (bl & en & Hbl & Hen & ->).
  exists bytes, content, bl, en, block; repeat split; try assumption.
  unfold append_file.
  apply (open_read_update_same _ _ (fun old => (old ++ block)%string)).
  apply truncate_read_same; exact Hbytes.
Qed.

(** A call leaves the shape of the file system, and the bytes of every
    other file, as they were: also when it raises. *)
Lemma add_backlinks_frame (self : MarkdownFile) (dir : MarkdownDirectory)
      (fs fs' : FileSystem) :
  add_backlinks env self dir fs = Returns fs' \/
  (exists e, add_backlinks env self dir fs = Raises e fs') ->
  shape fs' = shape fs /\
  forall g, g <> file_of (getcwd env) (path self) ->
            open_read fs' g = open_read fs g.
Proof.
  unfold add_backlinks.
  destruct (read_text env fs (file_of (getcwd env) (path self)))
    as [content|e0].
  2:{ intros [H|[e H]]; [discriminate H|]. injection H as _ <-; auto. }
  cbv zeta.
  set (f := file_of (getcwd env) (path self)).
  set (fs1 := truncate_at_marker content fs f).
  assert (H1 : shape fs1 = shape fs /\
               forall g, g <> f -> open_read fs1 g = open_read fs g).
  { split; [apply shape_truncate|].
    intros g Hg; apply truncate_read_other; congruence. }
  destruct (block_lines env self dir fs1) as [lines|e0].
  2:{ intros [H|[e H]]; [discriminate H|]. injection H as _ <-; exact H1. }
  assert (Happ : forall w, shape (append_file fs1 f w) = shape fs /\
            forall g, g <> f -> open_read (append_file fs1 f w) g
                                = open_read fs g).
  { intros w; destruct H1 as [Hs Ho]; split.
    - unfold append_file; rewrite shape_update; exact Hs.
    - intros g Hg; unfold append_file.
      rewrite open_read_update_other by congruence; apply Ho; exact Hg. }
  intros [H|[e H]].
  - apply writelines_Returns in H as (b & _ & ->); apply Happ.
  - apply writelines_Raises in H as (t & w & _ & _ & _ & ->); apply Happ.
Qed.

End Candidates.

(** *** How a call fails *)

Lemma open_read_raise (fs : FileSystem) (f : list string) (e : exn) :
  open_read fs f = Raise e ->
  (e = NotADirectoryError f /\ through_file fs f = true) \/
  (e = IsADirectoryError f /\ through_file fs f = false /\
   (lookup fs f = Some Directory \/
    (lookup fs f = None /\ has_entries_below fs f = true))) \/
  (e = FileNotFoundError f /\ through_file fs f = false /\
   lookup fs f = None /\ has_entries_below fs f = false).
Proof.
  unfold open_read.
  destruct (through_file fs f); [intros [= <-]; auto|].
  destruct (lookup fs f) as [[b|]|]; [discriminate | intros [= <-]; auto 6|].
  destruct (has_entries_below fs f); intros [= <-]; auto 8.
Qed.

Section Failure.
Variable env : Env.

(** The exceptions of reading and rendering. *)
Lemma doctree_raise_kind (p : Path) (fs : FileSystem) (e : exn) :
  doctree env p fs = Raise e ->
  open_read fs (file_of (getcwd env) p) = Raise e \/
  (exists bytes, open_read fs (file_of (getcwd env) p) = Ok bytes /\
                 decode env bytes = None /\ e = UnicodeDecodeError bytes) \/
  (exists bytes text, open_read fs (file_of (getcwd env) p) = Ok bytes /\
                      decode env bytes = Some text /\
                      renders env text = false /\ e = ParserError).
Proof.
  intros H; apply doctree_raise in H as [H|(text & Ht & Hr & ->)].
  - apply read_text_raise in H as [H|H]; auto.
  - apply read_text_Ok in Ht as (bytes & Hb & Hd); right; right; eauto 6.
Qed.

Lemma doctree_not_KeyError (p : Path) (fs : FileSystem) (k : Path) :
  doctree env p fs <> Raise (KeyError k).
Proof.
  intros H; apply doctree_raise_kind in H
    as [H|[(b & _ & _ & H)|(b & t & _ & _ & _ & H)]]; try discriminate H.
  apply open_read_raise in H as [[H _]|[[H _]|[H _]]]; discriminate H.
Qed.

(** A call of [add_backlinks] fails in one of three places: at the
    reading of the document's file, which is then left as it was; at
    the rendering of a document for the backlink computation, after
    the truncation; or at the writing of a line that cannot be
    encoded, after the lines before it were written. *)
Lemma add_backlinks_Raises (self : MarkdownFile) (dir : MarkdownDirectory)
      (fs fs' : FileSystem) (e : exn) :
  add_backlinks env self dir fs = Raises e fs' ->
  (read_text env fs (file_of (getcwd env) (path self)) = Raise e /\ fs' = fs) \/
  (exists content d,
      read_text env fs (file_of (getcwd env) (path self)) = Ok content /\
      fs' = truncate_at_marker content fs (file_of (getcwd env) (path self)) /\
      (d = self \/ exists k, In (k, d) (files dir)) /\
      doctree env (path d) fs' = Raise e) \/
  (exists content lines text written,
      read_text env fs (file_of (getcwd env) (path self)) = Ok content /\
      block_lines env self dir
        (truncate_at_marker content fs (file_of (getcwd env) (path self)))
      = Ok lines /\
      In text lines /\ encode env text = None /\
      e = UnicodeEncodeError text /\
      fs' = append_file
              (truncate_at_marker content fs (file_of (getcwd env) (path self)))
              (file_of (getcwd env) (path self)) written).
Proof.
  unfold add_backlinks.
  destruct (read_text env fs (file_of (getcwd env) (path self)))
    as [content|e0]; [|intros [= <- <-]; left; auto].
  cbv zeta.
  destruct (block_lines env self dir _) as [lines|e0] eqn:El.
  - intros H; apply writelines_Raises in H as (t & w & Hin & He & -> & ->).
    right; right; exists content, lines, t, w; auto 8.
  - intros [= <- <-]; right; left.
    apply block_lines_raise, backlink_candidates_raise in El as (d & Hd & He).
    exists content, d; auto.
Qed.

(** No call raises [KeyError]: not at a title lookup, and nowhere
    else. *)
Lemma add_backlinks_not_KeyError (self : MarkdownFile)
      (dir : MarkdownDirectory) (fs fs' : FileSystem) (k : Path) :
  add_backlinks env self dir fs <> Raises (KeyError k) fs'.
Proof.
  intros H; apply add_backlinks_Raises in H
    as [[H _]|[(c & d & _ & _ & _ & H)|(c & l & t & w & _ & _ & _ & _ & H & _)]].
  - apply read_text_raise in H as [H|(b & _ & _ & H)]; [|discriminate H].
    apply open_read_raise in H as [[H _]|[[H _]|[H _]]]; discriminate H.
  - exact (doctree_not_KeyError _ _ _ H).
  - discriminate H.
Qed.

(** A call returns when the document's file can be read and, after the
    truncation, every document still renders and the lines of the
    block can be encoded. *)
Lemma add_backlinks_total (self : MarkdownFile) (dir : MarkdownDirectory)
      (fs : FileSystem) (k : Path) (content : string) :
  In (k, self) (files dir) ->
  read_text env fs (file_of (getcwd env) (path self)) = Ok content ->
  readable env dir
    (truncate_at_marker content fs (file_of (getcwd env) (path self))) ->
  (forall lines,
      block_lines env self dir
        (truncate_at_marker content fs (file_of (getcwd env) (path self)))
      = Ok lines ->
      encode_lines env lines <> None) ->
  exists fs', add_backlinks env self dir fs = Returns fs'.
Proof.
  intros Hself Hc Hr He.
  set (fs1 := truncate_at_marker content fs (file_of (getcwd env) (path self)))
    in *.
  destruct (block_lines env self dir fs1) as [lines|e] eqn:El.
  - destruct (encode_lines env lines) as [block|] eqn:Eb;
      [|exfalso; exact (He lines eq_refl Eb)].
    eexists; apply add_backlinks_Returns.
    exists content, lines, block; fold fs1; auto.
  - exfalso.
    apply block_lines_raise, backlink_candidates_raise in El
      as (d & [->|(k' & Hd)] & Hraise).
    + destruct (Hr k self Hself) as [t Ht]; congruence.
    + destruct (Hr k' d Hd) as [t Ht]; congruence.
Qed.

End Failure.

(** ** Relative paths *)

Lemma split_no_sep (c : ascii) (x : string) :
  PyStr.contains c x = false -> PyStr.split c x = [x].
Proof.
  induction x as [|a x IH]; simpl; [reflexivity|].
  rewrite orb_false_iff; intros [Ha Hx]; rewrite Ha, (IH Hx); reflexivity.
Qed.

Lemma split_append_sep (c : ascii) (x r : string) :
  PyStr.contains c x = false ->
  PyStr.split c (x ++ String c r) = x :: PyStr.split c r.
Proof.
  induction x as [|a x IH]; simpl.
  - rewrite Ascii.eqb_refl; reflexivity.
  - rewrite orb_false_iff; intros [Ha Hx]; rewrite Ha, (IH Hx); reflexivity.
Qed.

Lemma split_join (l : list string) :
  l <> [] ->
  (forall x, In x l -> PyStr.contains "/" x = false) ->
  PyStr.split "/" (PyStr.join "/" l) = l.
Proof.
  induction l as [|x l IH]; [congruence|intros _ H].
  destruct l as [|y l].
  - apply split_no_sep, H; left; reflexivity.
  - change (PyStr.join "/" (x :: y :: l))
      with (x ++ String "/" (PyStr.join "/" (y :: l)))%string.
    rewrite split_append_sep by (apply H; left; reflexivity).
    rewrite IH; [reflexivity | discriminate |].
    intros z Hz; apply H; right; exact Hz.
Qed.

Lemma filter_keep_all (l : list string) :
  (forall x, In x l -> x <> "" /\ x <> ".") ->
  filter Pathlib.keep_component l = l.
Proof.
  induction l as [|x l IH]; intros H; [reflexivity|]; simpl.
  destruct (H x (or_introl eq_refl)) as [H1 H2].
  unfold Pathlib.keep_component at 1.
  rewrite (proj2 (String.eqb_neq _ _) H1), (proj2 (String.eqb_neq _ _) H2).
  simpl; rewrite IH; [reflexivity|].
  intros y Hy; apply H; right; exact Hy.
Qed.

(** A relative component list, written with slashes and parsed again,
    is itself. *)
Lemma of_string_join (l : list string) :
  (forall x, In x l -> wf_component x) ->
  Pathlib.of_string
    (match l with [] => "." | x :: r => PyStr.join "/" (x :: r) end)
  = mkPath Relative l.
Proof.
  intros H; destruct l as [|x l]; [reflexivity|].
  unfold Pathlib.of_string; f_equal.
  - destruct (H x (or_introl eq_refl)) as (Hne & _ & Hs).
    destruct x as [|c x]; [congruence|].
    simpl in Hs; rewrite orb_false_iff in Hs; destruct Hs as [Hc _].
    assert (E : exists r, PyStr.join "/" (String c x :: l) = String c r).
    { destruct l; simpl; eauto. }
    destruct E as [r ->]; apply splitroot_relative; assumption.
  - rewrite split_join; [| discriminate | intros y Hy; apply (H y Hy)].
    apply filter_keep_all; intros y Hy; destruct (H y Hy) as (? & ? & _); auto.
Qed.

Lemma strip_common_spec (a b : list string) :
  exists common,
    a = (common ++ fst (OsPath.strip_common a b))%list /\
    b = (common ++ snd (OsPath.strip_common a b))%list.
Proof.
  revert b; induction a as [|x a IH]; intros b.
  - exists []; destruct b; auto.
  - destruct b as [|y b]; [exists []; auto|]; simpl.
    destruct (String.eqb_spec x y) as [->|Hxy]; [|exists []; auto].
    destruct (IH b) as (common & Ha & Hb).
    exists (y :: common); simpl; split; congruence.
Qed.

Lemma norm_stack_pop (a st : list string) :
  OsPath.norm_stack (a ++ st) (repeat ".." (List.length a)) = st.
Proof.
  induction a as [|x a IH]; [reflexivity|].
  simpl repeat; rewrite norm_stack_cons.
  exact IH.
Qed.

Lemma wf_component_dotdot : wf_component "..".
Proof. repeat split; discriminate. Qed.

Section RelPath.
Variable cwd : list string.

(** Resolving [relpath(target, start)] from [start] leads back to a
    canonical [target]. *)
Lemma relpath_roundtrip (target start : Path) :
  canonical target ->
  resolve cwd (Pathlib.joinpath (resolve cwd start) (relpath cwd target start))
  = target.
Proof.
  intros (Hroot & Hdd & Hwf).
  destruct target as [r P]; simpl in Hroot, Hdd, Hwf; subst r.
  unfold relpath.
  replace (absolute_parts cwd (mkPath Slash P)) with P by reflexivity.
  rewrite (normalise_fixed P Hdd).
  set (S := OsPath.normalise (absolute_parts cwd start)).
  destruct (strip_common_spec S P) as (common & HS & HP).
  destruct (OsPath.strip_common S P) as [sr pr]; simpl in HS, HP.
  set (rel := (repeat ".." (List.length sr) ++ pr)%list).
  assert (Hrel : forall x, In x rel -> wf_component x).
  { intros x Hx; apply in_app_or in Hx as [Hx|Hx].
    - apply repeat_spec in Hx; subst x; apply wf_component_dotdot.
    - rewrite Forall_forall in Hwf; apply Hwf; rewrite HP.
      apply in_or_app; right; exact Hx. }
  change (resolve cwd start) with (mkPath Slash S).
  unfold Pathlib.joinpath.
  fold rel; rewrite (of_string_join rel Hrel).
  change (resolve cwd (mkPath Slash (S ++ rel)) = mkPath Slash P).
  unfold resolve; f_equal.
  change (absolute_parts cwd (mkPath Slash (S ++ rel))) with (S ++ rel)%list.
  unfold OsPath.normalise, rel.
  rewrite HS at 1.
  rewrite !norm_stack_app.
  assert (Hc : ~ In ".." common)
    by (intros H; apply Hdd; rewrite HP; apply in_or_app; left; exact H).
  assert (Hsr : ~ In ".." sr).
  { intros H; apply (normalise_no_dotdot (absolute_parts cwd start)).
    fold S; rewrite HS; apply in_or_app; right; exact H. }
  assert (Hpr : ~ In ".." pr)
    by (intros H; apply Hdd; rewrite HP; apply in_or_app; right; exact H).
  rewrite (norm_stack_push common) by assumption.
  rewrite (norm_stack_push sr) by assumption.
  rewrite <- (length_rev sr), norm_stack_pop.
  rewrite (norm_stack_push pr) by assumption.
  rewrite app_nil_r, rev_app_distr, !rev_involutive; symmetry; exact HP.
Qed.

End RelPath.

(** ** What [get_absolute_path] returns *)

Lemma rev_tl {A} (l : list A) : rev (tl l) = removelast (rev l).
Proof.
  destruct l as [|a l]; [reflexivity|]; simpl.
  symmetry; apply removelast_last.
Qed.

(** The stack discipline of the resolution is the walk through the
    directories. *)
Lemma norm_stack_walk (rel st : list string) :
  rev (OsPath.norm_stack st rel) = walk (rev st) rel.
Proof.
  revert st; induction rel as [|x rel IH]; intros st; [reflexivity|].
  rewrite norm_stack_cons, IH; cbn [walk]; unfold OsPath.norm_step.
  destruct (String.eqb x ".."); [rewrite rev_tl | ]; reflexivity.
Qed.

Lemma normalise_walk (comps : list string) :
  OsPath.normalise comps = walk [] comps.
Proof. unfold OsPath.normalise; apply (norm_stack_walk comps []). Qed.

(** An absolute component list, written with slashes and parsed, is
    itself. *)
Lemma of_string_absolute (l : list string) :
  Forall wf_component l ->
  Pathlib.of_string ("/" ++ PyStr.join "/" l) = mkPath Slash l.
Proof.
  intros H; rewrite Forall_forall in H.
  destruct l as [|x l]; [reflexivity|].
  unfold Pathlib.of_string; f_equal.
  - destruct (H x (or_introl eq_refl)) as (Hne & _ & Hs).
    destruct x as [|c x]; [congruence|].
    simpl in Hs; rewrite orb_false_iff in Hs; destruct Hs as [Hc _].
    assert (E : exists r, PyStr.join "/" (String c x :: l) = String c r).
    { destruct l; simpl; eauto. }
    destruct E as [r ->].
    change ("/" ++ String c r)%string with (String "/" (String c r)).
    unfold Pathlib.splitroot.
    destruct c as [[] [] [] [] [] [] [] []]; try reflexivity; discriminate.
  - change ("/" ++ PyStr.join "/" (x :: l))%string
      with ("" ++ String "/" (PyStr.join "/" (x :: l)))%string.
    rewrite split_append_sep by reflexivity.
    rewrite split_join; [| discriminate | intros y Hy; apply (H y Hy)].
    change (filter Pathlib.keep_component ("" :: x :: l))
      with (filter Pathlib.keep_component (x :: l)).
    apply filter_keep_all; intros y Hy; destruct (H y Hy) as (? & ? & _); auto.
Qed.

(** The text of a relative target made of components, with or without
    a fragment: its part before the fragment, and its first
    character. *)
Lemma target_of_components (t : list string) (frag : string) :
  (forall x, In x t -> PyStr.contains "#" x = false) ->
  frag = "" \/ (exists f, frag = String "#" f) ->
  hd "" (PyStr.split "#" (PyStr.join "/" t ++ frag)) = PyStr.join "/" t.
Proof.
  intros Hh Hf; symmetry.
  apply (is_target_of_unique _ _ (PyStr.join "/" t ++ frag));
    [|apply is_target_of_hd].
  exists frag; repeat split; [|exact Hf].
  apply contains_join; [reflexivity | exact Hh].
Qed.

Lemma target_first_char (t : list string) (frag : string) :
  Forall wf_component t ->
  frag = "" \/ (exists f, frag = String "#" f) ->
  (PyStr.join "/" t ++ frag)%string <> "" ->
  exists c s, (PyStr.join "/" t ++ frag)%string = String c s /\ c <> "/"%char.
Proof.
  intros Hwf Hf Hne.
  destruct t as [|x t].
  - destruct Hf as [->|(f & ->)]; [contradiction Hne; reflexivity|].
    exists "#"%char, f; split; [reflexivity | discriminate].
  - inversion Hwf as [|? ? (Hx & _ & Hs) _]; subst.
    destruct x as [|c x]; [congruence|].
    simpl in Hs; rewrite orb_false_iff in Hs; destruct Hs as [Hc _].
    apply Ascii.eqb_neq in Hc.
    assert (E : exists r, PyStr.join "/" (String c x :: t) = String c r).
    { destruct t; simpl; eauto. }
    destruct E as [r ->]; exists c, (r ++ frag)%string; split;
      [reflexivity | exact Hc].
Qed.



(** ** What [add_backlinks] writes *)

Lemma encode_lines_cons (env : Env) (text : string) (rest : list string)
      (block : string) :
  encode_lines env (text :: rest) = Some block <->
  exists b r, encode env text = Some b /\ encode_lines env rest = Some r /\
              block = (b ++ r)%string.
Proof.
  cbn [encode_lines].
  destruct (encode env text) as [b|]; [destruct (encode_lines env rest) as [r|]|].
  - split; [intros [= <-]; eauto|].
    intros (b' & r' & [= <-] & [= <-] & ->); reflexivity.
  - split; [discriminate | intros (? & ? & _ & H & _); discriminate H].
  - split; [discriminate | intros (? & ? & H & _); discriminate H].
Qed.

(** Lines that the encoding writes as they are, are written as their
    concatenation. *)
Lemma encode_lines_verbatim (env : Env) (lines : list string) (block : string) :
  (forall text, In text lines -> encode env text = Some text) ->
  encode_lines env lines = Some block ->
  block = String.concat "" lines.
Proof.
  revert block; induction lines as [|t lines IH]; intros block H.
  - intros [= <-]; reflexivity.
  - intros E; apply encode_lines_cons in E as (b & r & Hb & Hr & ->).
    rewrite (H t (or_introl eq_refl)) in Hb; injection Hb as <-.
    rewrite (IH r (fun x Hx => H x (or_intror Hx)) Hr).
    destruct lines; [rewrite append_nil_r|]; reflexivity.
Qed.

Lemma append_eq_self (s t : string) : (s ++ t)%string = s -> t = "".
Proof.
  induction s as [|a s IH]; simpl; [auto|].
  intros [= H]; auto.
Qed.

(** C7. The title lookup of [add_backlinks] cannot fail.  Every
    computed backlink is a key of [files], so [files[each_backlink]]
    returns a document and every entry line is built; no call of
    [add_backlinks] raises [KeyError], whatever the links of the
    documents point to; and a call for a document of the collection
    returns when its file can be read and, after the truncation, every
    document renders and the lines can be encoded. *)
Theorem title_lookup_never_fails (env : Env)
        (self : MarkdownFile) (dir : MarkdownDirectory) (fs : FileSystem) :
  (forall backlinks b,
      compute_backlinks env self dir fs = Ok backlinks ->
      In b backlinks ->
      In b (dict_keys (files dir)) /\
      exists target, dict_get (files dir) b = Ok target) /\
  (forall backlinks,
      compute_backlinks env self dir fs = Ok backlinks ->
      exists entries, mapM (backlink_line env self dir) backlinks = Ok entries) /\
  (forall k fs', add_backlinks env self dir fs <> Raises (KeyError k) fs') /\
  (forall k content,
      In (k, self) (files dir) ->
      read_text env fs (file_of (getcwd env) (path self)) = Ok content ->
      readable env dir
        (truncate_at_marker content fs (file_of (getcwd env) (path self))) ->
      (forall lines,
          block_lines env self dir
            (truncate_at_marker content fs (file_of (getcwd env) (path self)))
          = Ok lines ->
          encode_lines env lines <> None) ->
      exists fs', add_backlinks env self dir fs = Returns fs').
Proof.
  split; [|split; [|split]].
  - intros backlinks b Hc Hb.
    pose proof (compute_backlinks_keys env _ _ _ _ _ Hc Hb) as Hk.
    split; [exact Hk | apply dict_get_key; exact Hk].
  - intros backlinks Hc; apply backlink_lines_total.
    intros b Hb; exact (compute_backlinks_keys env _ _ _ _ _ Hc Hb).
  - intros k fs'; apply add_backlinks_not_KeyError.
  - intros k content; apply add_backlinks_total.
Qed.

Lemma Two_readable : readable Sample.env Two.dir Two.fs.
Proof.
  intros k d [E|[E|[]]]; inversion E; subst; eexists; reflexivity.
Qed.

Lemma Dangling_readable : readable Sample.env Two.dir Dangling.fs.
Proof.
  intros k d [E|[E|[]]]; inversion E; subst; eexists; reflexivity.
Qed.

(** The theorem on the two documents where [a.md] also links to the
    missing [missing.md]: the only backlink of [b.md] is the key
    [a.md], which has a document; the backlinks of [a.md] are computed
    and are none; and rewriting [b.md] returns. *)
Lemma title_lookup_never_fails_witness :
  compute_backlinks Sample.env Docs.beta Two.dir Dangling.fs
  = Ok [Docs.a_md] /\
  (In Docs.a_md (dict_keys (files Two.dir)) /\
   exists target, dict_get (files Two.dir) Docs.a_md = Ok target) /\
  compute_backlinks Sample.env Docs.alpha Two.dir Dangling.fs = Ok [] /\
  (exists fs', add_backlinks Sample.env Docs.beta Two.dir Dangling.fs
               = Returns fs').
Proof.
  destruct (title_lookup_never_fails Sample.env Docs.beta Two.dir Dangling.fs)
    as (H1 & _ & _ & H4).
  split; [reflexivity|]. split; [|split; [reflexivity|]].
  - apply (H1 [Docs.a_md] Docs.a_md); [reflexivity | left; reflexivity].
  - apply (H4 Docs.b_md Two.b_text).
    + right; left; reflexivity.
    + reflexivity.
    + exact Dangling_readable.
    + intros lines H; vm_compute in H; injection H as <-.
      vm_compute; discriminate.
Defined.



(** C10, as the program has it.  A call of [add_backlinks] that
    returns has written the block also when there is no backlink: the
    file then holds the bytes kept by the truncation followed by the
    encoding of the separator, of the heading and of the entry lines,
    which are none when the backlink set is empty; where the encoding
    writes the separator and the heading as they are, these bytes
    start with the marker, and a file whose text held no marker is
    changed by the call.  A call for a document of the collection
    returns when its file can be read and, after the truncation, every
    document renders and the lines can be encoded. *)
Theorem block_written_when_empty (env : Env)
        (self : MarkdownFile) (dir : MarkdownDirectory) (fs : FileSystem) :
  (forall fs',
      add_backlinks env self dir fs = Returns fs' ->
      exists bytes content candidates entries block,
        open_read fs (file_of (getcwd env) (path self)) = Ok bytes /\
        decode env bytes = Some content /\
        backlink_candidates env self dir
          (truncate_at_marker content fs (file_of (getcwd env) (path self)))
        = Ok candidates /\
        List.length entries = List.length candidates /\
        encode_lines env (separator :: heading_line :: entries) = Some block /\
        open_read fs' (file_of (getcwd env) (path self))
        = Ok (kept_bytes content bytes ++ block)%string /\
        (candidates = [] ->
         encode_lines env [separator; heading_line] = Some block) /\
        (encode env separator = Some separator ->
         encode env heading_line = Some heading_line ->
         (exists rest, block = (marker ++ rest)%string /\
                       (candidates = [] -> rest = "")) /\
         (PyStr.find marker content = None ->
          open_read fs' (file_of (getcwd env) (path self)) <> Ok bytes))) /\
  (forall k content,
      In (k, self) (files dir) ->
      read_text env fs (file_of (getcwd env) (path self)) = Ok content ->
      readable env dir
        (truncate_at_marker content fs (file_of (getcwd env) (path self))) ->
      (forall lines,
          block_lines env self dir
            (truncate_at_marker content fs (file_of (getcwd env) (path self)))
          = Ok lines ->
          encode_lines env lines <> None) ->
      exists fs', add_backlinks env self dir fs = Returns fs').
Proof.
  split; [|intros k content; apply add_backlinks_total].
  intros fs' H.
  destruct (add_backlinks_read env _ _ _ _ H)
    as (bytes & content & listed & entries & block
        & Hbytes & Hd & Hl & He & Hblock & Hread).
  destruct (compute_backlinks_perm env _ _ _ _ Hl) as (candidates & Hc & Hp).
  exists bytes, content, candidates, entries, block.
  assert (Hlen : List.length entries = List.length candidates).
  { apply mapM_Ok, Forall2_length in He; rewrite <- He.
    apply Permutation_length; exact Hp. }
  split; [exact Hbytes|]. split; [exact Hd|]. split; [exact Hc|].
  split; [exact Hlen|]. split; [exact Hblock|]. split; [exact Hread|].
  split.
  - intros ->; destruct entries; [exact Hblock | discriminate Hlen].
  - intros Hs Hh.
    apply encode_lines_cons in Hblock as (b1 & r1 & Hb1 & Hr1 & ->).
    apply encode_lines_cons in Hr1 as (b2 & r2 & Hb2 & Hr2 & ->).
    rewrite Hs in Hb1; injection Hb1 as <-.
    rewrite Hh in Hb2; injection Hb2 as <-.
    split.
    + exists r2; split.
      * rewrite <- separator_heading, append_assoc; reflexivity.
      * intros ->; destruct entries; [|discriminate Hlen].
        injection Hr2 as <-; reflexivity.
    + intros Hfind; rewrite Hread; unfold kept_bytes; rewrite Hfind.
      intros [= E]; apply append_eq_self in E; discriminate E.
Qed.

(** The theorem on the two-document collection: nothing links to
    [a.md], and the call for [a.md] returns and leaves the text of
    [a.md] followed by the marker block. *)
Lemma block_written_when_empty_witness :
  exists fs',
    add_backlinks Sample.env Docs.alpha Two.dir Two.fs = Returns fs' /\
    backlink_candidates Sample.env Docs.alpha Two.dir Two.fs = Ok [] /\
    open_read fs' (file_of (getcwd Sample.env) (path Docs.alpha))
    = Ok (Two.a_text ++ marker)%string /\
    open_read fs' (file_of (getcwd Sample.env) (path Docs.alpha))
    <> Ok Two.a_text.
Proof.
  destruct (block_written_when_empty Sample.env Docs.alpha Two.dir Two.fs)
    as (Hwritten & Hreturns).
  destruct (Hreturns Docs.a_md Two.a_text) as [fs' Hadd].
  - left; reflexivity.
  - reflexivity.
  - exact Two_readable.
  - intros lines H; vm_compute in H; injection H as <-.
    vm_compute; discriminate.
  - exists fs'; split; [exact Hadd|]. split; [reflexivity|].
    destruct (Hwritten fs' Hadd)
      as (bytes & content & candidates & entries & block
          & Hbytes & Hd & Hc & _ & _ & Hread & _ & Hmarker).
    injection Hbytes as <-.
    vm_compute in Hd; injection Hd as <-.
    vm_compute in Hc; injection Hc as <-.
    destruct (Hmarker eq_refl eq_refl) as ((rest & -> & Hrest) & Hchanged).
    rewrite (Hrest eq_refl), append_nil_r in Hread.
    split; [exact Hread | apply Hchanged; reflexivity].
Defined.

(** C10 as stated fails on a document whose text starts with the
    marker.  The call cuts the file at the marker, which leaves it
    empty; the backlink computation renders the empty file, which
    raises [ParserError]; nothing is written, and the file that held
    the marker and the text [kept?] is left empty, without a block. *)
Lemma marker_first_file_left_empty :
  MarkdownDirectory_init Sample.env "/w/docs" MarkerFirst.fs
  = Ok Boundary.dir /\
  open_read MarkerFirst.fs ["w"; "docs"; "a.md"]
  = Ok (marker ++ "kept?")%string /\
  add_backlinks Sample.env Boundary.alpha Boundary.dir MarkerFirst.fs
  = Raises ParserError MarkerFirst.fs_left /\
  add_all_backlinks Sample.env Boundary.dir MarkerFirst.fs
  = Raises ParserError MarkerFirst.fs_left /\
  open_read MarkerFirst.fs_left ["w"; "docs"; "a.md"] = Ok "".
Proof. repeat split. Qed.

(** ** Construction of the collection and the backlink set *)

(** With the root given as the canonical [/w/docs], the constructor
    stores each document under its own path. *)
Lemma init_canonical_root :
  MarkdownDirectory_init Sample.env "/w/docs" Two.fs
  = Ok Two.dir.
Proof. reflexivity. Qed.

(** C9 as stated fails for a relative root.  With the root [docs] and
    the working directory [/w], [a.md] is keyed by [/w/docs/a.md] and
    the document stores [docs/a.md].  With the root [x/docs], [a.md] is
    keyed by [/w/x/x/docs/a.md] and stores [x/docs/a.md], which
    designates the file [/w/x/docs/a.md]: key and stored path are not
    even the same file. *)
Lemma relative_root_path_differs_from_key :
  MarkdownDirectory_init Sample.env "docs" Two.fs
  = Ok TwoRelative.dir /\
  dict_get (files TwoRelative.dir) Docs.a_md = Ok TwoRelative.alpha /\
  path TwoRelative.alpha = mkPath Relative ["docs"; "a.md"] /\
  path TwoRelative.alpha <> Docs.a_md /\
  MarkdownDirectory_init Sample.env "x/docs" Nested.fs
  = Ok Nested.dir /\
  dict_get (files Nested.dir) Nested.a_key = Ok (mkFile Nested.a_rel "Alpha") /\
  Nested.a_rel <> Nested.a_key /\
  resolve Sample.cwd Nested.a_rel = mkPath Slash ["w"; "x"; "docs"; "a.md"] /\
  resolve Sample.cwd Nested.a_rel <> Nested.a_key.
Proof. repeat split; discriminate. Qed.

(** The set expression of [add_backlinks] tests membership of the
    stored path; it is the specification's set when the stored path is
    the key. *)
Lemma backlink_set_by_key (self : MarkdownFile) (key : Path)
      (lm : list (Path * list (option Path))) (own : list (option Path)) :
  path self = key -> backlink_set self lm own = backlinks_by_key key lm own.
Proof. intros <-; reflexivity. Qed.

(** C1, at the relative root [docs] with working directory [/w], where
    [a.md] links to [b.md]: the link map records the link under the
    canonical paths, the specification's set for [b.md] is
    [{/w/docs/a.md}], and [add_backlinks] computes the empty set, so
    the pass writes no entry. *)
Theorem relative_root_backlinks_lost :
  MarkdownDirectory_init Sample.env "docs" Two.fs
  = Ok TwoRelative.dir /\
  link_map Sample.env TwoRelative.dir Two.fs
  = Ok [ (Docs.a_md, [Some Docs.b_md]); (Docs.b_md, []) ] /\
  links Sample.env TwoRelative.beta Two.fs = Ok [] /\
  backlinks_by_key Docs.b_md
                   [ (Docs.a_md, [Some Docs.b_md]); (Docs.b_md, []) ] []
  = [Docs.a_md] /\
  compute_backlinks Sample.env TwoRelative.beta
                    TwoRelative.dir Two.fs
  = Ok [] /\
  add_all_backlinks Sample.env TwoRelative.dir Two.fs
  = Returns [ (["w"; "docs"; "a.md"], File (Two.a_text ++ marker));
              (["w"; "docs"; "b.md"], File (Two.b_text ++ marker)) ] /\
  add_all_backlinks Sample.env Two.dir Two.fs
  = Returns Two.fs_after.
Proof. repeat split. Qed.

Section SymmetryExclusion.
Variable env : Env.

(** Membership in the backlink set, in terms of the documents of the
    collection. *)
Lemma backlink_candidates_In (self : MarkdownFile) (dir : MarkdownDirectory)
      (fs : FileSystem) (candidates : list Path) (own : list (option Path))
      (x : Path) :
  backlink_candidates env self dir fs = Ok candidates ->
  links env self fs = Ok own ->
  (In x candidates <->
   (exists value, In x (dict_keys (files dir)) /\
                  (exists file, dict_get (files dir) x = Ok file /\
                                links env file fs = Ok value) /\
                  In (Some (path self)) value) /\
   ~ In (Some x) own).
Proof.
  intros H Hown.
  apply backlink_candidates_Ok in H as (lm & own' & Elm & Hown' & ->).
  assert (own' = own) by congruence; subst own'.
  rewrite backlink_set_In.
  apply link_map_Ok in Elm.
  split; intros [(value & H1 & H2) Hn]; (split; [|exact Hn]); exists value.
  - destruct (Forall2_pick_r _ _ _ _ Elm H1) as (k & Hk & Hfst & file & Hf & Hl).
    simpl in Hfst, Hl; subst k; repeat split; eauto.
  - destruct H2 as ((file & Hf & Hl) & Hin); split; [|exact Hin].
    destruct (Forall2_pick_l _ _ _ _ Elm H1)
      as ([k' v'] & Hkv & Hfst & file' & Hf' & Hl').
    simpl in Hfst, Hl'; subst k'.
    assert (v' = value) by congruence; subst; assumption.
Qed.

Lemma compute_backlinks_In (self : MarkdownFile) (dir : MarkdownDirectory)
      (fs : FileSystem) (backlinks : list Path) (own : list (option Path))
      (x : Path) :
  compute_backlinks env self dir fs = Ok backlinks ->
  links env self fs = Ok own ->
  (In x backlinks <->
   (exists value, In x (dict_keys (files dir)) /\
                  (exists file, dict_get (files dir) x = Ok file /\
                                links env file fs = Ok value) /\
                  In (Some (path self)) value) /\
   ~ In (Some x) own).
Proof.
  intros H Hown; apply compute_backlinks_Ok in H as (c & Hc & ->).
  rewrite set_iter_In; exact (backlink_candidates_In _ _ _ _ _ x Hc Hown).
Qed.

End SymmetryExclusion.

(** C3, as the program has it.  When the backlinks of a document are
    computed, every document that it links to itself is left out, also
    one that links back to it.  When the document is stored under its
    own path, a document of the collection that links to it, and that
    it does not link to, is listed.  So of two documents that link to
    each other neither is listed for the other. *)
Theorem own_links_excluded (env : Env)
        (self : MarkdownFile) (dir : MarkdownDirectory) (fs : FileSystem)
        (backlinks : list Path) (own : list (option Path)) :
  compute_backlinks env self dir fs = Ok backlinks ->
  links env self fs = Ok own ->
  (forall b, In (Some b) own -> ~ In b backlinks) /\
  (forall kself c file value,
      dict_get (files dir) kself = Ok self ->
      path self = kself ->
      dict_get (files dir) c = Ok file ->
      links env file fs = Ok value ->
      In (Some kself) value ->
      ~ In (Some c) own ->
      In c backlinks) /\
  (forall other kself kother backlinks' own',
      dict_get (files dir) kself = Ok self ->
      dict_get (files dir) kother = Ok other ->
      compute_backlinks env other dir fs = Ok backlinks' ->
      links env other fs = Ok own' ->
      In (Some kother) own -> In (Some kself) own' ->
      ~ In kother backlinks /\ ~ In kself backlinks').
Proof.
  intros Hb Hown.
  assert (Hex : forall b, In (Some b) own -> ~ In b backlinks).
  { intros b Hin Hbl.
    apply (compute_backlinks_In env _ _ _ _ _ b Hb Hown) in Hbl.
    tauto. }
  split; [exact Hex|]. split.
  - intros kself c file value _ Hkey Hf Hl Hin Hn.
    apply (compute_backlinks_In env _ _ _ _ _ c Hb Hown).
    split; [|exact Hn].
    exists value; repeat split; [|eauto|rewrite Hkey; exact Hin].
    apply dict_get_In in Hf.
    apply in_map_iff; exists (c, file); auto.
  - intros other kself kother backlinks' own' _ _ Hb' Hown' H1 H2.
    split; [apply Hex; exact H1|].
    intros Hbl.
    apply (compute_backlinks_In env _ _ _ _ _ kself Hb' Hown') in Hbl.
    tauto.
Qed.

(** The theorem on the three-document collection: for [a.md], the
    mutually linked [b.md] is left out and [c.md] is listed; and
    [a.md] is not listed for [b.md] either. *)
Lemma own_links_excluded_witness :
  compute_backlinks Sample.env Docs.alpha Three.dir Three.fs
  = Ok [Docs.c_md] /\
  ~ In Docs.b_md [Docs.c_md] /\
  In Docs.c_md [Docs.c_md] /\
  compute_backlinks Sample.env Docs.beta Three.dir Three.fs
  = Ok [] /\
  (~ In Docs.b_md [Docs.c_md] /\ ~ In Docs.a_md []).
Proof.
  destruct (own_links_excluded Sample.env Docs.alpha Three.dir
              Three.fs [Docs.c_md] [Some Docs.b_md] eq_refl eq_refl)
    as (H1 & H2 & H3).
  split; [reflexivity|]. split; [|split; [|split; [reflexivity|]]].
  - apply H1; left; reflexivity.
  - apply (H2 Docs.a_md Docs.c_md Docs.gamma [Some Docs.a_md]);
      [reflexivity | reflexivity | reflexivity | reflexivity
       | left; reflexivity |].
    intros [E|[]]; discriminate.
  - apply (H3 Docs.beta Docs.a_md Docs.b_md [] [Some Docs.a_md]);
      try reflexivity; left; reflexivity.
Defined.

(** C3 as stated fails on the two-document collection: [a.md] links to
    [b.md], and the backlinks computed for [b.md] are exactly
    [a.md]. *)
Lemma linking_document_is_listed :
  links Sample.env Docs.alpha Two.fs = Ok [Some Docs.b_md] /\
  compute_backlinks Sample.env Docs.beta Two.dir Two.fs
  = Ok [Docs.a_md] /\
  In Docs.a_md [Docs.a_md].
Proof. repeat split. left; reflexivity. Qed.

(** ** The constructor on a canonically spelled root *)

Lemma strip_prefix_spec (pre l r : list string) :
  strip_prefix pre l = Some r -> l = (pre ++ r)%list.
Proof.
  revert l; induction pre as [|x pre IH]; intros [|y l]; simpl;
    try discriminate; try (intros [= ->]; reflexivity).
  destruct (String.eqb_spec x y) as [->|]; [|discriminate].
  intros H; rewrite (IH l H); reflexivity.
Qed.

Lemma strip_prefix_app (pre rel : list string) :
  strip_prefix pre (pre ++ rel) = Some rel.
Proof.
  induction pre as [|x pre IH]; [destruct rel; reflexivity|].
  simpl; rewrite String.eqb_refl; exact IH.
Qed.

(** Writing a canonical path as text and parsing the text gives the
    path back. *)
Lemma of_string_str (q : Path) :
  canonical q -> Pathlib.of_string (Pathlib.str q) = q.
Proof.
  destruct q as [r l]; intros (Hr & _ & Hwf); simpl in Hr, Hwf; subst r.
  rewrite Forall_forall in Hwf.
  unfold Pathlib.str; simpl root; simpl parts.
  change ("/" ++ PyStr.join "/" l)%string with (String "/" (PyStr.join "/" l)).
  unfold Pathlib.of_string; f_equal.
  - destruct l as [|x l]; [reflexivity|].
    destruct (Hwf x (or_introl eq_refl)) as (Hne & _ & Hs).
    destruct x as [|c x]; [congruence|].
    simpl in Hs; rewrite orb_false_iff in Hs; destruct Hs as [Hc _].
    assert (E : exists t, PyStr.join "/" (String c x :: l) = String c t)
      by (destruct l; simpl; eauto).
    destruct E as [t ->].
    unfold Pathlib.splitroot.
    destruct c as [[] [] [] [] [] [] [] []]; try reflexivity; discriminate.
  - change (String "/" (PyStr.join "/" l))
      with ("" ++ String "/" (PyStr.join "/" l))%string.
    rewrite split_append_sep by reflexivity.
    simpl filter.
    destruct l as [|x l]; [reflexivity|].
    rewrite split_join; [| discriminate | intros y Hy; apply (Hwf y Hy)].
    apply filter_keep_all; intros y Hy; destruct (Hwf y Hy) as (? & ? & _); auto.
Qed.

Lemma uniq_In (x : Path) (l : list Path) : In x (uniq l) <-> In x l.
Proof.
  induction l as [|y l IH]; simpl; [tauto|].
  rewrite filter_In, IH, negb_true_iff.
  destruct (Path_eqb y x) eqn:E.
  - apply Path_eqb_eq in E; subst; intuition congruence.
  - assert (y <> x) by (intros ->; rewrite Path_eqb_refl in E; discriminate).
    intuition congruence.
Qed.

Lemma uniq_NoDup (l : list Path) : NoDup (uniq l).
Proof.
  induction l as [|y l IH]; simpl; [constructor|].
  constructor.
  - rewrite filter_In, negb_true_iff.
    intros [_ E]; rewrite Path_eqb_refl in E; discriminate.
  - apply NoDup_filter; assumption.
Qed.

(** The locations that [rglob] visits on the way down to an entry. *)
Lemma md_prefixes_In (done rel loc : list string) :
  In loc (md_prefixes done rel) <->
  exists pre x post,
    rel = (pre ++ x :: post)%list /\ matches_md x = true /\
    loc = (done ++ pre ++ [x])%list.
Proof.
  revert done; induction rel as [|y rel IH]; intros done; cbn [md_prefixes].
  - split; [intros [] | intros (pre & x & post & E & _)].
    destruct pre; discriminate E.
  - rewrite in_app_iff, IH; split.
    + intros [H|(pre & x & post & -> & Hm & ->)].
      * destruct (matches_md y) eqn:Hm; [|destruct H].
        destruct H as [<-|[]]; exists [], y, rel; auto.
      * exists (y :: pre), x, post; repeat split; [exact Hm|].
        rewrite <- app_assoc; reflexivity.
    + intros ([|z pre] & x & post & E & Hm & ->).
      * injection E as <- <-; left; rewrite Hm; left; reflexivity.
      * injection E as <- ->; right; exists pre, x, post.
        repeat split; [exact Hm|]. rewrite <- app_assoc; reflexivity.
Qed.

(** Values that determine their keys are pairwise distinct when the
    keys are. *)
Lemma NoDup_map_by_key {A B C} (l : list (A * B)) (f : B -> C) :
  NoDup (map fst l) ->
  (forall k v k' v', In (k, v) l -> In (k', v') l -> f v = f v' -> k = k') ->
  NoDup (map (fun kv => f (snd kv)) l).
Proof.
  induction l as [|[k v] l IH]; simpl; intros Hnd H; [constructor|].
  inversion Hnd as [|? ? Hnotin Hnd']; subst.
  constructor.
  - intros Hin; apply in_map_iff in Hin as ([k' v'] & E & Hin'); simpl in E.
    apply Hnotin.
    rewrite (H k v k' v' (or_introl eq_refl) (or_intror Hin') (eq_sym E)).
    apply in_map_iff; exists (k', v'); auto.
  - apply IH; [exact Hnd'|].
    intros k1 v1 k2 v2 H1 H2; apply H; right; assumption.
Qed.

Section Constructor.
Variable env : Env.

(** A canonical path is stored under itself. *)
Lemma resolved_key_canonical (p q : Path) :
  canonical q -> resolved_key (getcwd env) p q = q.
Proof.
  intros Hq; unfold resolved_key, Pathlib.joinpath.
  rewrite (of_string_str q Hq).
  destruct q as [r l]; destruct Hq as (Hr & Hdd & _); simpl in Hr, Hdd; subst r.
  unfold resolve, absolute_parts; simpl.
  rewrite normalise_fixed by assumption; reflexivity.
Qed.

(** What [rglob] finds: for a name of the file system below the root,
    or on the way down to one, that matches: the root as spelled,
    joined with the location below it. *)
Lemma rglob_md_found (p q : Path) (fs : FileSystem) :
  In q (rglob_md (getcwd env) p fs) <->
  exists pre x more n,
    In ((file_of (getcwd env) p ++ (pre ++ [x]) ++ more)%list, n) fs /\
    matches_md x = true /\
    q = mkPath (root p) (parts p ++ pre ++ [x]).
Proof.
  unfold rglob_md; rewrite uniq_In, in_flat_map; split.
  - intros ([f n] & Hin & Hq); cbn [fst] in Hq.
    destruct (strip_prefix (file_of (getcwd env) p) f) as [rel|] eqn:E;
      [|destruct Hq].
    apply in_map_iff in Hq as (loc & <- & Hloc).
    apply md_prefixes_In in Hloc as (pre & x & post & -> & Hm & ->).
    apply strip_prefix_spec in E; subst f.
    exists pre, x, post, n; repeat split; [|exact Hm].
    rewrite <- app_assoc; exact Hin.
  - intros (pre & x & more & n & Hin & Hm & ->).
    exists ((file_of (getcwd env) p ++ (pre ++ [x]) ++ more)%list, n).
    split; [exact Hin|]; cbn [fst].
    rewrite strip_prefix_app.
    apply in_map_iff; exists (pre ++ [x])%list; split; [reflexivity|].
    apply md_prefixes_In; exists pre, x, more; repeat split;
      [rewrite <- app_assoc; reflexivity | exact Hm].
Qed.

(** The file of a found path is the file it was found for. *)
Lemma file_of_found (p : Path) (rel : list string) :
  ~ In ".." rel ->
  file_of (getcwd env) (mkPath (root p) (parts p ++ rel))
  = (file_of (getcwd env) p ++ rel)%list.
Proof.
  intros Hdd; unfold file_of, resolve; simpl parts.
  assert (E : absolute_parts (getcwd env) (mkPath (root p) (parts p ++ rel))
              = (absolute_parts (getcwd env) p ++ rel)%list).
  { unfold absolute_parts; simpl; destruct (root p);
      rewrite ?app_assoc; reflexivity. }
  rewrite E; apply normalise_snoc; exact Hdd.
Qed.

Lemma file_of_canonical (p : Path) :
  root p = Slash -> ~ In ".." (parts p) -> file_of (getcwd env) p = parts p.
Proof.
  intros Hr Hdd; unfold file_of, resolve, absolute_parts; simpl; rewrite Hr.
  apply normalise_fixed; exact Hdd.
Qed.

Lemma dict_set_In {V} (d : list (Path * V)) (k k' : Path) (v v' : V) :
  In (k', v') (dict_set d k v) -> (k' = k /\ v' = v) \/ In (k', v') d.
Proof.
  induction d as [|[k0 v0] d IH]; simpl.
  - intros [[= <- <-]|[]]; auto.
  - destruct (Path_eqb k0 k) eqn:E.
    + apply Path_eqb_eq in E; subst k0.
      intros [[= <- <-]|H]; auto.
    + intros [H|H]; [auto|]. destruct (IH H); auto.
Qed.

Lemma dict_set_keys {V} (d : list (Path * V)) (k k' : Path) (v : V) :
  In k' (dict_keys (dict_set d k v)) -> k' = k \/ In k' (dict_keys d).
Proof.
  unfold dict_keys; rewrite in_map_iff; intros ([k0 v0] & <- & H).
  apply dict_set_In in H as [[-> _]|H]; [auto|].
  right; apply in_map_iff; exists (k0, v0); auto.
Qed.

Lemma dict_set_NoDup {V} (d : list (Path * V)) (k : Path) (v : V) :
  NoDup (dict_keys d) -> NoDup (dict_keys (dict_set d k v)).
Proof.
  unfold dict_keys; induction d as [|[k0 v0] d IH]; simpl; intros Hnd.
  - constructor; [intros [] | constructor].
  - inversion Hnd as [|? ? Hnotin Hnd']; subst.
    destruct (Path_eqb k0 k) eqn:E; simpl; [constructor; assumption|].
    constructor; [|apply IH; exact Hnd'].
    intros H; apply (dict_set_keys d k k0 v) in H as [->|H]; [|contradiction].
    rewrite Path_eqb_refl in E; discriminate.
Qed.

(** The documents that the comprehension stores: one per found path,
    under the key computed for that path, and no key twice. *)
Lemma build_files_inv (p : Path) (all found : list Path) (fs : FileSystem)
      (acc fl : list (Path * MarkdownFile)) :
  incl found all ->
  NoDup (dict_keys acc) ->
  (forall k d, In (k, d) acc ->
     exists q, In q all /\ MarkdownFile_init env q fs = Ok d /\
               k = resolved_key (getcwd env) p q) ->
  build_files env p found fs acc = Ok fl ->
  NoDup (dict_keys fl) /\
  forall k d, In (k, d) fl ->
    exists q, In q all /\ MarkdownFile_init env q fs = Ok d /\
              k = resolved_key (getcwd env) p q.
Proof.
  revert acc; induction found as [|q found IH]; intros acc Hfound Hnd Hacc.
  - intros [= <-]; auto.
  - cbn [build_files].
    destruct (MarkdownFile_init env q fs) as [file|] eqn:Ef;
      cbn [bind]; [|discriminate].
    apply IH.
    + intros q' Hq'; apply Hfound; right; exact Hq'.
    + apply dict_set_NoDup; exact Hnd.
    + intros k d Hin; apply dict_set_In in Hin as [[-> ->]|Hin]; [|auto].
      exists q; repeat split; [apply Hfound; left; reflexivity | exact Ef].
Qed.

Lemma MarkdownFile_init_path (q : Path) (fs : FileSystem) (d : MarkdownFile) :
  MarkdownFile_init env q fs = Ok d -> path d = q.
Proof.
  unfold MarkdownFile_init.
  destruct (doctree env q fs); cbn [bind];
    [intros [= <-]; reflexivity | discriminate].
Qed.

Section Built.
Variable path_string : string.
Variable fs : FileSystem.
Variable dir : MarkdownDirectory.
Hypothesis Hfs :
  forall entry, In entry fs ->
                Forall wf_component (fst entry) /\ ~ In ".." (fst entry).
Hypothesis Hinit :
  MarkdownDirectory_init env path_string fs = Ok dir.

(** Every stored document was built for a found path and is stored
    under the key computed for it. *)
Lemma init_files :
  NoDup (dict_keys (files dir)) /\
  forall k d, In (k, d) (files dir) ->
    exists rel more n,
      In ((file_of (getcwd env) (Pathlib.of_string path_string) ++ rel ++ more)%list, n)
         fs /\
      In (path d) (rglob_md (getcwd env) (Pathlib.of_string path_string) fs) /\
      path d = mkPath (root (Pathlib.of_string path_string))
                      (parts (Pathlib.of_string path_string) ++ rel) /\
      MarkdownFile_init env (path d) fs = Ok d /\
      k = resolved_key (getcwd env) (Pathlib.of_string path_string) (path d).
Proof.
  unfold MarkdownDirectory_init in Hinit.
  destruct (build_files _ _ _ _ _) as [fl|] eqn:Eb; cbn [bind] in Hinit;
    [|discriminate].
  injection Hinit as <-; simpl.
  apply (build_files_inv _ (rglob_md (getcwd env) (Pathlib.of_string path_string) fs))
    in Eb as [Hnd Hall].
  - split; [exact Hnd|].
    intros k d Hin; destruct (Hall k d Hin) as (q & Hq & Hd & Hk).
    pose proof Hq as Hq'.
    apply rglob_md_found in Hq' as (pre & x & more & n & Hin' & _ & Eq).
    rewrite (MarkdownFile_init_path q fs d Hd).
    exists (pre ++ [x])%list, more, n; subst q; auto 6.
  - apply incl_refl.
  - constructor.
  - intros k d [].
Qed.

Lemma found_rel_no_dotdot (pre rel more : list string) (n : node) :
  In ((pre ++ rel ++ more)%list, n) fs -> ~ In ".." rel.
Proof.
  intros Hin H; destruct (Hfs _ Hin) as [_ Hdd]; apply Hdd; simpl.
  apply in_or_app; right; apply in_or_app; left; exact H.
Qed.

Lemma found_rel_wf (pre rel more : list string) (n : node) :
  In ((pre ++ rel ++ more)%list, n) fs -> Forall wf_component rel.
Proof.
  intros Hin; destruct (Hfs _ Hin) as [Hwf _]; simpl in Hwf.
  apply Forall_app in Hwf as [_ Hwf]; apply Forall_app in Hwf as [Hwf _].
  exact Hwf.
Qed.

(** Below a canonically spelled root, a found path is canonical. *)
Lemma found_canonical (rel more : list string) (n : node) :
  root (Pathlib.of_string path_string) = Slash ->
  ~ In ".." (parts (Pathlib.of_string path_string)) ->
  In ((file_of (getcwd env) (Pathlib.of_string path_string) ++ rel ++ more)%list, n)
     fs ->
  canonical (mkPath (root (Pathlib.of_string path_string))
                    (parts (Pathlib.of_string path_string) ++ rel)).
Proof.
  intros Hr Hdd Hfile.
  rewrite (file_of_canonical _ Hr Hdd), app_assoc in Hfile.
  destruct (Hfs _ Hfile) as [Hwf Hdd']; cbn [fst] in Hwf, Hdd'.
  apply Forall_app in Hwf as [Hwf _].
  repeat split; cbn [root parts]; [exact Hr | | exact Hwf].
  intros H; apply Hdd', in_or_app; left; exact H.
Qed.

(** The constructor, for any spelling of the root. *)
Lemma init_well_keyed : well_keyed (getcwd env) dir.
Proof.
  destruct init_files as [Hnd Hall].
  set (p := Pathlib.of_string path_string) in *.
  split; [exact Hnd|]. split.
  - apply (NoDup_map_by_key (files dir)
             (fun d => file_of (getcwd env) (path d)) Hnd).
    intros k d k' d' Hin Hin' E.
    destruct (Hall k d Hin) as (rel & more & n & Hfile & _ & Hp & _ & Hk).
    destruct (Hall k' d' Hin')
      as (rel' & more' & n' & Hfile' & _ & Hp' & _ & Hk').
    rewrite Hp, Hp' in E.
    rewrite !file_of_found in E by (eapply found_rel_no_dotdot; eassumption).
    apply app_inv_head in E; subst rel'.
    rewrite Hk, Hk', Hp, Hp'; reflexivity.
  - assert (Hkeyroot : forall k1 d1, In (k1, d1) (files dir) ->
                                    root k1 = Slash /\ ~ In ".." (parts k1)).
    { intros k1 d1 Hin1.
      destruct (Hall k1 d1 Hin1) as (_ & _ & _ & _ & _ & _ & _ & ->).
      split; [reflexivity | apply normalise_no_dotdot]. }
    assert (Hnotkey : forall k d,
               In (k, d) (files dir) ->
               (root p <> Slash \/ In ".." (parts p)) ->
               ~ In (path d) (dict_keys (files dir))).
    { intros k d Hin Hbad Hkey.
      destruct (Hall k d Hin) as (rel & more & n & _ & _ & Hp & _ & _).
      apply in_map_iff in Hkey as ([k1 d1] & E1 & Hin1); simpl in E1.
      destruct (Hkeyroot k1 d1 Hin1) as [Hr1 Hdd1].
      rewrite E1, Hp in Hr1, Hdd1; simpl in Hr1, Hdd1.
      destruct Hbad as [Hbad|Hbad]; [contradiction|].
      apply Hdd1, in_or_app; left; exact Hbad. }
    destruct (root p) eqn:Hr;
      [right | destruct (in_dec string_dec ".." (parts p)) as [Hdd|Hdd];
               [right | left] | right];
      intros k d Hin;
      try (apply (Hnotkey k d Hin); auto; left; discriminate).
    destruct (Hall k d Hin) as (rel & more & n & Hfile & _ & Hp & _ & Hk).
    rewrite Hk; symmetry; apply resolved_key_canonical.
    rewrite Hp; fold p; rewrite <- Hr.
    exact (found_canonical rel more n Hr Hdd Hfile).
Qed.

(** C9, as the program has it.  Every document that the constructor
    builds stores the path as it was discovered: the root as spelled,
    joined with the location of the file below the root.  When the
    root is spelled as a canonical absolute path (over canonically
    named files) this is the very path under which the collection keys
    the document: a canonical absolute path, a fixed point of
    [resolve], and the key that [files] maps to this document.  For
    any other spelling the stored path is not the key. *)
Theorem stored_path_and_key (k : Path) (d : MarkdownFile) :
  In (k, d) (files dir) ->
  (exists rel,
      path d = mkPath (root (Pathlib.of_string path_string))
                      (parts (Pathlib.of_string path_string) ++ rel)) /\
  (root (Pathlib.of_string path_string) = Slash ->
   ~ In ".." (parts (Pathlib.of_string path_string)) ->
   path d = k /\ canonical k /\ resolve (getcwd env) k = k /\
   dict_get (files dir) k = Ok d) /\
  (root (Pathlib.of_string path_string) <> Slash \/
   In ".." (parts (Pathlib.of_string path_string)) ->
   path d <> k).
Proof.
  intros Hin.
  destruct init_files as [Hnd Hall].
  destruct (Hall k d Hin) as (rel & more & n & Hfile & _ & Hp & _ & Hk).
  split; [exists rel; exact Hp|]. split.
  - intros Hr Hdd.
    assert (Hcan : canonical (path d))
      by (rewrite Hp; exact (found_canonical rel more n Hr Hdd Hfile)).
    rewrite (resolved_key_canonical _ _ Hcan) in Hk; subst k.
    repeat split; try apply Hcan.
    + destruct Hcan as (H1 & H2 & _).
      destruct (path d) as [r l]; simpl in H1, H2; subst r.
      unfold resolve, absolute_parts; simpl.
      rewrite normalise_fixed by assumption; reflexivity.
    + apply dict_get_member; assumption.
  - intros Hbad E.
    assert (Hkey : root k = Slash /\ ~ In ".." (parts k))
      by (rewrite Hk; split; [reflexivity | apply normalise_no_dotdot]).
    rewrite <- E, Hp in Hkey; simpl in Hkey; destruct Hkey as [Hr Hdd].
    destruct Hbad as [Hbad|Hbad]; [contradiction|].
    apply Hdd, in_or_app; left; exact Hbad.
Qed.

End Built.

End Constructor.

Lemma Two_canonical_names (entry : list string * node) :
  In entry Two.fs ->
  Forall wf_component (fst entry) /\ ~ In ".." (fst entry).
Proof.
  intros [<-|[<-|[]]]; split;
    try (simpl; intuition discriminate);
    repeat constructor; discriminate.
Qed.

(** The theorem on the two-document collection: built from the root
    [/w/docs], [a.md] stores its key; built from the root [docs], it
    stores another path than its key. *)
Lemma stored_path_and_key_witness :
  (path Docs.alpha = Docs.a_md /\
   dict_get (files Two.dir) Docs.a_md = Ok Docs.alpha) /\
  path TwoRelative.alpha <> Docs.a_md.
Proof.
  pose proof Two_canonical_names as Hfs.
  split.
  - destruct (stored_path_and_key Sample.env "/w/docs"
                Two.fs Two.dir Hfs eq_refl Docs.a_md Docs.alpha
                (or_introl eq_refl))
      as (_ & H & _).
    destruct (H eq_refl ltac:(simpl; intuition discriminate))
      as (H1 & _ & _ & H2).
    split; assumption.
  - destruct (stored_path_and_key Sample.env "docs"
                Two.fs TwoRelative.dir Hfs eq_refl Docs.a_md TwoRelative.alpha
                (or_introl eq_refl))
      as (_ & _ & H).
    apply H; left; discriminate.
Defined.
(** ** Truncation at the marker *)

(** C2, at a single document whose text ends with the marker less
    its final line feed: the first pass finds no marker and appends the
    block; the second pass finds a marker that starts inside the
    original text, cuts there, and leaves a different file. *)
Theorem second_pass_differs_at_marker_boundary :
  MarkdownDirectory_init Sample.env "/w/docs" Boundary.fs
  = Ok Boundary.dir /\
  add_all_backlinks Sample.env Boundary.dir Boundary.fs
  = Returns Boundary.fs_once /\
  add_all_backlinks Sample.env Boundary.dir Boundary.fs_once
  = Returns Boundary.fs_twice /\
  Boundary.fs_once <> Boundary.fs_twice.
Proof. repeat split. intros H; discriminate H. Qed.

(** *** Positions in a text *)

Lemma prefix_append (m r : string) : prefix m (m ++ r) = true.
Proof.
  induction m as [|a m IH]; simpl; [destruct r; reflexivity|].
  destruct (ascii_dec a a); [exact IH | congruence].
Qed.

Lemma take_0 (s : string) : PyStr.take 0 s = "".
Proof. destruct s; reflexivity. Qed.

Lemma take_S (n : nat) (b : ascii) (s : string) :
  PyStr.take (S n) (String b s) = String b (PyStr.take n s).
Proof. reflexivity. Qed.

Lemma take_append (a b : string) :
  PyStr.take (String.length a) (a ++ b) = a.
Proof.
  unfold PyStr.take; induction a as [|x a IH]; simpl.
  - destruct b; reflexivity.
  - rewrite IH; reflexivity.
Qed.

Lemma take_drop (n : nat) (s : string) :
  s = (PyStr.take n s ++ PyStr.drop n s)%string.
Proof.
  revert s; induction n as [|n IH]; intros s.
  - rewrite take_0; reflexivity.
  - destruct s as [|b s]; [reflexivity|].
    rewrite take_S; simpl; f_equal; apply IH.
Qed.

Lemma length_take_le (n : nat) (s : string) :
  String.length (PyStr.take n s) <= n.
Proof.
  revert s; induction n as [|n IH]; intros s.
  - rewrite take_0; simpl; lia.
  - destruct s as [|b s]; [simpl; lia|].
    rewrite take_S; simpl; specialize (IH s); lia.
Qed.

Lemma length_take (n : nat) (s : string) :
  n <= String.length s -> String.length (PyStr.take n s) = n.
Proof.
  revert s; induction n as [|n IH]; intros s Hn.
  - rewrite take_0; reflexivity.
  - destruct s as [|b s]; [simpl in Hn; lia|].
    rewrite take_S; simpl; rewrite IH; [reflexivity | simpl in Hn; lia].
Qed.

Lemma length_append (a b : string) :
  String.length (a ++ b) = String.length a + String.length b.
Proof. induction a as [|c a IH]; simpl; [reflexivity | rewrite IH; reflexivity]. Qed.

(** One step of the search. *)
Lemma offset_cons (m : string) (b : ascii) (s : string) :
  PyStr.offset m (String b s)
  = if prefix m (String b s) then Some 0
    else match PyStr.offset m s with
         | Some n => Some (S n)
         | None => None
         end.
Proof. reflexivity. Qed.

Lemma offset_cons_None (m : string) (b : ascii) (s : string) :
  PyStr.offset m (String b s) = None ->
  prefix m (String b s) = false /\ PyStr.offset m s = None.
Proof.
  rewrite offset_cons.
  destruct (prefix m (String b s)); [discriminate|].
  destruct (PyStr.offset m s); [discriminate | auto].
Qed.

Lemma endswith_cons (b : ascii) (s suffix : string) :
  PyStr.endswith (String b s) suffix = false ->
  String b s <> suffix /\ PyStr.endswith s suffix = false.
Proof.
  simpl; rewrite orb_false_iff; intros [H1 H2]; split; [|exact H2].
  apply String.eqb_neq; exact H1.
Qed.

Lemma endswith_split (s suffix : string) :
  PyStr.endswith s suffix = true -> exists pre, s = (pre ++ suffix)%string.
Proof.
  induction s as [|b s IH]; cbn [PyStr.endswith]; rewrite orb_true_iff.
  - intros [H|H]; [|discriminate H].
    apply String.eqb_eq in H; subst suffix; exists ""; reflexivity.
  - intros [H|H].
    + apply String.eqb_eq in H; subst suffix; exists ""; reflexivity.
    + destruct (IH H) as (pre & ->); exists (String b pre); reflexivity.
Qed.

Lemma prefix_cons (a b : ascii) (m s : string) :
  prefix (String a m) (String b s) = Ascii.eqb a b && prefix m s.
Proof.
  simpl; destruct (ascii_dec a b) as [->|Hab].
  - rewrite Ascii.eqb_refl; reflexivity.
  - rewrite (proj2 (Ascii.eqb_neq a b) Hab); reflexivity.
Qed.

(** A text started by [m] is [m] followed by the rest. *)
Lemma prefix_split (m s : string) :
  prefix m s = true -> s = (m ++ PyStr.drop (String.length m) s)%string.
Proof.
  revert s; induction m as [|a m IH]; intros s Hp; [reflexivity|].
  destruct s as [|b s]; [discriminate Hp|].
  rewrite prefix_cons in Hp; apply andb_true_iff in Hp as [Hab Hp].
  apply Ascii.eqb_eq in Hab; subst b.
  simpl; f_equal; apply IH; exact Hp.
Qed.

(** What starts a beginning of the text starts the text. *)
Lemma prefix_take (m : string) (n : nat) (s : string) :
  prefix m (PyStr.take n s) = true -> prefix m s = true.
Proof.
  revert n s; induction m as [|a m IH]; intros n s Hp.
  - destruct s; reflexivity.
  - destruct n as [|n]; [rewrite take_0 in Hp; discriminate Hp|].
    destruct s as [|b s]; [discriminate Hp|].
    rewrite take_S, prefix_cons in Hp; rewrite prefix_cons.
    apply andb_true_iff in Hp as [Hab Hp]; rewrite Hab; simpl.
    apply (IH n s Hp).
Qed.

(** The text before the first occurrence holds no occurrence. *)
Lemma offset_take (a : ascii) (m s : string) (n : nat) :
  PyStr.offset (String a m) s = Some n ->
  PyStr.offset (String a m) (PyStr.take n s) = None.
Proof.
  revert n; induction s as [|b s IH]; intros n Hf; [discriminate Hf|].
  rewrite offset_cons in Hf.
  destruct (prefix (String a m) (String b s)) eqn:Hp.
  - injection Hf as <-; reflexivity.
  - destruct (PyStr.offset (String a m) s) as [k|] eqn:Hk; [|discriminate Hf].
    injection Hf as <-.
    rewrite take_S, offset_cons, (IH k eq_refl).
    destruct (prefix (String a m) (String b (PyStr.take k s))) eqn:Hp';
      [|reflexivity].
    apply (prefix_take _ (S k) (String b s)) in Hp'; congruence.
Qed.

(** The first occurrence starts what follows the text before it. *)
Lemma offset_drop (m s : string) (n : nat) :
  PyStr.offset m s = Some n -> prefix m (PyStr.drop n s) = true.
Proof.
  revert n; induction s as [|b s IH]; intros n Hf.
  - destruct m; [|discriminate Hf]. injection Hf as <-; reflexivity.
  - rewrite offset_cons in Hf.
    destruct (prefix m (String b s)) eqn:Hp.
    + injection Hf as <-; exact Hp.
    + destruct (PyStr.offset m s) as [k|]; [|discriminate Hf].
      injection Hf as <-; apply (IH k eq_refl).
Qed.

Lemma offset_le_length (m s : string) (n : nat) :
  PyStr.offset m s = Some n -> n <= String.length s.
Proof.
  revert n; induction s as [|b s IH]; intros n Hf.
  - destruct m; [|discriminate Hf]. injection Hf as <-; simpl; lia.
  - rewrite offset_cons in Hf.
    destruct (prefix m (String b s)); [injection Hf as <-; simpl; lia|].
    destruct (PyStr.offset m s) as [k|]; [|discriminate Hf].
    injection Hf as <-; specialize (IH k eq_refl); simpl; lia.
Qed.

(** An occurrence after [pre] puts the first occurrence no later. *)
Lemma offset_upto (pre m x : string) :
  exists i, PyStr.offset m (pre ++ m ++ x) = Some i /\ i <= String.length pre.
Proof.
  induction pre as [|b pre IH].
  - change ("" ++ m ++ x)%string with (m ++ x)%string.
    pose proof (prefix_append m x) as Hp.
    destruct (m ++ x)%string as [|c t] eqn:E.
    + destruct m; [|discriminate E]. exists 0; split; [reflexivity | simpl; lia].
    + exists 0; rewrite offset_cons, Hp; split; [reflexivity | simpl; lia].
  - destruct IH as (i & Hi & Hle).
    change ((String b pre ++ m ++ x)%string) with (String b (pre ++ m ++ x)).
    rewrite offset_cons, Hi.
    destruct (prefix m (String b (pre ++ m ++ x))).
    + exists 0; split; [reflexivity | simpl; lia].
    + exists (S i); split; [reflexivity | simpl; lia].
Qed.

(** If [m] starts the text [body ++ x] but not [body], then [body] is
    shorter than [m], is the beginning of [m], and the rest of [m]
    starts [x]. *)
Lemma prefix_overlap (body m x : string) :
  prefix m (body ++ x) = true ->
  prefix m body = false ->
  String.length body < String.length m /\
  body = PyStr.take (String.length body) m /\
  prefix (PyStr.drop (String.length body) m) x = true.
Proof.
  revert m; induction body as [|b s IH]; intros m Hp Hn.
  - destruct m as [|a m]; [discriminate Hn|].
    repeat split; [simpl; lia | exact Hp].
  - destruct m as [|a m]; [discriminate Hn|].
    change ((String b s ++ x)%string) with (String b (s ++ x)) in Hp.
    rewrite prefix_cons in Hp, Hn.
    apply andb_true_iff in Hp as [Hab Hp]; rewrite Hab in Hn.
    apply Ascii.eqb_eq in Hab; subst b.
    destruct (IH m Hp Hn) as (Hlen & Htake & Hdrop).
    repeat split; [simpl; lia | | exact Hdrop].
    unfold PyStr.take in *; simpl; congruence.
Qed.

(** The only proper overlap of the marker with itself is its final
    line feed: a text that the marker does not start, followed by the
    marker, is started by the marker only if it is the marker cut
    short. *)
Lemma marker_overlap (body rest : string) :
  body <> "" ->
  prefix marker body = false ->
  prefix marker (body ++ marker ++ rest) = true ->
  body = marker_head.
Proof.
  intros Hne Hn Hp.
  destruct (prefix_overlap body marker (marker ++ rest) Hp Hn)
    as (Hlen & Htake & Hdrop).
  assert (Hk : String.length body <> 0)
    by (destruct body; [congruence | discriminate]).
  remember (String.length body) as k eqn:Ek; clear Ek Hp Hn Hne.
  change (String.length marker) with 21 in Hlen.
  do 21 (destruct k as [|k];
         [ try congruence;
           try (vm_compute in Hdrop; discriminate Hdrop);
           try (rewrite Htake; reflexivity) | ]).
  lia.
Qed.

(** After the append, the marker starts where the kept text ends. *)
Lemma offset_after_append (body rest : string) :
  PyStr.offset marker body = None ->
  PyStr.endswith body marker_head = false ->
  PyStr.offset marker (body ++ marker ++ rest) = Some (String.length body).
Proof.
  induction body as [|b s IH]; intros Hf He.
  - change ("" ++ marker ++ rest)%string with (marker ++ rest)%string.
    assert (E : exists c t, (marker ++ rest)%string = String c t)
      by (eexists; eexists; reflexivity).
    destruct E as (c & t & E).
    pose proof (prefix_append marker rest) as Hp; rewrite E in *.
    rewrite offset_cons, Hp; reflexivity.
  - apply offset_cons_None in Hf as [Hn Hf].
    apply endswith_cons in He as [Hneq He].
    specialize (IH Hf He).
    change ((String b s ++ marker ++ rest)%string)
      with (String b (s ++ marker ++ rest)).
    rewrite offset_cons, IH.
    destruct (prefix marker (String b (s ++ marker ++ rest))) eqn:Hp;
      [|reflexivity].
    exfalso; apply Hneq.
    apply (marker_overlap (String b s) rest); [discriminate | exact Hn | exact Hp].
Qed.

(** *** Characters and bytes *)

Lemma find_None (m s : string) :
  PyStr.find m s = None <-> PyStr.offset m s = None.
Proof.
  unfold PyStr.find; destruct (PyStr.offset m s); simpl;
    split; congruence.
Qed.

Lemma plain_append (a b : string) :
  PyStr.plain (a ++ b) = PyStr.plain a && PyStr.plain b.
Proof.
  induction a as [|c a IH]; simpl; [reflexivity|].
  rewrite IH, andb_assoc; reflexivity.
Qed.

Lemma plain_take (n : nat) (s : string) :
  PyStr.plain s = true -> PyStr.plain (PyStr.take n s) = true.
Proof.
  intros H; rewrite (take_drop n s), plain_append in H.
  apply andb_true_iff in H as [H _]; exact H.
Qed.

(** A plain text has as many characters as bytes. *)
Lemma len_plain (s : string) :
  PyStr.plain s = true -> PyStr.len s = String.length s.
Proof.
  induction s as [|c s IH]; simpl; [reflexivity|].
  intros H; apply andb_true_iff in H as [Hc Hs].
  rewrite (IH Hs).
  unfold PyStr.plain_char in Hc; apply andb_true_iff in Hc as [Hc _].
  unfold PyStr.is_continuation.
  apply Nat.ltb_lt in Hc.
  replace (Nat.leb 128 (nat_of_ascii c)) with false
    by (symmetry; apply Nat.leb_gt; exact Hc).
  reflexivity.
Qed.

(** In a plain text the index of [find] is the position in the
    bytes. *)
Lemma find_plain (m s : string) :
  PyStr.plain s = true -> PyStr.find m s = PyStr.offset m s.
Proof.
  intros H; unfold PyStr.find.
  destruct (PyStr.offset m s) as [i|] eqn:E; [|reflexivity]; simpl.
  rewrite (len_plain _ (plain_take i s H)).
  rewrite (length_take i s (offset_le_length _ _ _ E)); reflexivity.
Qed.

Lemma resize_take (n : nat) (bytes : string) :
  n <= String.length bytes -> resize n bytes = PyStr.take n bytes.
Proof.
  intros H; unfold resize.
  replace (n - String.length bytes) with 0 by lia.
  apply append_nil_r.
Qed.

(** What the truncation keeps of a plain text that is read as it is
    written: the bytes before the first marker. *)
Lemma kept_bytes_plain (bytes : string) :
  PyStr.plain bytes = true ->
  kept_bytes bytes bytes
  = match PyStr.offset marker bytes with
    | Some i => PyStr.take i bytes
    | None => bytes
    end.
Proof.
  intros H; unfold kept_bytes; rewrite (find_plain _ _ H).
  destruct (PyStr.offset marker bytes) as [i|] eqn:E; [|reflexivity].
  apply resize_take, (offset_le_length _ _ _ E).
Qed.

(** The kept bytes hold no marker, and are followed in the file by
    nothing or by the marker. *)
Lemma kept_bytes_no_marker (bytes : string) :
  PyStr.plain bytes = true ->
  PyStr.offset marker (kept_bytes bytes bytes) = None.
Proof.
  intros H; rewrite (kept_bytes_plain _ H).
  destruct (PyStr.offset marker bytes) as [i|] eqn:E; [|exact E].
  exact (offset_take _ _ _ _ E).
Qed.

Lemma kept_bytes_cut (bytes : string) :
  PyStr.plain bytes = true ->
  exists cut,
    bytes = (kept_bytes bytes bytes ++ cut)%string /\
    ((PyStr.find marker bytes = None /\ cut = "") \/
     (PyStr.find marker bytes = Some (String.length (kept_bytes bytes bytes)) /\
      exists rest, cut = (marker ++ rest)%string)).
Proof.
  intros H; rewrite (kept_bytes_plain _ H), (find_plain _ _ H).
  destruct (PyStr.offset marker bytes) as [i|] eqn:E.
  - exists (PyStr.drop i bytes); split; [apply take_drop|]. right; split.
    + f_equal; symmetry; apply length_take, (offset_le_length _ _ _ E).
    + eexists; apply prefix_split, (offset_drop _ _ _ E).
  - exists ""; split; [symmetry; apply append_nil_r | left; auto].
Qed.

(** The truncation undoes the append on a plain text. *)
Lemma kept_bytes_after_append (body rest : string) :
  PyStr.plain (body ++ marker ++ rest) = true ->
  PyStr.offset marker body = None ->
  PyStr.endswith body marker_head = false ->
  kept_bytes (body ++ marker ++ rest) (body ++ marker ++ rest) = body.
Proof.
  intros Hp Hf He; rewrite (kept_bytes_plain _ Hp).
  rewrite (offset_after_append body rest Hf He); apply take_append.
Qed.

(** The codec of the worked examples reads and writes plain text as
    it is. *)
Lemma Sample_ascii_compatible : ascii_compatible Sample.env.
Proof.
  intros text Hp; split.
  - cbn [decode Sample.env].
    induction text as [|c text IH]; [reflexivity|].
    cbn [PyStr.plain] in Hp; apply andb_true_iff in Hp as [Hc Hp].
    unfold PyStr.plain_char in Hc; apply andb_true_iff in Hc as [H1 H2].
    apply negb_true_iff in H2.
    cbn [Sample.decode]; rewrite H1, H2, (IH Hp); reflexivity.
  - cbn [encode Sample.env]; unfold Sample.encode.
    replace (Sample.all_ascii text) with true; [reflexivity|].
    symmetry; induction text as [|c text IH]; [reflexivity|].
    cbn [PyStr.plain] in Hp; apply andb_true_iff in Hp as [Hc Hp].
    unfold PyStr.plain_char in Hc; apply andb_true_iff in Hc as [H1 _].
    cbn [Sample.all_ascii]; rewrite H1, (IH Hp); reflexivity.
Qed.

Section Truncation.
Variable env : Env.
Hypothesis Hcodec : ascii_compatible env.

(** A plain file is read as it is written. *)
Lemma read_text_plain (fs : FileSystem) (f : list string)
      (bytes content : string) :
  PyStr.plain bytes = true ->
  open_read fs f = Ok bytes ->
  read_text env fs f = Ok content -> content = bytes.
Proof.
  intros Hp Hb Hc; apply read_text_Ok in Hc as (b & Hb' & Hd).
  assert (b = bytes) by congruence; subst b.
  destruct (Hcodec bytes Hp) as [Hd' _]; congruence.
Qed.

(** The generated block, when its lines are plain. *)
Lemma encode_lines_plain (lines : list string) :
  Forall (fun text => PyStr.plain text = true) lines ->
  encode_lines env lines = Some (String.concat "" lines).
Proof.
  induction 1 as [|t lines Ht _ IH]; [reflexivity|].
  cbn [encode_lines]; rewrite (proj2 (Hcodec t Ht)), IH.
  destruct lines; [rewrite append_nil_r|]; reflexivity.
Qed.

End Truncation.

(** ** The passes *)

Lemma Forall2_join {A B C} (P : A -> B -> Prop) (Q : A -> C -> Prop)
      (l : list A) (l1 : list B) (l2 : list C) :
  Forall2 P l l1 -> Forall2 Q l l2 ->
  Forall2 (fun x y => exists z, In z l /\ P z x /\ Q z y) l1 l2.
Proof.
  intros H; revert l2; induction H as [|a b l l1 Hab _ IH]; intros l2 H2;
    inversion H2; subst; constructor.
  - exists a; simpl; auto.
  - eapply Forall2_impl; [|apply IH; eassumption].
    intros u w (z & Hz & Hzu & Hzw); exists z; simpl; auto.
Qed.

Lemma filter_fst_ext {A B} (q q' : A * B -> bool) (l l' : list (A * B)) :
  Forall2 (fun x y => fst x = fst y /\ q x = q' y) l l' ->
  map fst (filter q l) = map fst (filter q' l').
Proof.
  induction 1 as [|x y l l' [Hfst Hq] _ IH]; simpl; [reflexivity|].
  rewrite Hq; destruct (q' y); simpl; congruence.
Qed.

Lemma backlink_set_as_filter (self : MarkdownFile)
      (lm : list (Path * list (option Path))) (own : list (option Path)) :
  backlink_set self lm own
  = map fst
        (filter (fun kv : Path * list (option Path) =>
                   set_mem (Some (path self)) (snd kv)
                   && negb (set_mem (Some (fst kv)) own))
                lm).
Proof.
  unfold backlink_set; induction lm as [|[k v] lm IH]; simpl; [reflexivity|].
  destruct (set_mem (Some (path self)) v); simpl; [|exact IH].
  destruct (set_mem (Some k) own); simpl; congruence.
Qed.

(** The order of iteration depends on the slots alone. *)
Lemma set_iter_ext (slot slot' : Path -> nat) (l : list Path) :
  (forall x, slot x = slot' x) -> set_iter slot l = set_iter slot' l.
Proof.
  intros H; induction l as [|x l IH]; simpl; [reflexivity|].
  rewrite IH; generalize (set_iter slot' l); intros r.
  induction r as [|y r IHr]; simpl; [reflexivity|].
  rewrite !H, IHr; reflexivity.
Qed.

Lemma NoDup_map_In_eq {A B} (f : A -> B) (l : list A) (x y : A) :
  NoDup (map f l) -> In x l -> In y l -> f x = f y -> x = y.
Proof.
  induction l as [|a l IH]; simpl; [tauto|].
  intros Hnd; inversion Hnd as [|? ? Hnotin Hnd']; subst.
  intros [->|Hx] [->|Hy] E; auto.
  - exfalso; apply Hnotin; rewrite E; apply in_map; exact Hy.
  - exfalso; apply Hnotin; rewrite <- E; apply in_map; exact Hx.
Qed.

Lemma plain_concat (lines : list string) :
  Forall (fun text => PyStr.plain text = true) lines ->
  PyStr.plain (String.concat "" lines) = true.
Proof.
  induction 1 as [|t lines Ht _ IH]; [reflexivity|].
  cbn [String.concat]; destruct lines as [|u lines]; [exact Ht|].
  change ("" ++ String.concat "" (u :: lines))%string
    with (String.concat "" (u :: lines)).
  rewrite plain_append, Ht, IH; reflexivity.
Qed.

Section Passes.
Variable env : Env.
Variable dir : MarkdownDirectory.
Variable fs0 : FileSystem.
Hypothesis HW : well_keyed (getcwd env) dir.
Hypothesis HF : fresh env dir fs0.
Hypothesis HR : block_read_back env dir fs0.

(** Two documents of the collection with the same file are the same
    entry. *)
Lemma same_file (k k' : Path) (d d' : MarkdownFile) :
  In (k, d) (files dir) -> In (k', d') (files dir) ->
  file_of (getcwd env) (path d) = file_of (getcwd env) (path d') ->
  k = k' /\ d = d'.
Proof.
  destruct HW as (_ & H & _); intros Hin Hin' E.
  assert (E' : (k, d) = (k', d')); [|inversion E'; auto].
  exact (NoDup_map_In_eq
           (fun kd : Path * MarkdownFile =>
              file_of (getcwd env) (path (snd kd)))
           (files dir) (k, d) (k', d') H Hin Hin' E).
Qed.

Lemma fresh_bytes (k : Path) (d : MarkdownFile) :
  In (k, d) (files dir) ->
  exists content,
    open_read fs0 (file_of (getcwd env) (path d))
    = Ok (doc_bytes env fs0 d) /\
    decode env (doc_bytes env fs0 d) = Some content /\
    renders env content = true /\
    PyStr.find marker content = None /\
    PyStr.endswith content marker_head = false.
Proof.
  intros Hin; destruct (HF k d Hin) as (bytes & content & Hb & Hd & Hr & Hf & He).
  unfold doc_bytes; rewrite Hb; eauto 10.
Qed.

Lemma fresh_doctree (k : Path) (d : MarkdownFile) :
  In (k, d) (files dir) ->
  exists content,
    doctree env (path d) fs0 = Ok content /\
    decode env (doc_bytes env fs0 d) = Some content.
Proof.
  intros Hin; destruct (fresh_bytes k d Hin) as (c & Hb & Hd & Hr & _).
  exists c; split; [apply doctree_Ok; eauto | exact Hd].
Qed.

Lemma fresh_readable : readable env dir fs0.
Proof.
  intros k d Hin; destruct (fresh_doctree k d Hin) as (c & Hc & _); eauto.
Qed.

Lemma fresh_candidates (self : MarkdownFile) (k : Path) :
  In (k, self) (files dir) ->
  backlink_candidates env self dir fs0
  = Ok (candidates_at env dir fs0 self).
Proof.
  intros Hin.
  destruct (link_map_total env dir fs0 fresh_readable) as [lm Hlm].
  destruct (fresh_doctree k self Hin) as (c & Hc & _).
  unfold candidates_at, backlink_candidates.
  rewrite Hlm, (links_Ok env self fs0 c Hc); reflexivity.
Qed.

(** In a state of fresh or rewritten files every document renders,
    and its links are those of its fresh text, with none but its
    backlinks added. *)
Lemma doc_in_state (s : FileSystem) (k : Path) (d : MarkdownFile) :
  fresh_or_rewritten env dir fs0 s ->
  In (k, d) (files dir) ->
  exists bytes_s content_s content0,
    open_read s (file_of (getcwd env) (path d)) = Ok bytes_s /\
    decode env bytes_s = Some content_s /\
    renders env content_s = true /\
    decode env (doc_bytes env fs0 d) = Some content0 /\
    forall T,
      (In (Some T) (links_of_content (getcwd env) (hrefs env) d content0) ->
       In (Some T) (links_of_content (getcwd env) (hrefs env) d content_s)) /\
      (In (Some T) (links_of_content (getcwd env) (hrefs env) d content_s) ->
       In (Some T) (links_of_content (getcwd env) (hrefs env) d content0) \/
       In T (candidates_at env dir fs0 d)).
Proof.
  intros Hs Hin.
  destruct (fresh_bytes k d Hin) as (c0 & Hb0 & Hd0 & Hr0 & _).
  destruct (Hs k d Hin) as [Hfresh|(visited & bytes' & Hrw & Hopen)].
  - exists (doc_bytes env fs0 d), c0, c0; repeat split; auto.
  - destruct (HR k d _ c0 _ _ Hin Hb0 Hd0 (fresh_candidates d k Hin)
                 (set_iter_perm (slot env visited d) _))
      as (bytes'' & c' & Hrw' & Hd' & Hr' & Hlinks).
    assert (bytes'' = bytes') by congruence; subst bytes''.
    exists bytes', c', c0; repeat split; auto; apply Hlinks.
Qed.

Lemma state_doctree (s : FileSystem) (k : Path) (d : MarkdownFile) :
  fresh_or_rewritten env dir fs0 s ->
  In (k, d) (files dir) ->
  exists content_s content0,
    doctree env (path d) s = Ok content_s /\
    decode env (doc_bytes env fs0 d) = Some content0 /\
    forall T,
      (In (Some T) (links_of_content (getcwd env) (hrefs env) d content0) ->
       In (Some T) (links_of_content (getcwd env) (hrefs env) d content_s)) /\
      (In (Some T) (links_of_content (getcwd env) (hrefs env) d content_s) ->
       In (Some T) (links_of_content (getcwd env) (hrefs env) d content0) \/
       In T (candidates_at env dir fs0 d)).
Proof.
  intros Hs Hin.
  destruct (doc_in_state s k d Hs Hin)
    as (b & c & c0 & Hb & Hd & Hr & Hd0 & Hl).
  exists c, c0; split; [apply doctree_Ok; eauto | auto].
Qed.

Lemma state_readable (s : FileSystem) :
  fresh_or_rewritten env dir fs0 s -> readable env dir s.
Proof.
  intros Hs k d Hin.
  destruct (state_doctree s k d Hs Hin) as (c & _ & Hc & _); eauto.
Qed.

(** While the files are fresh or rewritten, the backlinks of a
    document whose own file is fresh are those of the fresh state: a
    link that another document gained through its block points to a
    document that links to it, hence to one that is subtracted. *)
Lemma candidates_stable (s : FileSystem) (k : Path) (d : MarkdownFile) :
  fresh_or_rewritten env dir fs0 s ->
  In (k, d) (files dir) ->
  open_read s (file_of (getcwd env) (path d)) = Ok (doc_bytes env fs0 d) ->
  backlink_candidates env d dir s = Ok (candidates_at env dir fs0 d).
Proof.
  intros Hs Hin Hd.
  destruct (fresh_bytes k d Hin) as (c0 & Hb0 & Hd0 & Hr0 & _).
  assert (Hown0 : links env d fs0
                  = Ok (links_of_content (getcwd env) (hrefs env) d c0))
    by (apply links_Ok, doctree_Ok; eauto).
  assert (Hown : links env d s
                 = Ok (links_of_content (getcwd env) (hrefs env) d c0))
    by (rewrite <- Hown0; apply links_same_bytes; congruence).
  destruct (link_map_total env dir s (state_readable s Hs)) as [lm Hlm].
  destruct (link_map_total env dir fs0 fresh_readable) as [lm0 Hlm0].
  unfold candidates_at, backlink_candidates.
  rewrite Hlm, Hlm0, Hown, Hown0; cbn [bind].
  f_equal; rewrite !backlink_set_as_filter.
  apply filter_fst_ext.
  apply link_map_Ok in Hlm, Hlm0.
  eapply Forall2_impl; [| exact (Forall2_join _ _ _ _ _ Hlm Hlm0)].
  intros [k1 v1] [k2 v2]
         (z & Hz & (Hf1 & file1 & Hg1 & Hl1) & (Hf2 & file2 & Hg2 & Hl2)).
  simpl in Hf1, Hf2, Hl1, Hl2; subst k1 k2; simpl fst; simpl snd.
  split; [reflexivity|].
  assert (file2 = file1) by congruence; subst file2.
  pose proof (dict_get_In _ _ _ Hg1) as Hin1.
  destruct HW as (Hnd & _ & Hkeys).
  destruct (set_mem (Some z)
                    (links_of_content (getcwd env) (hrefs env) d c0))
    eqn:Eown; [rewrite !andb_false_r; reflexivity|].
  rewrite !andb_true_r.
  destruct (state_doctree s z file1 Hs Hin1) as (cs & c1 & Hcs & Hc1 & Hlinks).
  destruct (fresh_doctree z file1 Hin1) as (c1' & Hc1' & Hd1').
  assert (c1' = c1) by congruence; subst c1'.
  rewrite (links_Ok env file1 s cs Hcs) in Hl1; injection Hl1 as <-.
  rewrite (links_Ok env file1 fs0 c1 Hc1') in Hl2; injection Hl2 as <-.
  destruct (Hlinks (path d)) as [Hkeep Hadded].
  match goal with
  | |- set_mem ?x ?a = set_mem ?x ?b =>
      destruct (set_mem x a) eqn:E1, (set_mem x b) eqn:E2; try reflexivity;
        exfalso
  end.
  - apply set_mem_In in E1.
    destruct (Hadded E1) as [H|H].
    + apply set_mem_In in H; congruence.
    + pose proof (fresh_candidates file1 z Hin1) as Hcand.
      destruct Hkeys as [Hkeys|Hkeys].
      * apply (backlink_candidates_In env _ _ _ _ _ (path d) Hcand
                 (links_Ok env file1 fs0 c1 Hc1')) in H
          as [(value & _ & (file & Hg & Hl) & Hin') _].
        rewrite (Hkeys k d Hin) in Hg.
        rewrite (dict_get_member _ _ _ Hnd Hin) in Hg; injection Hg as <-.
        rewrite Hown0 in Hl; injection Hl as <-.
        rewrite (Hkeys z file1 Hin1) in Hin'.
        apply set_mem_In in Hin'; congruence.
      * apply (Hkeys k d Hin).
        exact (backlink_candidates_keys env _ _ _ _ _ Hcand H).
  - apply set_mem_In in E2; apply Hkeep, set_mem_In in E2; congruence.
Qed.

(** Writing the file of a document keeps the other files as they
    are. *)
Lemma state_update (s : FileSystem) (k : Path) (d : MarkdownFile)
      (bytes' : string) :
  fresh_or_rewritten env dir fs0 s ->
  In (k, d) (files dir) ->
  (bytes' = doc_bytes env fs0 d \/
   exists visited,
     rewritten_bytes env d dir (doc_bytes env fs0 d)
       (set_iter (slot env visited d) (candidates_at env dir fs0 d))
     = Some bytes') ->
  fresh_or_rewritten env dir fs0
    (update s (file_of (getcwd env) (path d)) (fun _ => bytes')).
Proof.
  intros Hs Hin Hb k' d' Hin'.
  destruct (list_eq_dec string_dec (file_of (getcwd env) (path d))
                        (file_of (getcwd env) (path d'))) as [E|E].
  - destruct (same_file k k' d d' Hin Hin' E) as [_ <-].
    destruct (doc_in_state s k d Hs Hin) as (b & _ & _ & Hopen & _).
    pose proof (open_read_update_same s _ (fun _ => bytes') b Hopen) as Hnew.
    destruct Hb as [->|(visited & Hrw)]; [left; exact Hnew|].
    right; exists visited, bytes'; auto.
  - rewrite (open_read_update_other s _ _ (fun _ => bytes') E).
    destruct (Hs k' d' Hin') as [H|(visited & b & Hrw & Hopen)];
      [left; exact H|].
    right; exists visited, b; split; [exact Hrw|].
    rewrite (open_read_update_other s _ _ (fun _ => bytes') E); exact Hopen.
Qed.

(** One call of a pass, from a state of fresh or rewritten files, for
    a document whose file is cut back to its fresh bytes: the call
    returns and leaves the fresh bytes followed by the block of the
    backlinks of the fresh state. *)
Lemma add_backlinks_step (s : FileSystem) (k : Path) (d : MarkdownFile) :
  fresh_or_rewritten env dir fs0 s ->
  In (k, d) (files dir) ->
  (forall bytes_s content_s,
      open_read s (file_of (getcwd env) (path d)) = Ok bytes_s ->
      decode env bytes_s = Some content_s ->
      kept_bytes content_s bytes_s = doc_bytes env fs0 d) ->
  exists bytes',
    rewritten_bytes env d dir (doc_bytes env fs0 d)
      (set_iter
         (slot env
               (update s (file_of (getcwd env) (path d))
                       (fun _ => doc_bytes env fs0 d))
               d)
         (candidates_at env dir fs0 d))
    = Some bytes' /\
    add_backlinks env d dir s
    = Returns (update s (file_of (getcwd env) (path d)) (fun _ => bytes')).
Proof.
  intros Hs Hin Hcut.
  destruct (doc_in_state s k d Hs Hin)
    as (bs & cs & c0 & Hopen & Hdec & _ & Hd0 & _).
  destruct (fresh_bytes k d Hin) as (c0' & Hb0 & Hd0' & _).
  set (f := file_of (getcwd env) (path d)) in *.
  set (s1 := update s f (fun _ => doc_bytes env fs0 d)).
  assert (Et : truncate_at_marker cs s f = s1).
  { rewrite (truncate_as_update cs bs s f Hopen), (Hcut bs cs Hopen Hdec).
    reflexivity. }
  assert (Hs1 : fresh_or_rewritten env dir fs0 s1)
    by (apply (state_update s k d); auto).
  assert (Hopen1 : open_read s1 f = Ok (doc_bytes env fs0 d))
    by (apply (open_read_update_same s f (fun _ => doc_bytes env fs0 d) bs Hopen)).
  pose proof (candidates_stable s1 k d Hs1 Hin Hopen1) as Hcand.
  set (listed := set_iter (slot env s1 d) (candidates_at env dir fs0 d)).
  destruct (HR k d _ c0' _ listed Hin Hb0 Hd0' (fresh_candidates d k Hin)
               (set_iter_perm _ _))
    as (bytes' & c' & Hrw & _).
  exists bytes'; split; [exact Hrw|].
  unfold rewritten_bytes in Hrw.
  destruct (mapM (backlink_line env d dir) listed) as [entries|] eqn:Em;
    [|discriminate Hrw].
  destruct (encode_lines env (separator :: heading_line :: entries))
    as [block|] eqn:Eb; [|discriminate Hrw].
  injection Hrw as <-.
  apply add_backlinks_Returns.
  exists cs, (separator :: heading_line :: entries), block.
  fold f; rewrite Et.
  split; [apply read_text_Ok; eauto|].
  split; [|split; [exact Eb|]].
  - unfold block_lines, compute_backlinks; rewrite Hcand; cbn [bind].
    fold listed; rewrite Em; reflexivity.
  - unfold append_file, s1; rewrite update_update; reflexivity.
Qed.

(** A pass from fresh or rewritten files rewrites every document it
    visits and leaves rewritten files rewritten, when each document is
    visited once with its file fresh, or its rewritten file is cut
    back to its fresh bytes. *)
Lemma pass_rewrites (todo : list (Path * MarkdownFile)) :
  incl todo (files dir) ->
  NoDup todo ->
  forall s,
    fresh_or_rewritten env dir fs0 s ->
    (forall k d, In (k, d) todo ->
       cut_back env dir fs0 d \/
       open_read s (file_of (getcwd env) (path d))
       = Ok (doc_bytes env fs0 d)) ->
    exists s',
      add_each env (map snd todo) dir s = Returns s' /\
      fresh_or_rewritten env dir fs0 s' /\
      (forall k d, In (k, d) todo -> rewritten_in env dir fs0 s' d) /\
      (forall k d, In (k, d) (files dir) ->
         rewritten_in env dir fs0 s d -> rewritten_in env dir fs0 s' d).
Proof.
  induction todo as [|[k d] todo IH]; intros Hincl Hnd s Hs Hv.
  - exists s; repeat split; auto. intros k d [].
  - assert (Hin : In (k, d) (files dir)) by (apply Hincl; left; reflexivity).
    assert (Htl : incl todo (files dir))
      by (intros x Hx; apply Hincl; right; exact Hx).
    inversion Hnd as [|? ? Hnotin Hnd']; subst.
    destruct (fresh_bytes k d Hin) as (c0 & Hb0 & Hd0 & _ & Hf0 & _).
    destruct (add_backlinks_step s k d Hs Hin) as (bytes' & Hrw & Hadd).
    { intros bs cs Hopen Hdec.
      destruct (Hv k d (or_introl eq_refl)) as [Hcut|Hfresh].
      - destruct (Hs k d Hin) as [Hfr|(visited & b & Hrwb & Hopenb)].
        + assert (bs = doc_bytes env fs0 d) by congruence; subst bs.
          assert (cs = c0) by congruence; subst cs.
          unfold kept_bytes; rewrite Hf0; reflexivity.
        + assert (b = bs) by congruence; subst b.
          exact (Hcut _ bs cs (set_iter_perm _ _) Hrwb Hdec).
      - assert (bs = doc_bytes env fs0 d) by congruence; subst bs.
        assert (cs = c0) by congruence; subst cs.
        unfold kept_bytes; rewrite Hf0; reflexivity. }
    set (s1 := update s (file_of (getcwd env) (path d)) (fun _ => bytes')).
    assert (Hs1 : fresh_or_rewritten env dir fs0 s1)
      by (apply (state_update s k d); eauto).
    destruct (doc_in_state s k d Hs Hin) as (bs & _ & _ & Hopen & _).
    assert (Hd1 : rewritten_in env dir fs0 s1 d).
    { eexists; exists bytes'; split; [exact Hrw|].
      apply (open_read_update_same s _ (fun _ => bytes') bs Hopen). }
    assert (Hother : forall k' d',
               In (k', d') (files dir) -> (k', d') <> (k, d) ->
               open_read s1 (file_of (getcwd env) (path d'))
               = open_read s (file_of (getcwd env) (path d'))).
    { intros k' d' Hin' Hne.
      apply open_read_update_other; intros E.
      destruct (same_file k k' d d' Hin Hin' E) as [-> ->]; auto. }
    destruct (IH Htl Hnd' s1 Hs1) as (s' & Hrun & Hs' & Htodo & Hkeep).
    { intros k' d' Hin'.
      destruct (Hv k' d' (or_intror Hin')) as [Hcut|Hfresh]; [left; exact Hcut|].
      right; rewrite (Hother k' d' (Htl _ Hin')); [exact Hfresh|].
      intros E; rewrite E in Hin'; contradiction. }
    exists s'.
    change (map snd ((k, d) :: todo)) with (d :: map snd todo).
    cbn [add_each]; rewrite Hadd.
    split; [exact Hrun|]. split; [exact Hs'|]. split.
    + intros k' d' [E|H]; [|apply (Htodo k' d' H)].
      inversion E; subst k' d'; apply (Hkeep k d Hin Hd1).
    + intros k' d' Hin' (visited & b & Hrwb & Hopenb).
      apply (Hkeep k' d' Hin').
      destruct (list_eq_dec string_dec (file_of (getcwd env) (path d))
                            (file_of (getcwd env) (path d'))) as [E|E].
      * destruct (same_file k k' d d' Hin Hin' E) as [_ <-]; exact Hd1.
      * exists visited, b; split; [exact Hrwb|].
        unfold s1; rewrite open_read_update_other by exact E; exact Hopenb.
Qed.

(** With slots that do not depend on the state, a pass over rewritten
    files that are cut back to their fresh bytes changes nothing. *)
Lemma pass_settled (todo : list (Path * MarkdownFile)) :
  stable_slots env ->
  (forall k d, In (k, d) (files dir) -> cut_back env dir fs0 d) ->
  incl todo (files dir) ->
  forall s,
    all_rewritten env dir fs0 s ->
    add_each env (map snd todo) dir s = Returns s.
Proof.
  intros Hstable Hcut.
  induction todo as [|[k d] todo IH]; intros Hincl s Hs; [reflexivity|].
  assert (Hin : In (k, d) (files dir)) by (apply Hincl; left; reflexivity).
  change (map snd ((k, d) :: todo)) with (d :: map snd todo).
  cbn [add_each].
  destruct (Hs k d Hin) as (visited & b & Hrwb & Hopenb).
  destruct (add_backlinks_step s k d) as (bytes' & Hrw & Hadd);
    [intros k' d' H'; right; eauto | exact Hin | |].
  { intros bs cs Hopen Hdec.
    assert (b = bs) by congruence; subst b.
    exact (Hcut k d Hin _ bs cs (set_iter_perm _ _) Hrwb Hdec). }
  rewrite (set_iter_ext _ (slot env visited d)) in Hrw
    by (intros x; apply Hstable).
  assert (bytes' = b) by congruence; subst bytes'.
  rewrite Hadd, update_unchanged.
  - apply IH; [intros x Hx; apply Hincl; right; exact Hx | exact Hs].
  - intros b0 Hb0; apply open_read_Ok in Hopenb as [_ Hl]; congruence.
Qed.

(** Plain documents under an encoding that reads plain text as it is
    written: the block is written as its lines, and a rewritten file
    is cut back to the fresh bytes. *)
Lemma plain_rewritten (k : Path) (d : MarkdownFile) (listed : list Path)
      (bytes' : string) :
  ascii_compatible env ->
  plain_documents env dir fs0 ->
  In (k, d) (files dir) ->
  rewritten_bytes env d dir (doc_bytes env fs0 d) listed = Some bytes' ->
  exists entries,
    mapM (backlink_line env d dir) listed = Ok entries /\
    bytes' = (doc_bytes env fs0 d ++ marker ++ String.concat "" entries)%string /\
    PyStr.plain bytes' = true.
Proof.
  intros Hcodec Hplain Hin Hrw.
  destruct (Hplain k d Hin) as [Hpb Hpl].
  unfold rewritten_bytes in Hrw.
  destruct (mapM (backlink_line env d dir) listed) as [entries|] eqn:Em;
    [|discriminate Hrw].
  assert (Hlines : Forall (fun text => PyStr.plain text = true)
                          (separator :: heading_line :: entries)).
  { constructor; [reflexivity|]. constructor; [reflexivity|].
    apply mapM_Ok in Em; apply Forall_forall; intros line Hline.
    destruct (Forall2_pick_r _ _ _ _ Em Hline) as (b & _ & Hb).
    exact (Hpl b line Hb). }
  assert (E : String.concat "" (separator :: heading_line :: entries)
              = (marker ++ String.concat "" entries)%string).
  { cbn [String.concat]; destruct entries; cbn [append];
      rewrite ?append_nil_r, ?append_assoc; reflexivity. }
  pose proof (plain_concat _ Hlines) as Hpc.
  rewrite (encode_lines_plain env Hcodec _ Hlines), E in Hrw.
  rewrite E in Hpc.
  cbn [option_map] in Hrw.
  assert (Eb : bytes'
               = (doc_bytes env fs0 d ++ marker ++ String.concat "" entries)%string)
    by congruence.
  exists entries; split; [reflexivity|]. split; [exact Eb|].
  rewrite Eb, plain_append, Hpb, Hpc; reflexivity.
Qed.

Lemma plain_cut_back (k : Path) (d : MarkdownFile) :
  ascii_compatible env ->
  plain_documents env dir fs0 ->
  In (k, d) (files dir) ->
  cut_back env dir fs0 d.
Proof.
  intros Hcodec Hplain Hin listed bytes' content' _ Hrw Hdec.
  destruct (plain_rewritten k d listed bytes' Hcodec Hplain Hin Hrw)
    as (entries & _ & E & Hp).
  destruct (Hcodec bytes' Hp) as [Hd' _].
  assert (content' = bytes') by congruence; subst content'.
  destruct (fresh_bytes k d Hin) as (c0 & _ & Hd0 & _ & Hf0 & He0).
  destruct (Hplain k d Hin) as [Hpb _].
  destruct (Hcodec _ Hpb) as [Hd0' _].
  assert (c0 = doc_bytes env fs0 d) by congruence; subst c0.
  rewrite E; rewrite E in Hp.
  apply kept_bytes_after_append; [exact Hp | apply find_None; exact Hf0 | exact He0].
Qed.

End Passes.

Lemma NoDup_files (dir : MarkdownDirectory) :
  NoDup (dict_keys (files dir)) -> NoDup (files dir).
Proof. apply NoDup_map_inv. Qed.

Lemma Permutation_short {A} (l l' : list A) :
  Permutation l l' -> List.length l' <= 1 -> l = l'.
Proof.
  intros Hp Hlen; destruct l' as [|a [|b l']]; [| |simpl in Hlen; lia].
  - apply Permutation_sym, Permutation_nil in Hp; exact Hp.
  - apply Permutation_sym, Permutation_length_1_inv in Hp; exact Hp.
Qed.


(** The collections of the worked examples are as the constructor
    builds them, fresh and plain, and the stand-in renderer reads
    their blocks back. *)
Ltac example_documents H :=
  repeat (destruct H as [H|H]; [inversion H; subst; clear H|]);
  [..|destruct H].

Ltac example_block_read_back :=
  let Hin := fresh "Hin" in
  let Hopen := fresh "Hopen" in
  let Hdec := fresh "Hdec" in
  let Hcand := fresh "Hcand" in
  let Hperm := fresh "Hperm" in
  intros ? ? ? ? ? ? Hin Hopen Hdec Hcand Hperm;
  example_documents Hin;
  vm_compute in Hopen; injection Hopen as <-;
  vm_compute in Hdec; injection Hdec as <-;
  vm_compute in Hcand; injection Hcand as <-;
  first [ apply Permutation_sym, Permutation_nil in Hperm
        | apply Permutation_sym, Permutation_length_1_inv in Hperm
        | apply Permutation_sym, Permutation_length_2_inv in Hperm;
          destruct Hperm as [Hperm|Hperm] ];
  subst;
  (eexists; eexists;
   split; [vm_compute; reflexivity|];
   split; [vm_compute; reflexivity|];
   split; [vm_compute; reflexivity|];
   let T := fresh "T" in
   let H := fresh "H" in
   intros T; split; intros H; vm_compute in H |- *;
   repeat match goal with
          | H : _ \/ _ |- _ => destruct H
          | H : False |- _ => destruct H
          | H : Some _ = Some ?T |- _ => injection H as <-
          end; auto 7).

Ltac example_plain_documents :=
  let Hin := fresh "Hin" in
  let Hline := fresh "Hline" in
  let Hg := fresh "Hg" in
  intros ? ? Hin; split;
  [ example_documents Hin; reflexivity
  | intros ? ? Hline; unfold backlink_line in Hline;
    match type of Hline with
    | context [dict_get ?fl ?b] =>
        destruct (dict_get fl b) eqn:Hg; [|discriminate Hline];
        apply dict_get_In in Hg
    end;
    cbn [bind] in Hline;
    example_documents Hin; example_documents Hg;
    vm_compute in Hline; injection Hline as <-; reflexivity ].

Ltac example_fresh :=
  let Hin := fresh "Hin" in
  intros ? ? Hin; example_documents Hin;
  eexists; eexists; repeat split.

Ltac example_canonical_names :=
  let H := fresh "H" in
  intros ? H;
  repeat (destruct H as [H|H]; [subst|]); [..|destruct H];
  (split; [repeat constructor; discriminate | simpl; intuition discriminate]).

Lemma Two_well_keyed : well_keyed Sample.cwd Two.dir.
Proof.
  apply (init_well_keyed Sample.env "/w/docs" Two.fs).
  - exact Two_canonical_names.
  - reflexivity.
Qed.

Lemma Fan_canonical_names (entry : list string * node) :
  In entry Fan.fs ->
  Forall wf_component (fst entry) /\ ~ In ".." (fst entry).
Proof. revert entry; example_canonical_names. Qed.

Lemma Fan_well_keyed : well_keyed (getcwd Fan.env) Three.dir.
Proof.
  apply (init_well_keyed Fan.env "/w/docs" Fan.fs).
  - exact Fan_canonical_names.
  - reflexivity.
Qed.

Lemma Fan_fresh : fresh Fan.env Three.dir Fan.fs.
Proof. example_fresh. Qed.

Lemma Fan_block_read_back : block_read_back Fan.env Three.dir Fan.fs.
Proof. example_block_read_back. Qed.

Lemma Fan_ascii_compatible : ascii_compatible Fan.env.
Proof. exact Sample_ascii_compatible. Qed.

Lemma Fan_plain_documents : plain_documents Fan.env Three.dir Fan.fs.
Proof. example_plain_documents. Qed.

Lemma Fan_stable_slots : stable_slots Fan.env.
Proof. intros s s' d p; reflexivity. Qed.


(* ================================================================= *)
(** ** The truncation step *)

(** X2. The truncation step of [add_backlinks] on a file of plain
    text, under an encoding that reads plain text as it is written:
    the text read is the bytes of the file, and the file is cut at the
    first marker.  The kept bytes hold no marker; the file was the kept
    bytes followed by what is cut, which is nothing when the text has
    no marker and starts with the marker, at the index found,
    otherwise; and truncating again at this point changes nothing. *)
Theorem truncation_cuts_at_first_marker (env : Env) (fs : FileSystem)
        (f : list string) (bytes content : string) :
  ascii_compatible env ->
  PyStr.plain bytes = true ->
  open_read fs f = Ok bytes ->
  read_text env fs f = Ok content ->
  content = bytes /\
  exists kept cut,
    open_read (truncate_at_marker content fs f) f = Ok kept /\
    bytes = (kept ++ cut)%string /\
    PyStr.find marker kept = None /\
    ((PyStr.find marker content = None /\ cut = "") \/
     (PyStr.find marker content = Some (String.length kept) /\
      exists rest, cut = (marker ++ rest)%string)) /\
    truncate_at_marker kept (truncate_at_marker content fs f) f
    = truncate_at_marker content fs f.
Proof.
  intros Hcodec Hp Hb Hc.
  pose proof (read_text_plain env Hcodec fs f bytes content Hp Hb Hc) as ->.
  split; [reflexivity|].
  destruct (kept_bytes_cut bytes Hp) as (cut & Hcut & Hcase).
  assert (Hnone : PyStr.find marker (kept_bytes bytes bytes) = None)
    by (apply find_None, kept_bytes_no_marker; exact Hp).
  exists (kept_bytes bytes bytes), cut.
  split; [apply truncate_read_same; exact Hb|].
  split; [exact Hcut|]. split; [exact Hnone|]. split; [exact Hcase|].
  unfold truncate_at_marker at 1; rewrite Hnone; reflexivity.
Qed.

(** The theorem on the file [b.md] after a pass over the two
    documents: the cut leaves the text of [b.md] and takes the marker
    and the entry away. *)
Lemma truncation_cuts_at_first_marker_witness :
  open_read (truncate_at_marker Two.b_after Two.fs_after
                                ["w"; "docs"; "b.md"])
            ["w"; "docs"; "b.md"]
  = Ok Two.b_text /\
  Two.b_after = (Two.b_text ++ marker ++ "- [Alpha](a.md)" ++ nl)%string /\
  PyStr.find marker Two.b_text = None /\
  PyStr.find marker Two.b_after = Some (String.length Two.b_text).
Proof.
  destruct (truncation_cuts_at_first_marker Sample.env Two.fs_after
              ["w"; "docs"; "b.md"] Two.b_after Two.b_after
              Sample_ascii_compatible eq_refl eq_refl eq_refl)
    as (_ & kept & cut & Hkept & Hcut & Hnone & Hcase & _).
  vm_compute in Hkept; injection Hkept as <-.
  split; [reflexivity|]. split; [reflexivity|]. split; [exact Hnone|].
  destruct Hcase as [[Hf _]|[Hf _]]; [discriminate Hf | exact Hf].
Defined.

(** X3. Whether the truncation undoes the append, on a file of plain
    text under an encoding that reads plain text as it is written.
    For a text without marker followed by a block, the truncation
    leaves the text exactly when the text does not end with the marker
    less its final line feed. *)
Theorem append_then_truncate (env : Env) (fs : FileSystem) (f : list string)
        (body rest content : string) :
  ascii_compatible env ->
  PyStr.plain (body ++ marker ++ rest) = true ->
  PyStr.find marker body = None ->
  open_read fs f = Ok (body ++ marker ++ rest)%string ->
  read_text env fs f = Ok content ->
  (open_read (truncate_at_marker content fs f) f = Ok body <->
   PyStr.endswith body marker_head = false).
Proof.
  intros Hcodec Hp Hf Hb Hc.
  pose proof (read_text_plain env Hcodec fs f _ content Hp Hb Hc) as ->.
  rewrite (truncate_read_same _ _ fs f Hb).
  apply find_None in Hf.
  split.
  - intros H.
    assert (Ht : kept_bytes (body ++ marker ++ rest) (body ++ marker ++ rest)
                 = body) by congruence.
    clear H.
    destruct (PyStr.endswith body marker_head) eqn:He; [exfalso | reflexivity].
    apply endswith_split in He as (pre & ->).
    assert (E : ((pre ++ marker_head) ++ marker ++ rest)%string
                = (pre ++ marker ++ (PyStr.drop 1 marker ++ rest))%string).
    { rewrite append_assoc; reflexivity. }
    rewrite E in Ht, Hp; rewrite (kept_bytes_plain _ Hp) in Ht.
    destruct (offset_upto pre marker (PyStr.drop 1 marker ++ rest))
      as (i & Hi & Hle).
    rewrite Hi in Ht.
    pose proof (length_take_le i
                  (pre ++ marker ++ PyStr.drop 1 marker ++ rest)) as Hlen.
    rewrite Ht, length_append in Hlen.
    change (String.length marker_head) with 20 in Hlen. lia.
  - intros He; f_equal; apply kept_bytes_after_append; assumption.
Qed.

(** The theorem at the text [Hello], which gets back from under a
    block, and at the text of the boundary example, which does not. *)
Lemma append_then_truncate_witness :
  open_read
    (truncate_at_marker ("Hello" ++ marker ++ "- [Alpha](a.md)" ++ nl)
       [ (["w"; "docs"; "a.md"],
          File ("Hello" ++ marker ++ "- [Alpha](a.md)" ++ nl)%string) ]
       ["w"; "docs"; "a.md"])
    ["w"; "docs"; "a.md"]
  = Ok "Hello" /\
  open_read
    (truncate_at_marker (Boundary.a_text ++ marker ++ "")
       Boundary.fs_once ["w"; "docs"; "a.md"])
    ["w"; "docs"; "a.md"]
  <> Ok Boundary.a_text.
Proof.
  split.
  - apply (append_then_truncate Sample.env _ ["w"; "docs"; "a.md"]
             "Hello" ("- [Alpha](a.md)" ++ nl) _ Sample_ascii_compatible);
      reflexivity.
  - intros H.
    apply (append_then_truncate Sample.env Boundary.fs_once
             ["w"; "docs"; "a.md"] Boundary.a_text "" _
             Sample_ascii_compatible eq_refl eq_refl eq_refl eq_refl) in H.
    discriminate H.
Defined.


(* ================================================================= *)
(** ** What a pass reads and writes *)

Lemma values_of_files (dir : MarkdownDirectory) (d : MarkdownFile) :
  In d (dict_values (files dir)) <-> exists k, In (k, d) (files dir).
Proof.
  unfold dict_values; rewrite in_map_iff; split.
  - intros ([k d'] & <- & Hin); exists k; exact Hin.
  - intros [k Hin]; exists (k, d); auto.
Qed.

Section Pass.
Variable env : Env.

(** A run over some documents, whether it returns or raises: the
    shape of the file system stays, and a file of none of them keeps
    its bytes. *)
Lemma add_each_frame (dir : MarkdownDirectory) (todo : list MarkdownFile) :
  forall fs fs',
    add_each env todo dir fs = Returns fs' \/
    (exists e, add_each env todo dir fs = Raises e fs') ->
    shape fs' = shape fs /\
    forall g, (forall d, In d todo -> file_of (getcwd env) (path d) <> g) ->
              open_read fs' g = open_read fs g.
Proof.
  induction todo as [|d todo IH]; intros fs fs'; cbn [add_each].
  - intros [[= <-]|[e H]]; [auto | discriminate H].
  - destruct (add_backlinks env d dir fs) as [fs1|e1 fs1] eqn:E1.
    + intros E2; destruct (IH _ _ E2) as [Hn Hr].
      destruct (add_backlinks_frame env d dir fs fs1 (or_introl E1))
        as [Hn1 Hr1].
      split; [congruence|].
      intros g Hg; rewrite Hr by (intros d' Hd'; apply Hg; right; exact Hd').
      apply Hr1; intros ->; apply (Hg d); [left|]; reflexivity.
    + intros [H|[e H]]; [discriminate H|].
      injection H as _ <-.
      destruct (add_backlinks_frame env d dir fs fs1
                  (or_intror (ex_intro _ e1 E1))) as [Hn1 Hr1].
      split; [exact Hn1|].
      intros g Hg; apply Hr1; intros ->; apply (Hg d); [left|]; reflexivity.
Qed.

(** A run that raises has reached, through calls that returned, the
    call that raised. *)
Lemma add_each_Raises (dir : MarkdownDirectory) (todo : list MarkdownFile) :
  forall fs fs' e,
    add_each env todo dir fs = Raises e fs' ->
    exists pre self post s,
      todo = (pre ++ self :: post)%list /\
      add_each env pre dir fs = Returns s /\
      add_backlinks env self dir s = Raises e fs'.
Proof.
  induction todo as [|d todo IH]; intros fs fs' e; cbn [add_each];
    [discriminate|].
  destruct (add_backlinks env d dir fs) as [fs1|e1 fs1] eqn:E1.
  - intros E2; destruct (IH _ _ _ E2) as (pre & self & post & s & -> & Hp & Hs).
    exists (d :: pre), self, post, s; cbn [add_each app]; rewrite E1; auto.
  - intros [= <- <-]; exists [], d, todo, fs; auto.
Qed.

(** A run that returns has opened the file of every document it
    visited. *)
Lemma add_each_read (dir : MarkdownDirectory) (todo : list MarkdownFile) :
  forall fs fs',
    add_each env todo dir fs = Returns fs' ->
    forall d, In d todo ->
      exists bytes, open_read fs (file_of (getcwd env) (path d)) = Ok bytes.
Proof.
  induction todo as [|d0 todo IH]; intros fs fs'; cbn [add_each];
    [intros _ d []|].
  destruct (add_backlinks env d0 dir fs) as [fs1|] eqn:E1; [|discriminate].
  intros E2 d [<-|Hd].
  - apply add_backlinks_read in E1 as (b & _ & _ & _ & _ & Hb & _); eauto.
  - apply (open_read_is_file fs1 fs);
      [apply (add_backlinks_frame env d0 dir fs fs1 (or_introl E1))|].
    exact (IH _ _ E2 d Hd).
Qed.

Lemma add_each_not_KeyError (dir : MarkdownDirectory)
      (todo : list MarkdownFile) (fs fs' : FileSystem) (k : Path) :
  add_each env todo dir fs <> Raises (KeyError k) fs'.
Proof.
  intros H; apply add_each_Raises in H as (_ & self & _ & s & _ & _ & H).
  exact (add_backlinks_not_KeyError env self dir s fs' k H).
Qed.

End Pass.

(** X4. What the program writes.  A call of [add_backlinks], whether
    it returns or raises, leaves the names of the file system as they
    were, files as files and directories as directories, and changes
    no file but the document's own; a call of [add_all_backlinks]
    leaves them so and changes no file that is not the file of a
    document of the collection.  No file is created, removed or
    renamed. *)
Theorem writes_stay_in_documents (env : Env) (dir : MarkdownDirectory) :
  (forall self fs fs',
      add_backlinks env self dir fs = Returns fs' \/
      (exists e, add_backlinks env self dir fs = Raises e fs') ->
      map fst fs' = map fst fs /\
      shape fs' = shape fs /\
      forall g, g <> file_of (getcwd env) (path self) ->
                open_read fs' g = open_read fs g) /\
  (forall fs fs',
      add_all_backlinks env dir fs = Returns fs' \/
      (exists e, add_all_backlinks env dir fs = Raises e fs') ->
      map fst fs' = map fst fs /\
      shape fs' = shape fs /\
      forall g, (forall k d, In (k, d) (files dir) ->
                             file_of (getcwd env) (path d) <> g) ->
                open_read fs' g = open_read fs g).
Proof.
  split.
  - intros self fs fs' H.
    destruct (add_backlinks_frame env self dir fs fs' H) as [Hs Hr].
    split; [apply shape_names; exact Hs | auto].
  - intros fs fs' H; unfold add_all_backlinks in H.
    destruct (add_each_frame env _ _ _ _ H) as [Hs Hr].
    split; [apply shape_names; exact Hs|]. split; [exact Hs|].
    intros g Hg; apply Hr; intros d Hd.
    apply values_of_files in Hd as [k Hin]; exact (Hg k d Hin).
Qed.

(** The theorem on the two documents among other files: after the pass
    the text file, the upper-case markdown file and the file outside
    the directory read as before; and after a pass that fails on the
    emptied [b.md], the names are as they were. *)
Lemma writes_stay_in_documents_witness :
  add_all_backlinks Sample.env Two.dir Mixed.fs = Returns Mixed.fs_after /\
  map fst Mixed.fs_after = map fst Mixed.fs /\
  open_read Mixed.fs_after ["w"; "docs"; "notes.txt"]
  = open_read Mixed.fs ["w"; "docs"; "notes.txt"] /\
  open_read Mixed.fs_after ["w"; "other"; "c.md"]
  = open_read Mixed.fs ["w"; "other"; "c.md"] /\
  (forall fs', add_all_backlinks Sample.env Two.dir Deleted.fs_emptied
               = Raises ParserError fs' ->
               map fst fs' = map fst Deleted.fs_emptied).
Proof.
  assert (H : add_all_backlinks Sample.env Two.dir Mixed.fs
              = Returns Mixed.fs_after) by reflexivity.
  split; [exact H|].
  destruct (writes_stay_in_documents Sample.env Two.dir) as [_ Hpass].
  destruct (Hpass _ _ (or_introl H)) as (Hn & _ & Hr).
  split; [exact Hn|].
  split; [|split].
  - apply Hr; intros k d [[= <- <-]|[[= <- <-]|[]]]; discriminate.
  - apply Hr; intros k d [[= <- <-]|[[= <- <-]|[]]]; discriminate.
  - intros fs' H'; apply (Hpass Deleted.fs_emptied fs').
    right; exists ParserError; exact H'.
Defined.

(** X5. When the pass fails.  A call of [add_all_backlinks] that
    raises leaves the names of the file system as they were, with an
    exception of one of four kinds, each for a document of the
    collection or for a line of a block: the file of the document
    cannot be opened, and could not before the pass
    ([FileNotFoundError], [IsADirectoryError] or
    [NotADirectoryError]); its bytes, as the pass left them, do not
    decode ([UnicodeDecodeError]); its text, as the pass left it, has
    no rendering ([ParserError]); or a line cannot be encoded
    ([UnicodeEncodeError]).  It never raises [KeyError].  A call that
    returns has found a regular file for every document; and on an
    empty collection the call returns and changes nothing. *)
Theorem pass_failure_causes (env : Env) (dir : MarkdownDirectory)
        (fs : FileSystem) :
  (forall e fs',
      add_all_backlinks env dir fs = Raises e fs' ->
      shape fs' = shape fs /\
      ((exists k d,
           In (k, d) (files dir) /\
           ((open_read fs (file_of (getcwd env) (path d)) = Raise e /\
             (e = FileNotFoundError (file_of (getcwd env) (path d)) \/
              e = IsADirectoryError (file_of (getcwd env) (path d)) \/
              e = NotADirectoryError (file_of (getcwd env) (path d)))) \/
            (exists bytes,
                open_read fs' (file_of (getcwd env) (path d)) = Ok bytes /\
                decode env bytes = None /\ e = UnicodeDecodeError bytes) \/
            (exists bytes text,
                open_read fs' (file_of (getcwd env) (path d)) = Ok bytes /\
                decode env bytes = Some text /\
                renders env text = false /\ e = ParserError))) \/
       (exists text, encode env text = None /\ e = UnicodeEncodeError text))) /\
  (forall k fs', add_all_backlinks env dir fs <> Raises (KeyError k) fs') /\
  (forall fs',
      add_all_backlinks env dir fs = Returns fs' ->
      forall k d, In (k, d) (files dir) ->
        exists bytes,
          open_read fs (file_of (getcwd env) (path d)) = Ok bytes) /\
  (files dir = [] -> add_all_backlinks env dir fs = Returns fs).
Proof.
  split; [|split; [|split]].
  - intros e fs' H.
    pose proof (add_each_frame env dir _ fs fs'
                  (or_intror (ex_intro _ e H))) as [Hshape _].
    split; [exact Hshape|].
    unfold add_all_backlinks in H.
    apply add_each_Raises in H as (pre & self & post & s & Etodo & Hpre & H).
    assert (Hself : exists k, In (k, self) (files dir)).
    { apply values_of_files; rewrite Etodo.
      apply in_or_app; right; left; reflexivity. }
    assert (Hdoc : forall d,
               (d = self \/ exists k, In (k, d) (files dir)) ->
               exists k, In (k, d) (files dir))
      by (intros d [->|Hd]; assumption).
    assert (Hopen : forall d,
               open_read fs' (file_of (getcwd env) (path d)) = Raise e ->
               open_read fs (file_of (getcwd env) (path d)) = Raise e /\
               (e = FileNotFoundError (file_of (getcwd env) (path d)) \/
                e = IsADirectoryError (file_of (getcwd env) (path d)) \/
                e = NotADirectoryError (file_of (getcwd env) (path d)))).
    { intros d Hd; split; [exact (open_read_raise_shape _ _ _ _ Hshape Hd)|].
      apply open_read_raise in Hd as [[-> _]|[[-> _]|[-> _]]]; auto. }
    apply add_backlinks_Raises in H
      as [[Hr ->]|[(c & d & _ & _ & Hd & Hr)
                  |(c & l & t & w & _ & _ & _ & Ht & -> & _)]].
    + left; destruct Hself as [k Hk]; exists k, self; split; [exact Hk|].
      apply read_text_raise in Hr as [Hr|(b & Hb & Hdec & ->)].
      * left; apply Hopen; exact Hr.
      * right; left; eauto.
    + left; destruct (Hdoc d Hd) as [k Hk]; exists k, d; split; [exact Hk|].
      apply doctree_raise_kind in Hr
        as [Hr|[(b & Hb & Hdec & ->)|(b & t & Hb & Hdec & Hrend & ->)]].
      * left; apply Hopen; exact Hr.
      * right; left; eauto.
      * right; right; eauto 6.
    + right; eauto.
  - intros k fs'; apply add_each_not_KeyError.
  - intros fs' H k d Hin.
    apply (add_each_read env dir _ fs fs' H), values_of_files; eauto.
  - intros E; unfold add_all_backlinks; rewrite E; reflexivity.
Qed.

(** The theorem on the two-document collection: with both files the
    pass returns, and both are regular files; after [b.md] was
    deleted it raises [FileNotFoundError] for [/w/docs/b.md]; after
    [b.md] was emptied it raises [ParserError]; and where a directory
    has the name of [b.md] it raises [IsADirectoryError]. *)
Lemma pass_failure_causes_witness :
  add_all_backlinks Sample.env Two.dir Two.fs = Returns Two.fs_after /\
  (forall k d, In (k, d) (files Two.dir) ->
     exists bytes,
       open_read Two.fs (file_of (getcwd Sample.env) (path d)) = Ok bytes) /\
  add_all_backlinks Sample.env Two.dir Deleted.fs
  = Raises (FileNotFoundError ["w"; "docs"; "b.md"]) Deleted.fs /\
  add_all_backlinks Sample.env Two.dir Deleted.fs_emptied
  = Raises ParserError Deleted.fs_emptied /\
  add_all_backlinks Sample.env Two.dir
    [ (["w"; "docs"; "a.md"], File Two.a_text);
      (["w"; "docs"; "b.md"; "notes.txt"], File "old") ]
  = Raises (IsADirectoryError ["w"; "docs"; "b.md"])
      [ (["w"; "docs"; "a.md"], File Two.a_text);
        (["w"; "docs"; "b.md"; "notes.txt"], File "old") ] /\
  shape Deleted.fs_emptied = shape Deleted.fs_emptied.
Proof.
  destruct (pass_failure_causes Sample.env Two.dir Two.fs)
    as (_ & _ & Hret & _).
  destruct (pass_failure_causes Sample.env Two.dir Deleted.fs_emptied)
    as (Hraise & _).
  split; [reflexivity|]. split; [exact (Hret Two.fs_after eq_refl)|].
  split; [reflexivity|]. split; [reflexivity|]. split; [reflexivity|].
  exact (proj1 (Hraise ParserError Deleted.fs_emptied eq_refl)).
Defined.

(* ================================================================= *)
(** ** What a pass does to each document *)

Section Documents.
Variable env : Env.

(** A run over documents with pairwise distinct files gives each the
    bytes kept of it and a block, computed in the state in which the
    run reached the document. *)
Lemma add_each_keeps_bytes (dir : MarkdownDirectory)
      (todo : list (Path * MarkdownFile)) :
  NoDup (map (fun kd : Path * MarkdownFile =>
                file_of (getcwd env) (path (snd kd)))
             todo) ->
  forall fs fs',
    add_each env (map snd todo) dir fs = Returns fs' ->
    forall k d, In (k, d) todo ->
      exists before after s bytes content listed entries block,
        todo = (before ++ (k, d) :: after)%list /\
        add_each env (map snd before) dir fs = Returns s /\
        open_read fs (file_of (getcwd env) (path d)) = Ok bytes /\
        open_read s (file_of (getcwd env) (path d)) = Ok bytes /\
        decode env bytes = Some content /\
        compute_backlinks env d dir
          (truncate_at_marker content s (file_of (getcwd env) (path d)))
        = Ok listed /\
        mapM (backlink_line env d dir) listed = Ok entries /\
        encode_lines env (separator :: heading_line :: entries) = Some block /\
        open_read fs' (file_of (getcwd env) (path d))
        = Ok (kept_bytes content bytes ++ block)%string.
Proof.
  induction todo as [|[k0 d0] todo IH]; intros Hnd fs fs';
    [intros _ k d []|].
  cbn [map snd add_each] in *.
  inversion Hnd as [|? ? Hnotin Hnd']; subst.
  destruct (add_backlinks env d0 dir fs) as [fs1|] eqn:E1; [|discriminate].
  intros E2 k d [[= <- <-]|Hin].
  - destruct (add_backlinks_read env _ _ _ _ E1)
      as (b & c & bl & en & block & Hb & Hc & Hbl & Hen & Hblock & Hread).
    exists [], todo, fs, b, c, bl, en, block.
    repeat split; try assumption.
    rewrite <- Hread.
    apply (add_each_frame env dir (map snd todo) fs1 fs' (or_introl E2)).
    intros d' Hd' E; apply Hnotin.
    apply in_map_iff in Hd' as ([k' d''] & <- & Hin').
    apply in_map_iff; exists (k', d''); auto.
  - destruct (IH Hnd' _ _ E2 k d Hin)
      as (before & after & s & b & c & bl & en & block
          & -> & Hrun & Hb & Hrest).
    exists ((k0, d0) :: before), after, s, b, c, bl, en, block.
    split; [reflexivity|].
    split; [cbn [map snd add_each]; rewrite E1; exact Hrun|].
    split; [|exact Hrest].
    rewrite <- Hb; symmetry.
    apply (add_backlinks_frame env d0 dir fs fs1 (or_introl E1)).
    intros E; apply Hnotin.
    apply in_map_iff; exists (k, d); split; [exact E|].
    apply in_or_app; right; left; reflexivity.
Qed.

End Documents.

(** X6. Calling [add_backlinks] again changes nothing, on plain text.
    Under an encoding that reads plain text as it is written, when the
    file is plain text before and after a call that returns, and the
    bytes kept by the truncation do not end with the marker less its
    final line feed, then a second call on the same document, right
    after the first, returns the file system that the first call
    left: the block is rewritten with the same entries, in the same
    order. *)
Theorem add_backlinks_again (env : Env)
        (self : MarkdownFile) (dir : MarkdownDirectory)
        (fs fs1 : FileSystem) (bytes bytes1 : string) :
  ascii_compatible env ->
  open_read fs (file_of (getcwd env) (path self)) = Ok bytes ->
  PyStr.plain bytes = true ->
  PyStr.endswith (kept_bytes bytes bytes) marker_head = false ->
  add_backlinks env self dir fs = Returns fs1 ->
  open_read fs1 (file_of (getcwd env) (path self)) = Ok bytes1 ->
  PyStr.plain bytes1 = true ->
  add_backlinks env self dir fs1 = Returns fs1.
Proof.
  intros Hcodec Hb Hp He H1 Hb1 Hp1.
  pose proof H1 as H1'.
  apply add_backlinks_Returns in H1' as (c & lines & block & Hc & Hl & Hblock & E1).
  pose proof (read_text_plain env Hcodec _ _ _ c Hp Hb Hc) as ->.
  set (f := file_of (getcwd env) (path self)) in *.
  set (kept := kept_bytes bytes bytes) in *.
  assert (Es1 : truncate_at_marker bytes fs f = update fs f (fun _ => kept))
    by (apply truncate_as_update; exact Hb).
  rewrite Es1 in Hl, E1.
  assert (Efs1 : fs1 = update fs f (fun _ => (kept ++ block)%string))
    by (rewrite E1;
        exact (update_update fs f (fun _ => kept)
                             (fun old => (old ++ block)%string))).
  assert (Ebytes1 : bytes1 = (kept ++ block)%string).
  { pose proof (open_read_update_same fs f
                  (fun _ => (kept ++ block)%string) bytes Hb) as H.
    rewrite <- Efs1 in H; congruence. }
  pose proof Hl as Hl'.
  apply block_lines_Ok in Hl' as (bl & en & _ & _ & ->).
  apply encode_lines_cons in Hblock as (b1 & r1 & Hs & Hr1 & Eblock).
  apply encode_lines_cons in Hr1 as (b2 & r2 & Hh & Hr2 & Er1).
  pose proof (proj2 (Hcodec separator eq_refl)) as Hs'.
  pose proof (proj2 (Hcodec heading_line eq_refl)) as Hh'.
  assert (Eblock' : block = (marker ++ r2)%string).
  { rewrite Eblock, Er1, <- separator_heading, append_assoc.
    congruence. }
  assert (Hkept1 : kept_bytes bytes1 bytes1 = kept).
  { rewrite Ebytes1, Eblock'.
    apply kept_bytes_after_append.
    - rewrite <- Eblock', <- Ebytes1; exact Hp1.
    - apply kept_bytes_no_marker; exact Hp.
    - exact He. }
  assert (Hc1 : read_text env fs1 f = Ok bytes1)
    by (apply read_text_Ok; exists bytes1; split;
        [exact Hb1 | apply (Hcodec bytes1 Hp1)]).
  assert (Es1' : truncate_at_marker bytes1 fs1 f = update fs f (fun _ => kept)).
  { rewrite (truncate_as_update bytes1 bytes1 fs1 f Hb1), Hkept1, Efs1.
    exact (update_update fs f (fun _ => (kept ++ block)%string)
                         (fun _ => kept)). }
  apply add_backlinks_Returns.
  exists bytes1, (separator :: heading_line :: en), block.
  fold f; rewrite Es1'.
  split; [exact Hc1|]. split; [exact Hl|]. split; [|exact E1].
  apply encode_lines_cons; exists b1, r1; split; [exact Hs|].
  split; [|exact Eblock].
  apply encode_lines_cons; exists b2, r2; auto.
Qed.

(** The theorem at [c.md] of the three documents where [a.md] and
    [b.md] link to [c.md]: the second call leaves the file system of
    the first. *)
Lemma add_backlinks_again_witness :
  add_backlinks Fan.env Docs.gamma Three.dir Fan.fs
  = Returns Fan.fs_after_c /\
  add_backlinks Fan.env Docs.gamma Three.dir Fan.fs_after_c
  = Returns Fan.fs_after_c.
Proof.
  assert (H : add_backlinks Fan.env Docs.gamma Three.dir Fan.fs
              = Returns Fan.fs_after_c) by reflexivity.
  split; [exact H|].
  apply (add_backlinks_again Fan.env Docs.gamma Three.dir
           Fan.fs Fan.fs_after_c Fan.c_text Fan.c_after
           Fan_ascii_compatible);
    try reflexivity; exact H.
Defined.

(** X7. What the pass leaves of every document.  On a collection
    whose documents have pairwise distinct files, a pass that returns
    has visited each document once, in the order of the collection,
    in the state that the calls for the documents before it left; its
    file had until then the bytes it had before the pass.  After the
    pass the file holds the bytes kept by the truncation, followed by
    the encoding of the separator, of the heading and of the entries
    of the backlinks computed at the visit.  Where the file was plain
    text under an encoding that reads plain text as it is written, the
    kept bytes are the bytes before the first marker: nothing before
    it is changed, and nothing from it on is kept. *)
Theorem pass_keeps_document_text (env : Env)
        (dir : MarkdownDirectory) (fs fs' : FileSystem) :
  distinct_files (getcwd env) dir ->
  add_all_backlinks env dir fs = Returns fs' ->
  forall k d, In (k, d) (files dir) ->
    exists before after s bytes content listed entries block,
      files dir = (before ++ (k, d) :: after)%list /\
      add_each env (map snd before) dir fs = Returns s /\
      open_read fs (file_of (getcwd env) (path d)) = Ok bytes /\
      open_read s (file_of (getcwd env) (path d)) = Ok bytes /\
      decode env bytes = Some content /\
      compute_backlinks env d dir
        (truncate_at_marker content s (file_of (getcwd env) (path d)))
      = Ok listed /\
      mapM (backlink_line env d dir) listed = Ok entries /\
      encode_lines env (separator :: heading_line :: entries) = Some block /\
      open_read fs' (file_of (getcwd env) (path d))
      = Ok (kept_bytes content bytes ++ block)%string /\
      (ascii_compatible env -> PyStr.plain bytes = true ->
       content = bytes /\
       PyStr.find marker (kept_bytes content bytes) = None /\
       exists cut,
         bytes = (kept_bytes content bytes ++ cut)%string /\
         (cut = "" \/ exists rest, cut = (marker ++ rest)%string)).
Proof.
  intros Hd H k d Hin.
  destruct (add_each_keeps_bytes env dir (files dir) Hd fs fs' H k d Hin)
    as (before & after & s & b & c & bl & en & block
        & E & Hrun & Hb & Hs & Hc & Hbl & Hen & Hblock & Hread).
  exists before, after, s, b, c, bl, en, block.
  repeat (split; [assumption|]).
  intros Hcodec Hp.
  assert (c = b) by (destruct (Hcodec b Hp); congruence); subst c.
  split; [reflexivity|].
  split; [apply find_None, kept_bytes_no_marker; exact Hp|].
  destruct (kept_bytes_cut b Hp) as (cut & Hcut & Hcase).
  exists cut; split; [exact Hcut|].
  destruct Hcase as [[_ H0]|[_ H0]]; auto.
Qed.

(** The theorem on the two-document collection, run on files that
    already carry their blocks: [b.md] is visited after [a.md], keeps
    its own text and gets its block anew. *)
Lemma pass_keeps_document_text_witness :
  add_all_backlinks Sample.env Two.dir Two.fs_after = Returns Two.fs_after /\
  exists s listed entries,
    add_each Sample.env [Docs.alpha] Two.dir Two.fs_after = Returns s /\
    compute_backlinks Sample.env Docs.beta Two.dir
      (truncate_at_marker Two.b_after s
                          (file_of (getcwd Sample.env) (path Docs.beta)))
    = Ok listed /\
    mapM (backlink_line Sample.env Docs.beta Two.dir) listed = Ok entries /\
    open_read Two.fs_after (file_of (getcwd Sample.env) (path Docs.beta))
    = Ok (Two.b_text ++ marker ++ String.concat "" entries)%string /\
    PyStr.find marker Two.b_text = None.
Proof.
  assert (Hd : distinct_files (getcwd Sample.env) Two.dir).
  { repeat constructor; simpl; intuition discriminate. }
  split; [reflexivity|].
  destruct (pass_keeps_document_text Sample.env Two.dir
              Two.fs_after Two.fs_after Hd eq_refl Docs.b_md Docs.beta
              (or_intror (or_introl eq_refl)))
    as (before & after & s & b & c & bl & en & block
        & E & Hrun & Hb & Hs & Hc & Hbl & Hen & Hblock & Hread & Hplain).
  assert (before = [(Docs.a_md, Docs.alpha)]).
  { destruct before as [|x [|y before]]; vm_compute in E.
    - discriminate E.
    - injection E as <- _; reflexivity.
    - injection E as _ _ E; destruct before; discriminate E. }
  subst before.
  injection Hb as <-.
  destruct (Hplain Sample_ascii_compatible eq_refl) as (-> & Hnone & _).
  exists s, bl, en.
  split; [exact Hrun|]. split; [exact Hbl|]. split; [exact Hen|].
  vm_compute in Hrun; injection Hrun as <-.
  vm_compute in Hbl; injection Hbl as <-.
  vm_compute in Hen; injection Hen as <-.
  split; reflexivity.
Defined.

(** X8. No document is listed twice.  On a collection without
    repeated keys, the backlinks computed for a document are pairwise
    distinct, so a block has at most one entry for each document of
    the collection. *)
Theorem no_backlink_listed_twice (env : Env)
        (self : MarkdownFile) (dir : MarkdownDirectory) (fs : FileSystem)
        (backlinks : list Path) :
  NoDup (dict_keys (files dir)) ->
  compute_backlinks env self dir fs = Ok backlinks ->
  NoDup backlinks.
Proof.
  intros Hnd H.
  apply compute_backlinks_perm in H as (candidates & Hc & Hp).
  apply (Permutation_NoDup (Permutation_sym Hp)).
  exact (backlink_candidates_NoDup env self dir fs candidates Hnd Hc).
Qed.

(** The theorem on the three documents where [a.md] and [b.md] link
    to [c.md]: the two backlinks of [c.md] are distinct. *)
Lemma no_backlink_listed_twice_witness :
  compute_backlinks Fan.env Docs.gamma Three.dir Fan.fs
  = Ok [Docs.b_md; Docs.a_md] /\
  NoDup [Docs.b_md; Docs.a_md].
Proof.
  assert (H : compute_backlinks Fan.env Docs.gamma Three.dir Fan.fs
              = Ok [Docs.b_md; Docs.a_md]) by reflexivity.
  split; [exact H|].
  apply (no_backlink_listed_twice Fan.env Docs.gamma Three.dir Fan.fs);
    [|exact H].
  repeat constructor; simpl; intuition discriminate.
Defined.

(* ================================================================= *)
(** ** Discovery and keys for any spelling of the root *)

Lemma last_app_cons {A} (l : list A) (x : A) (r : list A) (d : A) :
  last (l ++ x :: r) d = last (x :: r) d.
Proof.
  induction l as [|y l IH]; [reflexivity|].
  rewrite <- IH; simpl app.
  destruct (l ++ x :: r) eqn:E; [destruct l; discriminate E | reflexivity].
Qed.

Lemma length_removelast {A} (l : list A) :
  l <> [] -> List.length l = S (List.length (removelast l)).
Proof.
  induction l as [|x l IH]; [congruence|]; intros _.
  destruct l as [|y l]; [reflexivity|].
  change (removelast (x :: y :: l)) with (x :: removelast (y :: l)).
  cbn [List.length]; f_equal; apply IH; discriminate.
Qed.

(** A name matches [*.md] when it ends with [.md]. *)
Lemma matches_md_spec (name : string) :
  matches_md name = true <-> exists stem, name = (stem ++ ".md")%string.
Proof.
  unfold matches_md; split.
  - intros H; apply andb_true_iff in H as [_ H]; apply String.eqb_eq in H.
    exists (PyStr.take (String.length name - 3) name).
    rewrite <- H; apply take_drop.
  - intros [stem ->]; rewrite length_append.
    change (String.length ".md") with 3.
    apply andb_true_iff; split; [apply Nat.leb_le; lia|].
    replace (String.length stem + 3 - 3) with (String.length stem + 0) by lia.
    rewrite drop_append; reflexivity.
Qed.

(** Writing a path of file-system components as text and parsing the
    text gives the path back, whatever its root. *)
Lemma of_string_str_wf (q : Path) :
  Forall wf_component (parts q) -> Pathlib.of_string (Pathlib.str q) = q.
Proof.
  destruct q as [r l]; intros Hwf; simpl in Hwf.
  rewrite Forall_forall in Hwf.
  assert (Hhead : forall x l', l = x :: l' ->
            exists c t, PyStr.join "/" l = String c t /\ c <> "/"%char).
  { intros x l' ->.
    destruct (Hwf x (or_introl eq_refl)) as (Hne & _ & Hs).
    destruct x as [|c x]; [congruence|].
    simpl in Hs; rewrite orb_false_iff in Hs; destruct Hs as [Hc _].
    exists c; destruct l'; simpl; eexists; (split; [reflexivity|]);
      intros ->; discriminate Hc. }
  assert (Hparts : filter Pathlib.keep_component (PyStr.split "/" (PyStr.join "/" l))
                   = l).
  { destruct l as [|x l']; [reflexivity|].
    rewrite split_join; [| discriminate | intros y Hy; apply (Hwf y Hy)].
    apply filter_keep_all; intros y Hy; destruct (Hwf y Hy) as (? & ? & _); auto. }
  destruct r; unfold Pathlib.str; cbn [root parts].
  - clear Hhead Hparts.
    destruct l as [|x l']; [reflexivity | apply (of_string_join (x :: l') Hwf)].
  - change ("/" ++ PyStr.join "/" l)%string with (String "/" (PyStr.join "/" l)).
    unfold Pathlib.of_string; f_equal.
    + destruct l as [|x l']; [reflexivity|].
      destruct (Hhead x l' eq_refl) as (c & t & -> & Hc).
      unfold Pathlib.splitroot.
      destruct c as [[] [] [] [] [] [] [] []]; try reflexivity; congruence.
    + change (String "/" (PyStr.join "/" l))
        with ("" ++ String "/" (PyStr.join "/" l))%string.
      rewrite split_append_sep by reflexivity.
      simpl filter; exact Hparts.
  - change ("//" ++ PyStr.join "/" l)%string
      with (String "/" (String "/" (PyStr.join "/" l))).
    unfold Pathlib.of_string; f_equal.
    + destruct l as [|x l']; [reflexivity|].
      destruct (Hhead x l' eq_refl) as (c & t & -> & Hc).
      unfold Pathlib.splitroot.
      destruct c as [[] [] [] [] [] [] [] []]; try reflexivity; congruence.
    + change (String "/" (String "/" (PyStr.join "/" l)))
        with ("" ++ String "/" ("" ++ String "/" (PyStr.join "/" l)))%string.
      rewrite !split_append_sep by reflexivity.
      simpl filter; exact Hparts.
Qed.

(** A link is never a relative path. *)
Lemma splitroot_slash (s : string) :
  Pathlib.splitroot (String "/" s) <> Relative.
Proof.
  destruct s as [|c s]; [discriminate|].
  destruct c as [[] [] [] [] [] [] [] []]; try discriminate.
  destruct s as [|c s]; [discriminate|].
  destruct c as [[] [] [] [] [] [] [] []]; discriminate.
Qed.

Lemma links_rooted (cwd : list string)
      (a_hrefs : string -> list (option string))
      (self : MarkdownFile) (content : string) (q : Path) :
  In (Some q) (links_of_content cwd a_hrefs self content) ->
  root q <> Relative.
Proof.
  intros H; apply links_of_content_In in H as [(h & _ & E) _].
  destruct h as [[|c s]|]; try discriminate E.
  unfold get_absolute_path in E.
  destruct (Ascii.eqb c "/") eqn:Ec; injection E as ->.
  - apply Ascii.eqb_eq in Ec; subst c; apply splitroot_slash.
  - discriminate.
Qed.

Section Discovery.
Variable env : Env.

(** The key computed for a found path: a base that depends on the root
    alone, followed by the location below the root. *)
Lemma resolved_key_found (p : Path) (rel : list string) :
  Forall wf_component (parts p) -> Forall wf_component rel ->
  ~ In ".." rel ->
  resolved_key (getcwd env) p (mkPath (root p) (parts p ++ rel))
  = mkPath Slash
      (OsPath.normalise
         (match root p with
          | Relative =>
              absolute_parts (getcwd env) (Pathlib.parent p) ++ parts p
          | _ => parts p
          end) ++ rel).
Proof.
  intros Hp Hrel Hdd; unfold resolved_key, Pathlib.joinpath.
  rewrite of_string_str_wf by (apply Forall_app; split; assumption).
  cbn [root parts].
  destruct (root p) eqn:Hr; unfold resolve at 1; f_equal.
  - unfold absolute_parts at 1; cbn [root parts resolve].
    rewrite normalise_app, app_assoc; apply normalise_snoc; exact Hdd.
  - unfold absolute_parts; cbn [root parts].
    apply normalise_snoc; exact Hdd.
  - unfold absolute_parts; cbn [root parts].
    apply normalise_snoc; exact Hdd.
Qed.

(** With the root absolute, or relative with at most one component,
    the base of the keys is the location of the root. *)
Lemma key_base_is_root (p : Path) :
  root p <> Relative \/ List.length (parts p) <= 1 ->
  OsPath.normalise
    (match root p with
     | Relative => absolute_parts (getcwd env) (Pathlib.parent p) ++ parts p
     | _ => parts p
     end)
  = file_of (getcwd env) p.
Proof.
  intros H; unfold file_of, resolve; cbn [parts]; unfold absolute_parts.
  destruct (root p) eqn:Hr; try reflexivity.
  destruct H as [H|H]; [congruence|].
  unfold Pathlib.parent; cbn [root parts]; rewrite Hr.
  destruct (parts p) as [|x [|y l]]; simpl in H; try lia;
    simpl removelast; rewrite app_nil_r; reflexivity.
Qed.

Section Found.
Variable path_string : string.
Variable fs : FileSystem.
Hypothesis Hfs :
  forall entry, In entry fs ->
                Forall wf_component (fst entry) /\ ~ In ".." (fst entry).

Lemma root_parts_wf : Forall wf_component (parts (Pathlib.of_string path_string)).
Proof.
  apply Forall_forall; intros x Hx.
  destruct (of_string_parts _ _ Hx) as (? & ? & ? & _); repeat split; assumption.
Qed.

(** The found paths are the names below the root that exist and end
    with [.md]; the location of each below the root is made of
    file-system components, and its file is the name it was found
    for. *)
Lemma found_path (q : Path) :
  In q (rglob_md (getcwd env) (Pathlib.of_string path_string) fs) <->
  exists rel stem,
    q = mkPath (root (Pathlib.of_string path_string))
               (parts (Pathlib.of_string path_string) ++ rel) /\
    last rel "" = (stem ++ ".md")%string /\
    present fs (file_of (getcwd env) (Pathlib.of_string path_string) ++ rel).
Proof.
  rewrite rglob_md_found; split.
  - intros (pre & x & more & n & Hin & Hm & ->).
    apply matches_md_spec in Hm as [stem Hstem].
    exists (pre ++ [x])%list, stem; split; [reflexivity|].
    split; [rewrite last_last; exact Hstem|].
    exists more, n; rewrite <- app_assoc; exact Hin.
  - intros (rel & stem & -> & Hstem & more & n & Hin).
    assert (Hne : rel <> [])
      by (intros ->; destruct stem; discriminate Hstem).
    rewrite (app_removelast_last "" Hne) in Hin |- *.
    exists (removelast rel), (last rel ""), more, n.
    split; [rewrite <- app_assoc in Hin; exact Hin|].
    split; [apply matches_md_spec; eauto | reflexivity].
Qed.

Lemma found_location (rel : list string) :
  present fs (file_of (getcwd env) (Pathlib.of_string path_string) ++ rel) ->
  Forall wf_component rel /\ ~ In ".." rel /\
  file_of (getcwd env)
          (mkPath (root (Pathlib.of_string path_string))
                  (parts (Pathlib.of_string path_string) ++ rel))
  = (file_of (getcwd env) (Pathlib.of_string path_string) ++ rel)%list.
Proof.
  intros (more & n & Hin).
  destruct (Hfs _ Hin) as [Hwf Hdd]; cbn [fst] in Hwf, Hdd.
  rewrite <- app_assoc in Hwf, Hdd.
  apply Forall_app in Hwf as [_ Hwf]; apply Forall_app in Hwf as [Hwf _].
  assert (Hdd' : ~ In ".." rel).
  { intros H; apply Hdd, in_or_app; right; apply in_or_app; left; exact H. }
  split; [exact Hwf|]. split; [exact Hdd'|].
  apply file_of_found; exact Hdd'.
Qed.

(** Distinct found paths have distinct keys. *)
Lemma resolved_key_inj (q q' : Path) :
  In q (rglob_md (getcwd env) (Pathlib.of_string path_string) fs) ->
  In q' (rglob_md (getcwd env) (Pathlib.of_string path_string) fs) ->
  resolved_key (getcwd env) (Pathlib.of_string path_string) q
  = resolved_key (getcwd env) (Pathlib.of_string path_string) q' ->
  q = q'.
Proof.
  intros Hq Hq' E.
  apply found_path in Hq as (rel & _ & -> & _ & Hp).
  apply found_path in Hq' as (rel' & _ & -> & _ & Hp').
  destruct (found_location rel Hp) as (Hwf & Hdd & _).
  destruct (found_location rel' Hp') as (Hwf' & Hdd' & _).
  rewrite !resolved_key_found in E by (assumption || apply root_parts_wf).
  injection E as E; apply app_inv_head in E; subst rel'; reflexivity.
Qed.

(** The comprehension returns when every found path renders. *)
Lemma build_files_total (found : list Path)
      (acc : list (Path * MarkdownFile)) :
  (forall q, In q found -> exists tree, doctree env q fs = Ok tree) ->
  exists fl,
    build_files env (Pathlib.of_string path_string) found fs acc = Ok fl.
Proof.
  revert acc; induction found as [|q found IH]; intros acc Hall;
    cbn [build_files]; [eauto|].
  destruct (Hall q (or_introl eq_refl)) as [tree Ht].
  unfold MarkdownFile_init; rewrite Ht; cbn [bind].
  apply IH; intros q' Hq'; apply Hall; right; exact Hq'.
Qed.

(** It raises where a found path does not. *)
Lemma build_files_renders (found : list Path)
      (acc fl : list (Path * MarkdownFile)) :
  build_files env (Pathlib.of_string path_string) found fs acc = Ok fl ->
  forall q, In q found -> exists tree, doctree env q fs = Ok tree.
Proof.
  revert acc; induction found as [|q0 found IH]; intros acc;
    cbn [build_files]; [intros _ q []|].
  unfold MarkdownFile_init.
  destruct (doctree env q0 fs) as [tree|] eqn:Et; cbn [bind]; [|discriminate].
  intros Eb q [<-|Hq]; [eauto | exact (IH _ Eb q Hq)].
Qed.

Lemma dict_set_has {V} (d : list (Path * V)) (k : Path) (v : V) :
  In (k, v) (dict_set d k v).
Proof.
  induction d as [|[k0 v0] d IH]; simpl; [left; reflexivity|].
  destruct (Path_eqb k0 k) eqn:E; [|right; exact IH].
  apply Path_eqb_eq in E; subst k0; left; reflexivity.
Qed.

Lemma dict_set_other {V} (d : list (Path * V)) (k k' : Path) (v v' : V) :
  In (k', v') d -> k' <> k -> In (k', v') (dict_set d k v).
Proof.
  induction d as [|[k0 v0] d IH]; simpl; [intros []|].
  intros [[= -> ->]|H] Hne.
  - destruct (Path_eqb k' k) eqn:E; [|left; reflexivity].
    apply Path_eqb_eq in E; congruence.
  - destruct (Path_eqb k0 k); [right; exact H | right; apply IH; assumption].
Qed.

(** No found path is lost: a later path with the same key would be the
    same path. *)
Lemma build_files_complete (found : list Path)
      (acc fl : list (Path * MarkdownFile)) :
  incl found (rglob_md (getcwd env) (Pathlib.of_string path_string) fs) ->
  (forall k d, In (k, d) acc ->
     In (path d) (rglob_md (getcwd env) (Pathlib.of_string path_string) fs) /\
     k = resolved_key (getcwd env) (Pathlib.of_string path_string) (path d)) ->
  build_files env (Pathlib.of_string path_string) found fs acc = Ok fl ->
  forall q, In q found \/ (exists k d, In (k, d) acc /\ path d = q) ->
            exists k d, In (k, d) fl /\ path d = q.
Proof.
  revert acc; induction found as [|q0 found IH]; intros acc Hincl Hacc;
    cbn [build_files].
  - intros [= <-] q [[]|H]; exact H.
  - destruct (MarkdownFile_init env q0 fs) as [file|] eqn:Ef;
      cbn [bind]; [|discriminate].
    pose proof (MarkdownFile_init_path env q0 fs file Ef) as Hpath.
    intros Eb q Hq.
    apply (IH (dict_set acc
                 (resolved_key (getcwd env) (Pathlib.of_string path_string) q0)
                 file)); [| | exact Eb |].
    + intros q' Hq'; apply Hincl; right; exact Hq'.
    + intros k d Hin; apply dict_set_In in Hin as [[-> ->]|Hin]; [|auto].
      rewrite Hpath; split; [apply Hincl; left|]; reflexivity.
    + assert (Hnew : exists k d,
                 In (k, d)
                    (dict_set acc
                       (resolved_key (getcwd env)
                                     (Pathlib.of_string path_string) q0)
                       file) /\ path d = q0)
        by (eexists; exists file; split; [apply dict_set_has | exact Hpath]).
      destruct Hq as [[<-|Hq]|(k & d & Hin & <-)]; [right; exact Hnew | auto |].
      destruct (Hacc k d Hin) as [Hfound Hk].
      destruct (Path_eqb k (resolved_key (getcwd env)
                                         (Pathlib.of_string path_string) q0))
        eqn:E.
      * apply Path_eqb_eq in E; rewrite Hk in E.
        apply resolved_key_inj in E;
          [| exact Hfound | apply Hincl; left; reflexivity].
        rewrite E; right; exact Hnew.
      * right; exists k, d; split; [|reflexivity].
        apply dict_set_other; [exact Hin|].
        intros ->; rewrite Path_eqb_refl in E; discriminate E.
Qed.


Section Keys.
Variable dir : MarkdownDirectory.
Hypothesis Hinit : MarkdownDirectory_init env path_string fs = Ok dir.

(** X10. Which keys are the locations of the files.  When the root is
    given as an absolute path, or as a relative path of at most one
    component, every document is stored under the resolved form of its
    own path, so the key names the document's file.  When the root is a
    relative path of two or more components (without [..], below a
    working directory without [..]), no document is stored under the
    resolved form of its path. *)
Theorem key_and_file_location (k : Path) (d : MarkdownFile) :
  In (k, d) (files dir) ->
  (root (Pathlib.of_string path_string) <> Relative \/
   List.length (parts (Pathlib.of_string path_string)) <= 1 ->
   k = resolve (getcwd env) (path d) /\
   parts k = file_of (getcwd env) (path d)) /\
  (root (Pathlib.of_string path_string) = Relative ->
   2 <= List.length (parts (Pathlib.of_string path_string)) ->
   ~ In ".." (parts (Pathlib.of_string path_string)) ->
   ~ In ".." (getcwd env) ->
   k <> resolve (getcwd env) (path d)).
Proof.
  intros Hin.
  destruct (init_files env path_string fs dir Hinit) as [_ Hall].
  destruct (Hall k d Hin) as (rel & more & n & Hfs' & _ & Hp & _ & Hk).
  assert (Hpres : present fs (file_of (getcwd env)
                                      (Pathlib.of_string path_string) ++ rel))
    by (exists more, n; rewrite <- app_assoc; exact Hfs').
  destruct (found_location rel Hpres) as (Hwf & Hdd' & Hfile).
  rewrite Hp, resolved_key_found in Hk
    by (assumption || apply root_parts_wf).
  assert (Hres : resolve (getcwd env) (path d)
                 = mkPath Slash
                     (file_of (getcwd env) (Pathlib.of_string path_string)
                        ++ rel)).
  { rewrite Hp.
    change (resolve (getcwd env) ?q)
      with (mkPath Slash (file_of (getcwd env) q)).
    rewrite Hfile; reflexivity. }
  split.
  - intros Hroot; rewrite (key_base_is_root _ Hroot) in Hk.
    assert (E : k = resolve (getcwd env) (path d)) by congruence.
    split; [exact E | rewrite E; reflexivity].
  - clear Hall Hp Hfs' Hpres Hfile.
    remember (Pathlib.of_string path_string) as p eqn:Ep; clear Ep.
    intros Hr Hlen Hnd Hcwd E.
    rewrite Hres, Hk, Hr in E; injection E as E.
    unfold file_of, resolve, absolute_parts, Pathlib.parent in E.
    cbn [root parts] in E; rewrite Hr in E.
    assert (Hrl : ~ In ".." (removelast (parts p)))
      by (intros H; apply Hnd, In_removelast; exact H).
    rewrite !normalise_fixed in E
      by (intros H; repeat (apply in_app_or in H as [H|H]); contradiction).
    apply (f_equal (@List.length string)) in E.
    rewrite !length_app in E.
    rewrite (length_removelast (parts p)) in Hlen, E
      by (intros H0; rewrite H0 in Hlen; simpl in Hlen; lia).
    lia.
Qed.

End Keys.
End Found.
End Discovery.

Lemma Mixed_canonical_names (entry : list string * node) :
  In entry Mixed.fs ->
  Forall wf_component (fst entry) /\ ~ In ".." (fst entry).
Proof. revert entry; example_canonical_names. Qed.

Lemma Mixed_directory_canonical_names (entry : list string * node) :
  In entry Mixed.fs_with_directory ->
  Forall wf_component (fst entry) /\ ~ In ".." (fst entry).
Proof. revert entry; example_canonical_names. Qed.

Lemma Nested_canonical_names (entry : list string * node) :
  In entry Nested.fs ->
  Forall wf_component (fst entry) /\ ~ In ".." (fst entry).
Proof. revert entry; example_canonical_names. Qed.


(** The theorem on the two-document collection built from the root
    [docs], where each key is the resolved path of its document, and on
    the collection built from the root [x/docs], where it is not. *)
Lemma key_and_file_location_witness :
  (Docs.a_md = resolve Sample.cwd (path TwoRelative.alpha) /\
   parts Docs.a_md = file_of Sample.cwd (path TwoRelative.alpha)) /\
  Nested.a_key <> resolve Sample.cwd Nested.a_rel.
Proof.
  split.
  - apply (key_and_file_location Sample.env "docs" Two.fs
             Two_canonical_names TwoRelative.dir eq_refl
             Docs.a_md TwoRelative.alpha (or_introl eq_refl)).
    right; simpl; lia.
  - apply (key_and_file_location Sample.env "x/docs" Nested.fs
             Nested_canonical_names Nested.dir eq_refl
             Nested.a_key (mkFile Nested.a_rel "Alpha") (or_introl eq_refl));
      [reflexivity | simpl; lia | | ]; simpl; intuition discriminate.
Defined.

(** X11. A relative root gives empty blocks.  When the directory is
    given as a relative path, every document stores a relative path;
    no link is a relative path, so no document is found in the links of
    another: the backlinks computed for it are empty in every state of
    the files, and a call of [add_backlinks] that returns has written
    the separator and the heading without entries, the marker where
    the encoding writes them as they are. *)
Theorem relative_root_blocks_are_empty (env : Env)
        (path_string : string) (fs0 : FileSystem) (dir : MarkdownDirectory)
        (k : Path) (d : MarkdownFile) :
  MarkdownDirectory_init env path_string fs0 = Ok dir ->
  root (Pathlib.of_string path_string) = Relative ->
  In (k, d) (files dir) ->
  root (path d) = Relative /\
  (forall fs backlinks,
      compute_backlinks env d dir fs = Ok backlinks ->
      backlinks = []) /\
  (forall fs fs',
      add_backlinks env d dir fs = Returns fs' ->
      exists bytes content block,
        open_read fs (file_of (getcwd env) (path d)) = Ok bytes /\
        decode env bytes = Some content /\
        encode_lines env [separator; heading_line] = Some block /\
        open_read fs' (file_of (getcwd env) (path d))
        = Ok (kept_bytes content bytes ++ block)%string /\
        (encode env separator = Some separator ->
         encode env heading_line = Some heading_line ->
         open_read fs' (file_of (getcwd env) (path d))
         = Ok (kept_bytes content bytes ++ marker)%string)).
Proof.
  intros Hinit Hr Hin.
  destruct (init_files env path_string fs0 dir Hinit) as [_ Hall].
  destruct (Hall k d Hin) as (rel & _ & _ & _ & _ & Hp & _ & _).
  assert (Hrel : root (path d) = Relative) by (rewrite Hp; exact Hr).
  assert (Hempty : forall fs backlinks,
             compute_backlinks env d dir fs = Ok backlinks ->
             backlinks = []).
  { intros fs backlinks H.
    destruct backlinks as [|b bl]; [reflexivity | exfalso].
    pose proof H as H'.
    apply compute_backlinks_Ok in H' as (c & Hc & _).
    apply backlink_candidates_Ok in Hc as (lm & own & _ & Eo & _).
    destruct (proj1 (compute_backlinks_In env d dir fs _ own b H Eo)
                    (or_introl eq_refl))
      as [(value & _ & (file & _ & Hl) & Hmem) _].
    apply links_inv in Hl as (tree & _ & ->).
    exact (links_rooted _ _ _ _ _ Hmem Hrel). }
  split; [exact Hrel|]. split; [exact Hempty|].
  intros fs fs' H.
  destruct (add_backlinks_read env _ _ _ _ H)
    as (b & c & bl & en & block & Hb & Hc & Hbl & Hen & Hblock & Hread).
  rewrite (Hempty _ _ Hbl) in Hen; injection Hen as <-.
  exists b, c, block; repeat (split; [assumption|]).
  intros Hs Hh.
  cbn [encode_lines] in Hblock; rewrite Hs, Hh in Hblock.
  assert (E : block = marker) by (injection Hblock as <-; reflexivity).
  rewrite Hread, E; reflexivity.
Qed.

(** The theorem on the two documents discovered from the root [docs]:
    [b.md], to which [a.md] links, has no backlink and gets an empty
    block. *)
Lemma relative_root_blocks_are_empty_witness :
  compute_backlinks Sample.env TwoRelative.beta TwoRelative.dir Two.fs
  = Ok [] /\
  exists fs',
    add_backlinks Sample.env TwoRelative.beta TwoRelative.dir Two.fs
    = Returns fs' /\
    open_read fs' ["w"; "docs"; "b.md"] = Ok (Two.b_text ++ marker)%string.
Proof.
  destruct (relative_root_blocks_are_empty Sample.env "docs" Two.fs
              TwoRelative.dir Docs.b_md TwoRelative.beta eq_refl eq_refl
              (or_intror (or_introl eq_refl)))
    as (_ & Hempty & Hblock).
  split.
  - destruct (compute_backlinks Sample.env TwoRelative.beta
                TwoRelative.dir Two.fs) as [bl|e] eqn:E; [|discriminate E].
    rewrite (Hempty Two.fs bl E); reflexivity.
  - destruct (add_backlinks Sample.env TwoRelative.beta
                TwoRelative.dir Two.fs) as [fs'|e fs'] eqn:E; [|discriminate E].
    exists fs'; split; [reflexivity|].
    destruct (Hblock Two.fs fs' E) as (b & c & block & Hb & Hc & _ & _ & Hread).
    injection Hb as <-.
    vm_compute in Hc; injection Hc as <-.
    exact (Hread eq_refl eq_refl).
Defined.


Lemma Three_canonical_names (entry : list string * node) :
  In entry Three.fs ->
  Forall wf_component (fst entry) /\ ~ In ".." (fst entry).
Proof. revert entry; example_canonical_names. Qed.

Lemma Three_fresh : fresh Sample.env Three.dir Three.fs.
Proof. example_fresh. Qed.

Lemma Three_block_read_back : block_read_back Sample.env Three.dir Three.fs.
Proof. example_block_read_back. Qed.

